(** * A shallow embedding of the calculator of [app.js]

    The script keeps three module-level variables ([input], [stored],
    [operator]) and writes to two DOM nodes ([displayEl], [statusEl]).
    Here the five of them form one record that every handler takes and
    returns.  JavaScript numbers are IEEE 754 binary64 values: they are
    modelled with [spec_float] at precision 53 and maximal exponent 1024,
    and the built-ins the script calls ([parseFloat], [toPrecision],
    [Number.prototype.toString], [String.prototype.replace] with the two
    regular expressions of [formatNumber]) are written out over exact
    integer arithmetic. *)

From Stdlib Require Import ZArith Bool List String Ascii Lia SpecFloat.
From Stdlib Require Import QArith Qpower Lqa.
Import ListNotations.

Local Open Scope string_scope.
Local Open Scope Z_scope.

(** ** Characters and digit strings *)

Module Chars.

Definition is_digit (c : ascii) : bool :=
  let n := N_of_ascii c in (48 <=? n)%N && (n <=? 57)%N.

Definition digit_val (c : ascii) : Z := Z.of_N (N_of_ascii c) - 48.

Definition digit_char (d : Z) : ascii := ascii_of_N (Z.to_N (48 + d)).

(** JavaScript's [StrWhiteSpaceChar], restricted to the ASCII range. *)
Definition is_space (c : ascii) : bool :=
  let n := N_of_ascii c in
  (n =? 32)%N || ((9 <=? n)%N && (n <=? 13)%N).

End Chars.
Import Chars.

Module Str.

(** [s.includes(c)] for a one-character needle. *)
Fixpoint includes (c : ascii) (s : string) : bool :=
  match s with
  | EmptyString => false
  | String a r => Ascii.eqb a c || includes c r
  end.

(** [s.startsWith(c)] for a one-character needle. *)
Definition startsWith (c : ascii) (s : string) : bool :=
  match s with
  | String a _ => Ascii.eqb a c
  | EmptyString => false
  end.

(** [s.slice(1)]. *)
Definition slice1 (s : string) : string :=
  match s with
  | String _ r => r
  | EmptyString => EmptyString
  end.

(** [s.slice(0, -1)]. *)
Fixpoint slice_init (s : string) : string :=
  match s with
  | EmptyString => EmptyString
  | String _ EmptyString => EmptyString
  | String a r => String a (slice_init r)
  end.

(** Truthiness of a string value. *)
Definition truthy (s : string) : bool := negb (s =? "")%string.

Fixpoint all (p : ascii -> bool) (s : string) : bool :=
  match s with
  | EmptyString => true
  | String a r => p a && all p r
  end.

Fixpoint count (c : ascii) (s : string) : nat :=
  match s with
  | EmptyString => O
  | String a r => ((if Ascii.eqb a c then 1 else 0) + count c r)%nat
  end.

(** The longest prefix whose characters satisfy [p], and the rest. *)
Fixpoint span (p : ascii -> bool) (s : string) : string * string :=
  match s with
  | EmptyString => (EmptyString, EmptyString)
  | String a r =>
      if p a then let '(u, v) := span p r in (String a u, v)
      else (EmptyString, s)
  end.

Fixpoint drop_while (p : ascii -> bool) (s : string) : string :=
  match s with
  | EmptyString => EmptyString
  | String a r => if p a then drop_while p r else s
  end.

Fixpoint zeros (n : nat) : string :=
  match n with
  | O => EmptyString
  | S k => String "0" (zeros k)
  end.

Fixpoint take (n : nat) (s : string) : string :=
  match n, s with
  | S k, String a r => String a (take k r)
  | _, _ => EmptyString
  end.

Fixpoint drop (n : nat) (s : string) : string :=
  match n, s with
  | S k, String _ r => drop k r
  | _, _ => s
  end.

End Str.

(** ** Decimal digits of integers *)

Module Digits.

(** Value of a string of decimal digits, most significant first. *)
Fixpoint value_from (acc : Z) (s : string) : Z :=
  match s with
  | EmptyString => acc
  | String c r => value_from (10 * acc + digit_val c) r
  end.

Definition value (s : string) : Z := value_from 0 s.

(** The [w] low decimal digits of [n], most significant first, in front
    of [acc]. *)
Fixpoint render_onto (w : nat) (n : Z) (acc : string) : string :=
  match w with
  | O => acc
  | S k => render_onto k (n / 10) (String (digit_char (n mod 10)) acc)
  end.

Definition render (w : nat) (n : Z) : string := render_onto w n EmptyString.

Fixpoint log10_loop (fuel : nat) (n : Z) : Z :=
  match fuel with
  | O => 0
  | S k => if n <? 10 then 0 else 1 + log10_loop k (n / 10)
  end.

(** [floor (log10 n)] for [n > 0]. *)
Definition log10 (n : Z) : Z := log10_loop (Z.to_nat (Z.log2 n)) n.

(** Decimal representation of a non-negative integer, as [String(n)]. *)
Definition of_Z (n : Z) : string := render (Z.to_nat (log10 n + 1)) n.

End Digits.

(** ** Binary64 numbers *)

Module F64.

Definition float : Type := spec_float.

Definition prec : Z := 53.
Definition emax : Z := 1024.

Definition add : float -> float -> float := SFadd prec emax.
Definition sub : float -> float -> float := SFsub prec emax.
Definition mul : float -> float -> float := SFmul prec emax.
Definition div : float -> float -> float := SFdiv prec emax.

Definition is_nan (x : float) : bool :=
  match x with S754_nan => true | _ => false end.

Definition is_finite (x : float) : bool :=
  match x with S754_zero _ | S754_finite _ _ _ => true | _ => false end.

(** [x === 0]: both zeros compare equal to [0]. *)
Definition is_zero (x : float) : bool :=
  match x with S754_zero _ => true | _ => false end.

(** A rational [b ^ e] is kept as the pair [up b e / dn b e]. *)
Definition up (b e : Z) : Z := b ^ Z.max 0 e.
Definition dn (b e : Z) : Z := b ^ Z.max 0 (- e).

(** [floor (log_b (N / D))] for positive [N] and [D], from the integer
    logarithm [lg] of base [b]. *)
Definition ilog (b : Z) (lg : Z -> Z) (N D : Z) : Z :=
  let e := lg N - lg D in
  if N * dn b e <? D * up b e then e - 1 else e.

Definition ilog2 : Z -> Z -> Z := ilog 2 Z.log2.
Definition ilog10 : Z -> Z -> Z := ilog 10 Digits.log10.

(** Nearest integer to [n / d], ties to even ([d > 0], [n >= 0]). *)
Definition rne (n d : Z) : Z :=
  let q := n / d in
  match 2 * (n mod d) ?= d with
  | Lt => q
  | Gt => q + 1
  | Eq => if Z.even q then q else q + 1
  end.

(** Nearest integer to [n / d], ties upwards. *)
Definition rhu (n d : Z) : Z := (2 * n + d) / (2 * d).

(** The Number value of the positive rational [N / D]: round to nearest,
    ties to even, with gradual underflow and overflow to infinity. *)
Definition of_rat (sign : bool) (N D : Z) : float :=
  let e := Z.max (ilog2 N D - 52) (-1074) in
  let m := rne (N * dn 2 e) (D * up 2 e) in
  let '(m, e) := if m =? 2 ^ 53 then (2 ^ 52, e + 1) else (m, e) in
  match m with
  | Zpos p => if 971 <? e then S754_infinity sign else S754_finite sign p e
  | _ => S754_zero sign
  end.

(** The Number value of [m * 10 ^ sc], for [m >= 0]. *)
Definition of_decimal (sign : bool) (m sc : Z) : float :=
  if m =? 0 then S754_zero sign
  else of_rat sign (m * up 10 sc) (dn 10 sc).

Definition hundred : float := Eval vm_compute in of_decimal false 100 0.

(** The [%] operator ([Number::remainder]): the result has the sign of
    the dividend and is computed exactly. *)
Definition rem (x y : float) : float :=
  match x, y with
  | S754_nan, _ | _, S754_nan => S754_nan
  | S754_infinity _, _ => S754_nan
  | _, S754_zero _ => S754_nan
  | _, S754_infinity _ => x
  | S754_zero _, _ => x
  | S754_finite sx mx ex, S754_finite _ my ey =>
      let e := Z.min ex ey in
      let r := (Zpos mx * 2 ^ (ex - e)) mod (Zpos my * 2 ^ (ey - e)) in
      binary_normalize prec emax (if sx then - r else r) e sx
  end.

End F64.

(** ** Numbers and strings: the built-ins used by the script *)

Module Num.
Import F64.

(** Structural equality of two values in canonical form. *)
Definition same (x y : float) : bool :=
  match x, y with
  | S754_zero a, S754_zero b => Bool.eqb a b
  | S754_infinity a, S754_infinity b => Bool.eqb a b
  | S754_nan, S754_nan => true
  | S754_finite a m e, S754_finite b n f =>
      Bool.eqb a b && (m =? n)%positive && (e =? f)
  | _, _ => false
  end.

Definition sign_prefix (s : bool) : string := if s then "-" else "".

(** [String(x)] for a value that is not a finite non-zero number. *)
Definition to_string_special (x : float) : string :=
  match x with
  | S754_nan => "NaN"
  | S754_infinity s => sign_prefix s ++ "Infinity"
  | _ => "0"
  end.

(** *** [parseFloat]

    Leading white space is skipped (here the ASCII white space only) and
    the longest prefix that is a [StrDecimalLiteral] is converted; its
    mathematical value is rounded to the nearest Number, ties to even. *)

(** Value of an optional [ExponentPart] at the head of [s]; [0] when
    there is none (an [e] that no digit follows is not part of the
    literal). *)
Definition exponent_part (s : string) : Z :=
  match s with
  | String c r =>
      if Ascii.eqb c "e" || Ascii.eqb c "E" then
        let '(neg, t) :=
          match r with
          | String d t =>
              if Ascii.eqb d "-" then (true, t)
              else if Ascii.eqb d "+" then (false, t)
              else (false, r)
          | EmptyString => (false, r)
          end in
        let ds := fst (Str.span is_digit t) in
        if (ds =? "")%string then 0
        else if neg then - Digits.value ds else Digits.value ds
      else 0
  | EmptyString => 0
  end.

(** The longest prefix of [s] that is a [StrUnsignedDecimalLiteral], as a
    Number of sign [sign]; [NaN] when no prefix is one. *)
Definition unsigned_literal (sign : bool) (s : string) : float :=
  if String.prefix "Infinity" s then S754_infinity sign
  else
    let '(ip, r1) := Str.span is_digit s in
    match r1 with
    | String c r =>
        if Ascii.eqb c "." then
          let '(fp, r2) := Str.span is_digit r in
          if (ip =? "")%string && (fp =? "")%string then S754_nan
          else of_decimal sign (Digits.value (ip ++ fp))
                 (exponent_part r2 - Z.of_nat (String.length fp))
        else if (ip =? "")%string then S754_nan
        else of_decimal sign (Digits.value ip) (exponent_part r1)
    | EmptyString =>
        if (ip =? "")%string then S754_nan
        else of_decimal sign (Digits.value ip) 0
    end.

Definition parseFloat (s : string) : float :=
  match Str.drop_while is_space s with
  | String c r =>
      if Ascii.eqb c "-" then unsigned_literal true r
      else if Ascii.eqb c "+" then unsigned_literal false r
      else unsigned_literal false (String c r)
  | EmptyString => S754_nan
  end.

(** *** [Number.prototype.toPrecision] *)

(** The positive finite value [m * 2 ^ e] as a fraction. *)
Definition num (m : positive) (e : Z) : Z := Zpos m * up 2 e.
Definition den (e : Z) : Z := dn 2 e.

(** The integers [n] and [e] of [toPrecision]: [10 ^ (p - 1) <= n < 10 ^ p]
    and [n * 10 ^ (e - p + 1)] is as close to [N / D] as possible, the
    larger [n] on a tie. *)
Definition precision_digits (p : Z) (N D : Z) : Z * Z :=
  let e := ilog10 N D in
  let n := rhu (N * dn 10 (e - p + 1)) (D * up 10 (e - p + 1)) in
  if n =? 10 ^ p then (10 ^ (p - 1), e + 1) else (n, e).

(** The exponent part of exponential notation: [e], a sign and the
    digits of the absolute value. *)
Definition exponent_suffix (e : Z) : string :=
  "e" ++ (if e <? 0 then "-" else "+") ++ Digits.of_Z (Z.abs e).

(** The digits [m] with a decimal point after the first [n] of them. *)
Definition point_after (n : nat) (m : string) : string :=
  Str.take n m ++ "." ++ Str.drop n m.

(** Layout of the [p] digits [m] of a value of decimal exponent [e]. *)
Definition precision_layout (p : nat) (m : string) (e : Z) : string :=
  if (e <? -6) || (Z.of_nat p <=? e) then
    (if (p =? 1)%nat then m else point_after 1 m) ++ exponent_suffix e
  else if e =? Z.of_nat p - 1 then m
  else if 0 <=? e then point_after (Z.to_nat (e + 1)) m
  else "0." ++ Str.zeros (Z.to_nat (- (e + 1))) ++ m.

(** [x.toPrecision(p)] for [1 <= p <= 100]. *)
Definition toPrecision (p : nat) (x : float) : string :=
  match x with
  | S754_zero _ => precision_layout p (Str.zeros p) 0
  | S754_finite s m e =>
      let '(n, e10) := precision_digits (Z.of_nat p) (num m e) (den e) in
      sign_prefix s ++ precision_layout p (Digits.render p n) e10
  | _ => to_string_special x
  end.

(** *** [Number::toString] in radix 10 *)

(** The [k]-digit candidates next to [N / D] (which represents [x]): the
    one that reads back as [x], the closer one when both do and the even
    one on a tie.  The result is [(s, n)] with value [s * 10 ^ (n - k)]. *)
Definition try_digits (x : float) (N D e10 k : Z) : option (Z * Z) :=
  let sc := e10 - k + 1 in
  let lo := (N * dn 10 sc) / (D * up 10 sc) in
  let r := (N * dn 10 sc) mod (D * up 10 sc) in
  let hi := lo + 1 in
  let pick_lo := Some (lo, e10 + 1) in
  let pick_hi :=
    if hi =? 10 ^ k then Some (10 ^ (k - 1), e10 + 2)
    else Some (hi, e10 + 1) in
  match same (of_decimal false lo sc) x, same (of_decimal false hi sc) x with
  | true, true =>
      match 2 * r ?= D * up 10 sc with
      | Lt => pick_lo
      | Gt => pick_hi
      | Eq => if Z.even lo then pick_lo else pick_hi
      end
  | true, false => pick_lo
  | false, true => pick_hi
  | false, false => None
  end.

(** The nearest [k]-digit decimal, taken without reading it back. *)
Definition nearest_digits (N D e10 k : Z) : Z * Z :=
  let sc := e10 - k + 1 in
  let s := rne (N * dn 10 sc) (D * up 10 sc) in
  if s =? 10 ^ k then (10 ^ (k - 1), e10 + 2) else (s, e10 + 1).

(** The shortest digit string that reads back as [x], searched from [k]
    digits upwards; seventeen digits always identify a binary64 value,
    and the search is not continued beyond them. *)
Fixpoint shortest_digits (fuel : nat) (x : float) (N D e10 k : Z)
  : Z * Z * Z :=
  match fuel with
  | O => let '(s, n) := nearest_digits N D e10 k in (s, k, n)
  | S f =>
      match try_digits x N D e10 k with
      | Some (s, n) => (s, k, n)
      | None => shortest_digits f x N D e10 (k + 1)
      end
  end.

(** Layout of the [k] digits of [s], for the value [s * 10 ^ (n - k)]. *)
Definition to_string_layout (s k n : Z) : string :=
  let ds := Digits.render (Z.to_nat k) s in
  if (k <=? n) && (n <=? 21) then ds ++ Str.zeros (Z.to_nat (n - k))
  else if (0 <? n) && (n <=? 21) then point_after (Z.to_nat n) ds
  else if (-6 <? n) && (n <=? 0) then "0." ++ Str.zeros (Z.to_nat (- n)) ++ ds
  else (if k =? 1 then ds else point_after 1 ds) ++ exponent_suffix (n - 1).

(** [x.toString()]. *)
Definition toString (x : float) : string :=
  match x with
  | S754_finite sg m e =>
      let N := num m e in
      let D := den e in
      let '(s, k, n) :=
        shortest_digits 16 (S754_finite false m e) N D (ilog10 N D) 1 in
      sign_prefix sg ++ to_string_layout s k n
  | _ => to_string_special x
  end.

(** *** The two replacements of [formatNumber] *)

Definition is_zero_char (c : ascii) : bool := Ascii.eqb c "0".

(** [s] without the zeros it ends with. *)
Fixpoint drop_trailing_zeros (s : string) : string :=
  match s with
  | EmptyString => EmptyString
  | String c r =>
      let t := drop_trailing_zeros r in
      if is_zero_char c && (t =? "")%string then EmptyString
      else String c t
  end.

(** An attempt to match [\d*?[1-9]0+$] at the head of [r]: the text of
    [\d*?[1-9]] when it succeeds.  The zeros must run to the end of the
    string, so the [[1-9]] can only be the last non-zero digit. *)
Definition match_fraction_zeros (r : string) : option string :=
  let t := drop_trailing_zeros r in
  if Str.all is_digit r && negb (t =? "")%string && negb (t =? r)%string
  then Some t else None.

(** [s.replace(/(\.\d*?[1-9])0+$/, '$1')]: the match is tried at every
    position from the left. *)
Fixpoint replace_fraction_zeros (s : string) : string :=
  match s with
  | EmptyString => EmptyString
  | String c r =>
      match (if Ascii.eqb c "." then match_fraction_zeros r else None) with
      | Some t => String c t
      | None => String c (replace_fraction_zeros r)
      end
  end.

(** [s.replace(/\.0+$/, '')]. *)
Fixpoint replace_dot_zeros (s : string) : string :=
  match s with
  | EmptyString => EmptyString
  | String c r =>
      if Ascii.eqb c "." && negb (r =? "")%string && Str.all is_zero_char r
      then EmptyString
      else String c (replace_dot_zeros r)
  end.

End Num.

(** ** The script *)

Module App.
Import F64 Num.

(** Lines 25-28 of [formatNumber]. *)
Definition trim_fraction (s : string) : string :=
  if Str.includes "." s
  then replace_dot_zeros (replace_fraction_zeros s)
  else s.

(** [formatNumber(n)], lines 14-30. *)
Definition formatNumber (n : float) : string :=
  if negb (is_finite n) then to_string_special n
  else
    let s := toPrecision 12 n in
    let s := if Str.includes "e" s then toString n else s in
    trim_fraction s.

(** The three variables of the script and the text of the two DOM nodes
    it writes to. *)
Record State : Type := mkState {
  input : string;              (* [let input = ""] *)
  stored : option string;      (* [let stored = null] *)
  operator : option string;    (* [let operator = null] *)
  display : string;            (* [displayEl.textContent], [updateDisplay] *)
  status : string              (* [statusEl.textContent] *)
}.

(** The object returned by [computeLocal]: [{ ok: true, result }] or
    [{ ok: false, error }]. *)
Inductive Outcome : Type :=
  | Ok (result : string)
  | Err (error : string).

(** Truthiness of a string-or-null value. *)
Definition truthy (v : option string) : bool :=
  match v with
  | Some s => Str.truthy s
  | None => false
  end.

(** [v || d]. *)
Definition or_else (v : option string) (d : string) : string :=
  match v with
  | Some s => if Str.truthy s then s else d
  | None => d
  end.

(** [clearAll()], lines 36-42. *)
Definition cleared : State := mkState "" None None "0" "".

Definition clearAll (st : State) : State := cleared.

(** [setInputChar(ch)], lines 44-50. *)
Definition setInputChar (ch : string) (st : State) : State :=
  if (ch =? ".")%string && Str.includes "." (input st) then st
  else
    let i := if (ch =? ".")%string && (input st =? "")%string
             then "0" else input st in
    let i := if (i =? "0")%string && negb (ch =? ".")%string
             then ch else i ++ ch in
    mkState i (stored st) (operator st) i (status st).

Definition flip_sign (s : string) : string :=
  if Str.startsWith "-" s then Str.slice1 s else "-" ++ s.

(** [toggleSign()], lines 52-68. *)
Definition toggleSign (st : State) : State :=
  if negb (Str.truthy (input st)) then
    match stored st with
    | Some s =>
        mkState (input st) (Some (flip_sign s)) (operator st)
                (flip_sign s) (status st)
    | None => mkState "-0" None (operator st) "-0" (status st)
    end
  else
    mkState (flip_sign (input st)) (stored st) (operator st)
            (flip_sign (input st)) (status st).

(** [computeLocal(aStr, bStr, op)], lines 71-104.  Nothing in the [try]
    block throws, so its [catch] clause has no counterpart here. *)
Definition computeLocal (aStr bStr op : string) : Outcome :=
  let a := parseFloat aStr in
  let b := parseFloat bStr in
  if is_nan a || is_nan b then Err "Invalid number"
  else if (op =? "+")%string then Ok (formatNumber (add a b))
  else if (op =? "-")%string then Ok (formatNumber (sub a b))
  else if (op =? "*")%string then Ok (formatNumber (mul a b))
  else if (op =? "/")%string then
    if is_zero b then Err "Division by zero"
    else Ok (formatNumber (div a b))
  else if (op =? "%")%string then
    if is_zero b then Err "Division by zero"
    else Ok (formatNumber (rem a b))
  else Err "Unsupported operator".

(** The state after a failed evaluation, lines 121-126 and 177-181. *)
Definition failed (error : string) : State :=
  mkState "" None None "Error" error.

(** [pressOperator(op)], lines 106-145. *)
Definition pressOperator (op : string) (st : State) : State :=
  match stored st with
  | None =>
      if Str.truthy (input st) then
        mkState "" (Some (input st)) (Some op) (input st)
                (input st ++ " " ++ op)
      else st
  | Some s =>
      if Str.truthy (input st) then
        match computeLocal s (input st) (or_else (operator st) op) with
        | Err e => failed e
        | Ok r => mkState "" (Some r) (Some op) r (r ++ " " ++ op)
        end
      else mkState (input st) (Some s) (Some op) (display st)
                   (s ++ " " ++ op)
  end.

(** [pressPercent()], lines 147-164. *)
Definition pressPercent (st : State) : State :=
  if Str.truthy (input st) then
    let val := parseFloat (input st) in
    if is_nan val then
      mkState (input st) (stored st) (operator st) (display st)
              "Invalid number"
    else
      let r := formatNumber (div val hundred) in
      mkState r (stored st) (operator st) r (status st)
  else
    match stored st with
    | Some s =>
        let val := parseFloat s in
        if is_nan val then
          mkState (input st) (stored st) (operator st) (display st)
                  "Invalid number"
        else
          let r := formatNumber (div val hundred) in
          mkState (input st) (Some r) (operator st) r ""
    | None => st
    end.

(** The branch of [pressEquals] taken when no operator is pending,
    lines 168-172: the display is written again and nothing else. *)
Definition refresh (st : State) : State :=
  if Str.truthy (input st) then
    mkState (input st) (stored st) (operator st) (input st) (status st)
  else
    match stored st with
    | Some s =>
        if Str.truthy s then
          mkState (input st) (stored st) (operator st) s (status st)
        else st
    | None => st
    end.

(** [pressEquals()], lines 166-190. *)
Definition pressEquals (st : State) : State :=
  if negb (truthy (operator st)) then refresh st
  else
    let op := or_else (operator st) "" in
    let a := match stored st with None => "0" | Some s => s end in
    let b := if (input st =? "")%string then a else input st in
    match computeLocal a b op with
    | Err e => failed e
    | Ok r => mkState "" (Some r) None r (a ++ " " ++ op ++ " " ++ b ++ " =")
    end.

(** The [Backspace] branch of the [keydown] listener, lines 244-256. *)
Definition pressBackspace (st : State) : State :=
  if Str.truthy (input st) then
    let i := Str.slice_init (input st) in
    mkState i (stored st) (operator st)
            (if Str.truthy i then i else "0") (status st)
  else mkState (input st) (stored st) None (display st) "".

(** The events that the click and [keydown] listeners forward. *)
Inductive OperatorKind : Type :=
  | Add | Subtract | Multiply | Divide | Modulo.

Definition symbol (op : OperatorKind) : string :=
  match op with
  | Add => "+"
  | Subtract => "-"
  | Multiply => "*"
  | Divide => "/"
  | Modulo => "%"
  end.

Inductive Event : Type :=
  | Digit (ch : ascii)
  | ToggleSign
  | Percent
  | Operator (op : OperatorKind)
  | Equals
  | Clear
  | Backspace.

Definition char (c : ascii) : string := String c EmptyString.

Definition step (st : State) (ev : Event) : State :=
  match ev with
  | Digit ch => setInputChar (char ch) st
  | ToggleSign => toggleSign st
  | Percent => pressPercent st
  | Operator op => pressOperator (symbol op) st
  | Equals => pressEquals st
  | Clear => clearAll st
  | Backspace => pressBackspace st
  end.

Definition run (evs : list Event) (st : State) : State :=
  fold_left step evs st.

(** A [Digit] event carries one of ['0'] to ['9'] or ['.']. *)
Definition digit_key (c : ascii) : bool := is_digit c || Ascii.eqb c ".".

Definition public (ev : Event) : bool :=
  match ev with
  | Digit ch => digit_key ch
  | _ => true
  end.

(** States reachable from the cleared state, in which the script starts
    (line 270). *)
Inductive reachable : State -> Prop :=
  | reachable_cleared : reachable cleared
  | reachable_step st ev :
      reachable st -> public ev = true -> reachable (step st ev).

End App.

(** ** The keyboard listener *)

Module Keyboard.
Import App.

(** [String.prototype.toLowerCase] on the ASCII letters; the listener
    only compares its result with ["c"], which no other character maps
    to. *)
Definition lower (c : ascii) : ascii :=
  let n := N_of_ascii c in
  if ((65 <=? n) && (n <=? 90))%N then ascii_of_N (n + 32) else c.

Fixpoint toLowerCase (s : string) : string :=
  match s with
  | EmptyString => EmptyString
  | String c r => String (lower c) (toLowerCase r)
  end.

(** The array literal of line 235. *)
Definition operator_keys : list string := ["+"; "-"; "*"; "/"; "%"].

(** The [keydown] listener, lines 227-267, on the key [e.key]: the new
    state and whether [e.preventDefault()] was called.  Strings are
    compared as JavaScript compares them, code unit by code unit, a
    proper prefix being the smaller. *)
Definition keydown (key : string) (st : State) : State * bool :=
  if (String.leb "0" key && String.leb key "9") || (key =? ".")%string then
    (setInputChar key st, true)
  else if existsb (String.eqb key) operator_keys then
    (pressOperator key st, true)
  else if (key =? "Enter")%string || (key =? "=")%string then
    (pressEquals st, true)
  else if (key =? "Backspace")%string then
    (pressBackspace st, true)
  else if (toLowerCase key =? "c")%string then
    (clearAll st, true)
  else if (key =? "Escape")%string then
    (clearAll st, true)
  else (st, false).

End Keyboard.

(** ** Notions used to state the properties *)

Module Props.
Import F64 Num App.

(** The variables of the engine, without the two DOM nodes. *)
Definition vars (st : State) : string * option string * option string :=
  (input st, stored st, operator st).

(** The left and right operands that [pressEquals] evaluates. *)
Definition left_operand (st : State) : string :=
  match stored st with None => "0" | Some s => s end.

Definition right_operand (st : State) : string :=
  if (input st =? "")%string then left_operand st else input st.

(** The error message produced while [ev] is processed in [st], if any:
    a failed [computeLocal] in [pressOperator] or [pressEquals], or an
    operand of [pressPercent] that [parseFloat] rejects. *)
Definition raised (st : State) (ev : Event) : option string :=
  match ev with
  | Operator op =>
      match stored st with
      | Some s =>
          if Str.truthy (input st) then
            match computeLocal s (input st)
                    (or_else (operator st) (symbol op)) with
            | Err e => Some e
            | Ok _ => None
            end
          else None
      | None => None
      end
  | Equals =>
      if truthy (operator st) then
        match computeLocal (left_operand st) (right_operand st)
                (or_else (operator st) "") with
        | Err e => Some e
        | Ok _ => None
        end
      else None
  | Percent =>
      if Str.truthy (input st) then
        if is_nan (parseFloat (input st)) then Some "Invalid number"
        else None
      else
        match stored st with
        | Some s =>
            if is_nan (parseFloat s) then Some "Invalid number" else None
        | None => None
        end
  | _ => None
  end.


(** [pendingOperator] is present only if [storedOperand] is. *)
Definition pending_ok (st : State) : bool :=
  match operator st, stored st with
  | Some _, None => false
  | _, _ => true
  end.

(** Digits and at most one decimal point, after an optional leading
    minus sign. *)
Definition unsigned_part (s : string) : string :=
  if Str.startsWith "-" s then Str.slice1 s else s.

Definition valid_input (s : string) : bool :=
  Str.all digit_key (unsigned_part s)
  && (Str.count "." (unsigned_part s) <=? 1)%nat.

(** The active operand of [pressPercent] divided by one hundred. *)
Definition percent_of (s : string) : string :=
  formatNumber (div (parseFloat s) hundred).

(** Following the specification's words, not the code: the typed text
    with its leading zeros collapsed.  A zero in front of another digit
    is dropped (["00"] gives ["0"], which the next digit replaces), and a
    text that begins with the decimal point reads as if a zero had been
    typed before it. *)
Fixpoint collapse (s : string) : string :=
  match s with
  | String c r =>
      if Ascii.eqb c "0" then
        match r with
        | String d _ => if is_digit d then collapse r else s
        | EmptyString => s
        end
      else if Ascii.eqb c "." then String "0" s
      else s
  | EmptyString => EmptyString
  end.

Definition typed (s : string) : list Event :=
  map Digit (list_ascii_of_string s).

Definition not_percent (ev : Event) : bool :=
  match ev with
  | Percent => false
  | _ => true
  end.

(** *** States used as examples *)


(** The input ["-"]: [5], sign, backspace. *)
Definition lone_minus : State :=
  run [Digit "5"; ToggleSign; Backspace] cleared.

(** [5 + 3], before [Equals]. *)
Definition five_plus_three : State :=
  run [Digit "5"; Operator Add; Digit "3"] cleared.

(** [4 * 2], then backspace. *)
Definition four_times : State :=
  run [Digit "4"; Operator Multiply; Digit "2"; Backspace] cleared.

(** [9 +]. *)
Definition nine_plus : State := run [Digit "9"; Operator Add] cleared.

(** The input ["20"]. *)
Definition twenty : State := run [Digit "2"; Digit "0"] cleared.

(** [0.00001], then [Percent]. *)
Definition tiny_percent : State :=
  run [Digit "0"; Digit "."; Digit "0"; Digit "0"; Digit "0"; Digit "0";
       Digit "1"; Percent] cleared.

(** *** Values, for the round trip through [parseFloat]

    The fraction [N / D], the power [b ^ e] and the decimal
    [a * 10 ^ sc] as rational numbers. *)
Definition rat (N D : Z) : Q := (inject_Z N / inject_Z D)%Q.
Definition pw (b e : Z) : Q := (inject_Z b ^ e)%Q.
Definition dec (a sc : Z) : Q := (inject_Z a * pw 10 sc)%Q.

(** The mantissa and exponent of a finite binary64 value in canonical
    form. *)
Definition bounded64 (m e : Z) : Prop :=
  0 < m < 2 ^ 53 /\ -1074 <= e <= 971 /\ (2 ^ 52 <= m \/ e = -1074).

Definition starts_with_digit (s : string) : bool :=
  match s with
  | String c _ => is_digit c
  | EmptyString => false
  end.

(** A tail that is empty or an exponent. *)
Definition exponent_tail (t : string) : Prop :=
  t = "" \/ exists ex, t = exponent_suffix ex.

(** The characters of fixed notation. *)
Definition fixed_char (c : ascii) : bool :=
  is_digit c || Ascii.eqb c "." || Ascii.eqb c "-".

(** *** Notions for the further properties *)

(** [s] begins with two minus signs. *)
Definition double_minus (s : string) : bool :=
  Str.startsWith "-" s && Str.startsWith "-" (Str.slice1 s).

(** The display shows the input, unless the input is empty. *)
Definition shows_input (st : State) : bool :=
  (input st =? "")%string || (display st =? input st)%string.

(** The pending operator, if any, is one of the five of
    [computeLocal]. *)
Definition known_operator (st : State) : bool :=
  match operator st with
  | None => true
  | Some op => existsb (String.eqb op) ["+"; "-"; "*"; "/"; "%"]
  end.

(** The keys that pass the test [e.key >= "0" && e.key <= "9"]: those
    that begin with a digit, ["9"] being followed by nothing. *)
Definition digit_range (key : string) : bool :=
  match key with
  | EmptyString => false
  | String c r => is_digit c && (negb (Ascii.eqb c "9") || (r =? "")%string)
  end.

(** The other keys that the listener handles. *)
Definition named_keys : list string :=
  ["."; "+"; "-"; "*"; "/"; "%"; "Enter"; "="; "Backspace"; "c"; "C"; "Escape"].

(** The typed operands that [parseFloat] rejects. *)
Definition unparsed (s : string) : bool :=
  existsb (String.eqb s) [""; "-"; "."; "-."].

(** [5], sign, backspace, [.]: the input ["-."]; one more sign gives
    ["."]. *)
Definition minus_dot : State :=
  run [Digit "5"; ToggleSign; Backspace; Digit "."] cleared.

Definition lone_dot : State := step minus_dot ToggleSign.

(** The last character of [s]. *)
Fixpoint last_char (s : string) : option ascii :=
  match s with
  | EmptyString => None
  | String c r =>
      match r with
      | EmptyString => Some c
      | String _ _ => last_char r
      end
  end.

(** Digits, then possibly a point and more digits, then possibly an
    exponent. *)
Inductive decimal_shape : string -> Prop :=
  | shape_integer ip t :
      ip <> "" -> Str.all is_digit ip = true -> exponent_tail t ->
      decimal_shape (ip ++ t)
  | shape_fraction ip fp t :
      ip <> "" -> Str.all is_digit ip = true ->
      fp <> "" -> Str.all is_digit fp = true -> exponent_tail t ->
      decimal_shape (ip ++ String "." (fp ++ t)).

(** [r] ends with a digit, and not with a zero when it has a decimal
    point and no exponent. *)
Definition ends_tidily (r : string) : Prop :=
  exists c, last_char r = Some c /\ is_digit c = true
            /\ (Str.includes "." r = true -> Str.includes "e" r = false ->
                c <> "0"%char).

(** [0.1 + 0.2], which [formatNumber] shows as ["0.3"], and [2 ^ 70]. *)
Definition three_tenths : float := S754_finite false 5404319552844596 (-54).
Definition two_to_seventy : float := S754_finite false 4503599627370496 18.

(** *** Notions for what follows an error, and for [Percent] *)



(** [Percent] leaves the input as it is, or writes a finite quotient
    that [formatNumber] shows without exponent. *)
Definition percent_keeps_shape (st : State) : bool :=
  if Str.truthy (input st) && negb (is_nan (parseFloat (input st))) then
    let q := div (parseFloat (input st)) hundred in
    is_finite q && negb (Str.includes "e" (formatNumber q))
  else true.

(** Every [Percent] event of [evs], run from [st], does so. *)
Fixpoint percents_keep_shape (evs : list Event) (st : State) : bool :=
  match evs with
  | [] => true
  | ev :: r =>
      (if not_percent ev then true else percent_keeps_shape st)
      && percents_keep_shape r (step st ev)
  end.

End Props.

(** ** Properties of the state machine *)

Import F64 Num App Props.
Import Keyboard.

Arguments formatNumber : simpl never.
Arguments parseFloat : simpl never.
Arguments computeLocal : simpl never.

(** Case analysis on the tests a handler makes. *)
Ltac split_bool :=
  match goal with
  | |- context [if ?c then _ else _] =>
      match type of c with bool => destruct c eqn:? end
  end.

Ltac split_tests :=
  repeat match goal with
         | |- context [if ?c then _ else _] => destruct c eqn:?
         | |- context [match ?x with _ => _ end] => destruct x eqn:?
         end.


Lemma step_vars st1 st2 ev :
  vars st1 = vars st2 -> vars (step st1 ev) = vars (step st2 ev).
Proof.
  destruct st1 as [i1 s1 o1 d1 t1], st2 as [i2 s2 o2 d2 t2].
  unfold vars; simpl. intros H; inversion H; subst.
  destruct ev; simpl;
    unfold setInputChar, toggleSign, pressPercent, pressOperator,
      pressEquals, refresh, pressBackspace, clearAll; simpl;
    split_tests; reflexivity.
Qed.

Lemma run_vars evs : forall st1 st2,
  vars st1 = vars st2 -> vars (run evs st1) = vars (run evs st2).
Proof.
  induction evs as [|ev evs IH]; intros st1 st2 H; simpl.
  - exact H.
  - apply IH, step_vars, H.
Qed.

Lemma run_app evs1 evs2 st :
  run (evs1 ++ evs2) st = run evs2 (run evs1 st).
Proof. unfold run. apply fold_left_app. Qed.

Lemma reachable_run evs :
  forallb public evs = true -> reachable (run evs cleared).
Proof.
  induction evs as [|ev evs IH] using rev_ind; intros H.
  - constructor.
  - rewrite forallb_app in H. apply andb_prop in H as [H1 H2].
    simpl in H2. rewrite andb_true_r in H2.
    rewrite run_app. simpl. constructor; auto.
Qed.













(** C2, as amended: when the right operand parses to zero, [computeLocal]
    with ["/"] or ["%"] never returns a result; it returns
    ["Division by zero"] when the left operand parses to a number and
    ["Invalid number"] when it does not.  [pressEquals] and
    [pressOperator] then show ["Error"]. *)
Theorem division_by_zero_C2 a b op :
  is_zero (parseFloat b) = true ->
  op = "/" \/ op = "%" ->
  (forall r, computeLocal a b op <> Ok r)
  /\ (is_nan (parseFloat a) = false ->
      computeLocal a b op = Err "Division by zero")
  /\ (is_nan (parseFloat a) = true ->
      computeLocal a b op = Err "Invalid number")
  /\ (forall st, left_operand st = a -> right_operand st = b ->
      operator st = Some op -> display (pressEquals st) = "Error")
  /\ (forall st op', stored st = Some a -> input st = b ->
      operator st = Some op -> display (pressOperator op' st) = "Error").
Proof.
  intros Hb Hop.
  assert (Hnb : is_nan (parseFloat b) = false)
    by (destruct (parseFloat b); auto; discriminate).
  assert (He : exists e, computeLocal a b op = Err e
                         /\ (is_nan (parseFloat a) = false ->
                             e = "Division by zero")
                         /\ (is_nan (parseFloat a) = true ->
                             e = "Invalid number")).
  { unfold computeLocal. rewrite Hnb, Hb.
    destruct (is_nan (parseFloat a)); simpl.
    - eexists; repeat split; auto; discriminate.
    - destruct Hop as [-> | ->]; simpl;
        eexists; repeat split; auto; discriminate. }
  destruct He as (e & He & H1 & H2).
  repeat split.
  - intros r. rewrite He. discriminate.
  - intros H. rewrite He, (H1 H). reflexivity.
  - intros H. rewrite He, (H2 H). reflexivity.
  - intros st Ha Hb' Ho. unfold pressEquals. rewrite Ho.
    assert (Ht : Str.truthy op = true) by (destruct Hop as [-> | ->]; auto).
    simpl. rewrite Ht. simpl.
    fold (left_operand st). fold (right_operand st).
    rewrite Ha, Hb', He. reflexivity.
  - intros st op' Hs Hi Ho. unfold pressOperator. rewrite Hs, Hi, Ho.
    assert (Ht : Str.truthy op = true) by (destruct Hop as [-> | ->]; auto).
    assert (Hbt : Str.truthy b = true)
      by (destruct b; [discriminate Hb | auto]).
    simpl. rewrite Hbt, Ht, He. reflexivity.
Qed.

Lemma division_by_zero_C2_witness :
  computeLocal "7" "-0" "%" = Err "Division by zero"
  /\ computeLocal "abc" "0.0" "/" = Err "Invalid number".
Proof.
  split.
  - apply (division_by_zero_C2 "7" "-0" "%");
      [reflexivity | auto | reflexivity].
  - apply (division_by_zero_C2 "abc" "0.0" "/");
      [reflexivity | auto | reflexivity].
Defined.

(** C2, as stated, fails: the left operand ["-"] (typed as [5], sign,
    backspace and stored by an operator) does not parse, and the error is
    ["Invalid number"] although the right operand is zero. *)
Lemma division_by_zero_C2_counterexample :
  is_zero (parseFloat "0") = true
  /\ computeLocal "-" "0" "/" = Err "Invalid number"
  /\ computeLocal "-" "0" "/" <> Err "Division by zero"
  /\ vars (run [Digit "5"; ToggleSign; Backspace; Operator Divide;
                Digit "0"] cleared) = ("0", Some "-", Some "/").
Proof. vm_compute. repeat split; discriminate. Qed.

(** C4: with no pending operator [Equals] changes none of the variables
    and writes the display again; otherwise it evaluates the stored
    operand (["0"] when absent) against the input (the left operand again
    when the input is empty), and on success the result is stored, the
    input and the operator are cleared and the status line reads
    ["a op b ="]; [5 + 3 =] shows ["8"] with status ["5 + 3 ="]. *)
Theorem equals_C4 st :
  (operator st = None ->
     vars (pressEquals st) = vars st
     /\ status (pressEquals st) = status st
     /\ (input st <> "" -> display (pressEquals st) = input st)
     /\ (input st = "" -> forall s, stored st = Some s -> s <> "" ->
         display (pressEquals st) = s)
     /\ (input st = "" -> (stored st = None \/ stored st = Some "") ->
         display (pressEquals st) = display st))
  /\ (forall op r,
        operator st = Some (symbol op) ->
        computeLocal (left_operand st) (right_operand st) (symbol op)
          = Ok r ->
        stored (pressEquals st) = Some r
        /\ input (pressEquals st) = ""
        /\ operator (pressEquals st) = None
        /\ display (pressEquals st) = r
        /\ status (pressEquals st)
           = left_operand st ++ " " ++ symbol op ++ " "
               ++ right_operand st ++ " =")
  /\ left_operand st = match stored st with Some s => s | None => "0" end
  /\ right_operand st
     = (if (input st =? "")%string then left_operand st else input st)
  /\ display (run [Digit "5"; Operator Add; Digit "3"; Equals] cleared) = "8"
  /\ status (run [Digit "5"; Operator Add; Digit "3"; Equals] cleared)
     = "5 + 3 =".
Proof.
  split; [|split; [|repeat split]].
  - intros Ho. unfold vars, pressEquals, refresh. rewrite Ho. simpl.
    unfold Str.truthy.
    repeat split.
    + split_tests; simpl; rewrite ?Ho; congruence.
    + split_tests; reflexivity.
    + intros Hi. apply String.eqb_neq in Hi. rewrite Hi. reflexivity.
    + intros Hi s Hs Hne. rewrite Hi, Hs. simpl.
      apply String.eqb_neq in Hne. rewrite Hne. reflexivity.
    + intros Hi [Hs|Hs]; rewrite Hi, Hs; reflexivity.
  - intros op r Ho Hc. unfold pressEquals. rewrite Ho.
    assert (Ht : Str.truthy (symbol op) = true) by (destruct op; reflexivity).
    simpl. rewrite Ht. simpl.
    fold (left_operand st). fold (right_operand st). rewrite Hc.
    simpl. auto.
Qed.

Lemma equals_C4_witness :
  stored (pressEquals five_plus_three) = Some "8"
  /\ status (pressEquals five_plus_three) = "5 + 3 ="
  /\ vars (pressEquals cleared) = vars cleared.
Proof.
  set (st := five_plus_three). split; [|split].
  - apply (proj1 (proj2 (equals_C4 st)) Add "8"); reflexivity.
  - destruct (proj1 (proj2 (equals_C4 st)) Add "8") as (_ & _ & _ & _ & H);
      [reflexivity | reflexivity | exact H].
  - apply (proj1 (equals_C4 cleared)). reflexivity.
Defined.

Lemma step_pending_ok st ev :
  pending_ok st = true -> pending_ok (step st ev) = true.
Proof.
  destruct st as [i [s|] [o|] d t]; unfold pending_ok; simpl;
    try discriminate; intros _;
    destruct ev; simpl;
    unfold setInputChar, toggleSign, pressPercent, pressOperator,
      pressEquals, refresh, pressBackspace, clearAll, failed; simpl;
    repeat (split_bool; simpl); try reflexivity;
    match goal with
    | |- context [computeLocal ?a ?b ?c] => destruct (computeLocal a b c)
    end; reflexivity.
Qed.

(** C5: in every state reachable from the cleared state the pending
    operator is present only if the stored operand is, and every handler
    preserves this, [Backspace] and the error resets included. *)
Theorem pending_operator_C5 :
  (forall st ev, pending_ok st = true -> pending_ok (step st ev) = true)
  /\ (forall st, reachable st ->
        forall op, operator st = Some op -> exists s, stored st = Some s).
Proof.
  split.
  - apply step_pending_ok.
  - intros st Hr.
    assert (H : pending_ok st = true).
    { induction Hr; [reflexivity | apply step_pending_ok; assumption]. }
    intros op Ho. unfold pending_ok in H. rewrite Ho in H.
    destruct (stored st) as [s|]; [eauto | discriminate].
Qed.

Lemma pending_operator_C5_witness :
  operator four_times = Some "*" /\ exists s, stored four_times = Some s.
Proof.
  set (st := four_times). split; [reflexivity|].
  apply (proj2 pending_operator_C5 st) with (op := "*").
  - apply reachable_run. reflexivity.
  - reflexivity.
Defined.

(** C7: with a stored operand and an empty input, an [Operator] event
    replaces the pending operator and nothing else among the variables
    and the display (the status line follows the operator); so
    [9 + - 2 =] shows ["7"]. *)
Theorem operator_twice_C7 st s op :
  stored st = Some s -> input st = "" ->
  operator (step st (Operator op)) = Some (symbol op)
  /\ stored (step st (Operator op)) = stored st
  /\ input (step st (Operator op)) = input st
  /\ display (step st (Operator op)) = display st
  /\ status (step st (Operator op)) = s ++ " " ++ symbol op
  /\ raised st (Operator op) = None
  /\ display (run [Digit "9"; Operator Add; Operator Subtract; Digit "2";
                   Equals] cleared) = "7".
Proof.
  intros Hs Hi. simpl. unfold pressOperator. rewrite Hs, Hi. simpl.
  repeat split; reflexivity.
Qed.

Lemma operator_twice_C7_witness :
  vars (step nine_plus (Operator Subtract)) = ("", Some "9", Some "-").
Proof.
  set (st := nine_plus).
  destruct (operator_twice_C7 st "9" Subtract) as (Ho & Hs & Hi & _);
    [reflexivity | reflexivity |].
  unfold vars. rewrite Ho, Hs, Hi. reflexivity.
Defined.

(** C8, as amended: [Percent] never changes the pending operator; when
    the active operand (the input if it is not empty, else the stored
    operand if present) parses to a number, it is replaced by that number
    divided by one hundred and formatted, which the display then shows;
    when it does not parse, the variables and the display are left as
    they are; [2 0 %] shows ["0.2"]. *)
Theorem percent_C8 st :
  operator (step st Percent) = operator st
  /\ (input st <> "" ->
      (is_nan (parseFloat (input st)) = false ->
       input (step st Percent) = percent_of (input st)
       /\ display (step st Percent) = percent_of (input st)
       /\ stored (step st Percent) = stored st)
      /\ (is_nan (parseFloat (input st)) = true ->
          vars (step st Percent) = vars st
          /\ display (step st Percent) = display st))
  /\ (input st = "" -> forall s, stored st = Some s ->
      (is_nan (parseFloat s) = false ->
       stored (step st Percent) = Some (percent_of s)
       /\ display (step st Percent) = percent_of s
       /\ input (step st Percent) = "")
      /\ (is_nan (parseFloat s) = true ->
          vars (step st Percent) = vars st
          /\ display (step st Percent) = display st))
  /\ (input st = "" -> stored st = None -> step st Percent = st)
  /\ display (run [Digit "2"; Digit "0"; Percent] cleared) = "0.2".
Proof.
  simpl. unfold pressPercent, percent_of, vars, Str.truthy.
  split; [|split; [|split; [|split]]].
  - repeat (split_bool; simpl); try reflexivity.
    destruct (stored st); [split_bool|]; reflexivity.
  - intros Hi. apply String.eqb_neq in Hi. rewrite Hi. simpl.
    split; intros ->; simpl; auto.
  - intros Hi s Hs. rewrite Hi, Hs. simpl.
    split; intros ->; simpl; rewrite ?Hi, ?Hs; auto.
  - intros Hi Hs. rewrite Hi, Hs. reflexivity.
  - vm_compute. reflexivity.
Qed.

Lemma percent_C8_witness :
  input (step twenty Percent) = percent_of "20"
  /\ percent_of "20" = "0.2".
Proof.
  set (st := twenty). split.
  - apply (proj1 (proj2 (percent_C8 st))).
    + discriminate.
    + reflexivity.
  - vm_compute. reflexivity.
Defined.

(** C8, as stated, fails: with ["-"] typed, [Percent] leaves the input
    as it is instead of dividing and formatting it. *)
Lemma percent_C8_counterexample :
  reachable lone_minus
  /\ input lone_minus = "-"
  /\ percent_of (input lone_minus) = "NaN"
  /\ input (step lone_minus Percent) = "-"
  /\ input (step lone_minus Percent) <> percent_of (input lone_minus).
Proof.
  split.
  - apply reachable_run. reflexivity.
  - vm_compute. repeat split; discriminate.
Qed.

(** C10: a [ToggleSign] event in a state with empty input and no stored
    operand sets the input to ["-0"] and shows it; a second one sets the
    input to ["0"]. *)
Theorem toggle_sign_cleared_C10 st :
  input st = "" -> stored st = None ->
  input (step st ToggleSign) = "-0"
  /\ display (step st ToggleSign) = "-0"
  /\ input (step (step st ToggleSign) ToggleSign) = "0"
  /\ display (step (step st ToggleSign) ToggleSign) = "0".
Proof.
  intros Hi Hs. simpl. unfold toggleSign at 1 2 4 6.
  rewrite Hi, Hs. simpl. repeat split; reflexivity.
Qed.

Lemma toggle_sign_cleared_C10_witness :
  input (step cleared ToggleSign) = "-0"
  /\ input (step (step cleared ToggleSign) ToggleSign) = "0".
Proof.
  destruct (toggle_sign_cleared_C10 cleared) as (H1 & _ & H2 & _);
    [reflexivity | reflexivity | split; assumption].
Defined.

(** ** Facts about strings *)

Arguments Ascii.eqb : simpl never.

Lemma append_nil_r (s : string) : s ++ "" = s.
Proof. induction s; simpl; congruence. Qed.

Lemma append_assoc (s t u : string) : (s ++ t) ++ u = s ++ (t ++ u).
Proof. induction s; simpl; congruence. Qed.

Lemma length_append (s t : string) :
  String.length (s ++ t) = (String.length s + String.length t)%nat.
Proof. induction s; simpl; congruence. Qed.

Lemma all_append p s t : Str.all p (s ++ t) = Str.all p s && Str.all p t.
Proof.
  induction s as [|a s IH]; simpl; [reflexivity|].
  rewrite IH. apply andb_assoc.
Qed.

Lemma count_append c s t :
  Str.count c (s ++ t) = (Str.count c s + Str.count c t)%nat.
Proof. induction s as [|a s IH]; simpl; [reflexivity|]. rewrite IH. lia. Qed.

Lemma includes_count c s : Str.includes c s = false -> Str.count c s = O.
Proof.
  induction s as [|a s IH]; simpl; [reflexivity|].
  destruct (Ascii.eqb a c); simpl; [discriminate | exact IH].
Qed.

Lemma count_includes c s : Str.count c s = O -> Str.includes c s = false.
Proof.
  induction s as [|a s IH]; simpl; [reflexivity|].
  destruct (Ascii.eqb a c); simpl; [discriminate | exact IH].
Qed.

Lemma all_count p c s :
  p c = false -> Str.all p s = true -> Str.count c s = O.
Proof.
  intros Hc. induction s as [|a s IH]; simpl; [reflexivity|].
  intros H. apply andb_prop in H as [Ha Hs].
  destruct (Ascii.eqb_spec a c) as [->|_]; [congruence | auto].
Qed.

Lemma all_impl (p q : ascii -> bool) s :
  (forall c, p c = true -> q c = true) ->
  Str.all p s = true -> Str.all q s = true.
Proof.
  intros Hpq. induction s as [|a s IH]; simpl; [reflexivity|].
  intros H. apply andb_prop in H as [Ha Hs]. rewrite (Hpq _ Ha). auto.
Qed.

Lemma count_slice_init c s :
  (Str.count c (Str.slice_init s) <= Str.count c s)%nat.
Proof.
  induction s as [|a s IH]; simpl; [lia|].
  destruct s as [|b s]; simpl in *; lia.
Qed.

Lemma all_slice_init p s :
  Str.all p s = true -> Str.all p (Str.slice_init s) = true.
Proof.
  induction s as [|a s IH]; simpl; [reflexivity|].
  intros H. apply andb_prop in H as [Ha Hs].
  destruct s as [|b s]; [reflexivity|].
  change (p a && Str.all p (Str.slice_init (String b s)) = true).
  rewrite Ha, IH; auto.
Qed.

Lemma count_zeros c n : c <> "0"%char -> Str.count c (Str.zeros n) = O.
Proof.
  intros Hc. induction n as [|n IH]; simpl; [reflexivity|].
  destruct (Ascii.eqb_spec "0"%char c); [congruence | exact IH].
Qed.

Lemma take_drop n s : Str.take n s ++ Str.drop n s = s.
Proof.
  revert s. induction n as [|n IH]; intros [|a s]; simpl; try reflexivity.
  rewrite IH. reflexivity.
Qed.

Lemma count_point_after n m :
  Str.count "." (point_after n m) = S (Str.count "." m).
Proof.
  unfold point_after. rewrite count_append. simpl.
  rewrite <- (take_drop n m) at 3. rewrite count_append. lia.
Qed.

(** ** Digits *)

Lemma digit_cases d :
  0 <= d < 10 ->
  d = 0 \/ d = 1 \/ d = 2 \/ d = 3 \/ d = 4 \/ d = 5 \/ d = 6 \/ d = 7
  \/ d = 8 \/ d = 9.
Proof. lia. Qed.

Lemma digit_char_is_digit d : 0 <= d < 10 -> is_digit (digit_char d) = true.
Proof.
  intros H. destruct (digit_cases d H) as [-> | [-> | [-> | [-> | [-> | [-> |
    [-> | [-> | [-> | ->]]]]]]]]]; reflexivity.
Qed.

Lemma digit_val_char d : 0 <= d < 10 -> digit_val (digit_char d) = d.
Proof.
  intros H. destruct (digit_cases d H) as [-> | [-> | [-> | [-> | [-> | [-> |
    [-> | [-> | [-> | ->]]]]]]]]]; reflexivity.
Qed.

Lemma all_digit_render_onto w : forall n acc,
  Str.all is_digit acc = true ->
  Str.all is_digit (Digits.render_onto w n acc) = true.
Proof.
  induction w as [|w IH]; intros n acc H; simpl; [exact H|].
  apply IH. simpl. rewrite H, digit_char_is_digit; [reflexivity|].
  apply Z.mod_pos_bound. lia.
Qed.

Lemma all_digit_render w n : Str.all is_digit (Digits.render w n) = true.
Proof. apply all_digit_render_onto. reflexivity. Qed.

Lemma all_digit_of_Z n : Str.all is_digit (Digits.of_Z n) = true.
Proof. apply all_digit_render. Qed.

Lemma all_digit_zeros n : Str.all is_digit (Str.zeros n) = true.
Proof. induction n; simpl; auto. Qed.

Lemma digits_no_dot s : Str.all is_digit s = true -> Str.count "." s = O.
Proof. apply all_count. reflexivity. Qed.

(** ** The output of [formatNumber] has at most one decimal point *)

Lemma count_exponent_suffix e : Str.count "." (exponent_suffix e) = O.
Proof.
  unfold exponent_suffix. rewrite !count_append.
  rewrite (digits_no_dot _ (all_digit_of_Z _)).
  destruct (e <? 0); reflexivity.
Qed.

Lemma count_sign_prefix s : Str.count "." (sign_prefix s) = O.
Proof. destruct s; reflexivity. Qed.

Lemma count_precision_layout p m e :
  Str.all is_digit m = true ->
  (Str.count "." (precision_layout p m e) <= 1)%nat.
Proof.
  intros Hm. pose proof (digits_no_dot m Hm) as H0.
  unfold precision_layout.
  repeat split_bool;
    rewrite ?count_append, ?count_point_after, ?count_exponent_suffix,
      ?count_zeros, ?H0 by discriminate; simpl; lia.
Qed.

Lemma count_to_string_layout s k n :
  (Str.count "." (to_string_layout s k n) <= 1)%nat.
Proof.
  pose proof (digits_no_dot _ (all_digit_render (Z.to_nat k) s)) as H0.
  unfold to_string_layout.
  repeat split_bool;
    rewrite ?count_append, ?count_point_after, ?count_exponent_suffix,
      ?count_zeros, ?H0 by discriminate; simpl; lia.
Qed.

Lemma count_to_string_special x :
  Str.count "." (to_string_special x) = O.
Proof. destruct x as [s|[|]| |s m e]; reflexivity. Qed.

Lemma count_toPrecision p x : (Str.count "." (toPrecision p x) <= 1)%nat.
Proof.
  destruct x as [s|s| |s m e]; unfold toPrecision;
    try (rewrite count_to_string_special; lia).
  - apply count_precision_layout, all_digit_zeros.
  - destruct (precision_digits _ _ _) as [n e10].
    rewrite count_append, count_sign_prefix.
    apply count_precision_layout, all_digit_render.
Qed.

Lemma count_toString x : (Str.count "." (toString x) <= 1)%nat.
Proof.
  destruct x as [s|s| |s m e]; try (destruct s; simpl; lia); try (simpl; lia).
  unfold toString.
  destruct (shortest_digits _ _ _ _ _ _) as [[d k] n].
  rewrite count_append, count_sign_prefix.
  apply count_to_string_layout.
Qed.

Lemma count_drop_trailing_zeros c s :
  (Str.count c (drop_trailing_zeros s) <= Str.count c s)%nat.
Proof.
  induction s as [|a s IH]; simpl; [lia|].
  destruct (_ && _); simpl; lia.
Qed.

Lemma count_replace_fraction_zeros c s :
  (Str.count c (replace_fraction_zeros s) <= Str.count c s)%nat.
Proof.
  induction s as [|a s IH]; simpl; [lia|].
  destruct (Ascii.eqb a "."); [unfold match_fraction_zeros|]; simpl.
  - split_bool; simpl; [|lia].
    pose proof (count_drop_trailing_zeros c s). lia.
  - lia.
Qed.

Lemma count_replace_dot_zeros c s :
  (Str.count c (replace_dot_zeros s) <= Str.count c s)%nat.
Proof.
  induction s as [|a s IH]; simpl; [lia|].
  split_bool; simpl; lia.
Qed.

Lemma count_formatNumber x : (Str.count "." (formatNumber x) <= 1)%nat.
Proof.
  unfold formatNumber.
  destruct (negb (is_finite x)); [rewrite count_to_string_special; lia|].
  assert (H : (Str.count "."
                 (if Str.includes "e" (toPrecision 12 x)
                  then toString x else toPrecision 12 x) <= 1)%nat).
  { destruct (Str.includes "e" _);
      [apply count_toString | apply count_toPrecision]. }
  unfold trim_fraction.
  destruct (Str.includes "." _); [|exact H].
  etransitivity; [apply count_replace_dot_zeros|].
  etransitivity; [apply count_replace_fraction_zeros|]. exact H.
Qed.

(** ** The digit-entry rule *)

Lemma setInputChar_dot st :
  setInputChar "." st
  = if Str.includes "." (input st) then st
    else
      let i := (if (input st =? "")%string then "0" else input st) ++ "." in
      mkState i (stored st) (operator st) i (status st).
Proof.
  unfold setInputChar. simpl.
  destruct (Str.includes "." (input st)); [reflexivity|].
  destruct (input st =? "")%string; simpl; [reflexivity|].
  rewrite andb_false_r. reflexivity.
Qed.

Lemma setInputChar_digit c st :
  c <> "."%char ->
  setInputChar (char c) st
  = let i := if (input st =? "0")%string then char c
             else input st ++ char c in
    mkState i (stored st) (operator st) i (status st).
Proof.
  intros Hc. unfold setInputChar.
  assert (H : (char c =? ".")%string = false).
  { apply String.eqb_neq. unfold char. congruence. }
  rewrite H. simpl. rewrite andb_true_r. reflexivity.
Qed.

Lemma digit_key_not_minus c : digit_key c = true -> c <> "-"%char.
Proof. intros H ->. discriminate. Qed.

Lemma unsigned_part_append s t :
  s <> "" -> unsigned_part (s ++ t) = unsigned_part s ++ t.
Proof.
  destruct s as [|a s]; [congruence|]. intros _.
  unfold unsigned_part. simpl. destruct (Ascii.eqb a "-"); reflexivity.
Qed.

Lemma unsigned_part_slice_init s :
  unsigned_part (Str.slice_init s) = Str.slice_init (unsigned_part s).
Proof.
  destruct s as [|a [|b s]]; unfold unsigned_part; simpl;
    try reflexivity; destruct (Ascii.eqb a "-"); reflexivity.
Qed.

Lemma count_unsigned_part c s :
  (Str.count c (unsigned_part s) <= Str.count c s)%nat.
Proof.
  unfold unsigned_part. destruct s as [|a s]; simpl; [lia|].
  destruct (Ascii.eqb a "-"); simpl; lia.
Qed.

Lemma valid_input_key c : digit_key c = true -> valid_input (char c) = true.
Proof.
  intros H. unfold valid_input, unsigned_part. simpl.
  destruct (Ascii.eqb_spec c "-") as [->|_]; [discriminate|].
  simpl. rewrite H. simpl. destruct (Ascii.eqb c "."); reflexivity.
Qed.

Lemma valid_input_append_key s c :
  s <> "" -> valid_input s = true -> digit_key c = true ->
  (c = "."%char -> Str.includes "." s = false) ->
  valid_input (s ++ char c) = true.
Proof.
  intros Hs Hv Hc Hdot. unfold valid_input in *.
  rewrite unsigned_part_append by assumption.
  apply andb_prop in Hv as [Ha Hn].
  rewrite all_append, count_append, Ha. simpl. rewrite Hc. simpl.
  apply Nat.leb_le. apply Nat.leb_le in Hn.
  destruct (Ascii.eqb_spec c ".") as [->|_]; [|lia].
  pose proof (includes_count _ _ (Hdot eq_refl)).
  pose proof (count_unsigned_part "." s). lia.
Qed.

Lemma valid_input_flip_sign s : valid_input s = true ->
  valid_input (flip_sign s) = true.
Proof.
  unfold flip_sign, valid_input, unsigned_part.
  destruct s as [|a s]; [reflexivity|]. simpl.
  destruct (Ascii.eqb_spec a "-") as [->|Ha]; simpl.
  - destruct s as [|b s]; [reflexivity|]. simpl.
    destruct (Ascii.eqb_spec b "-") as [->|Hb]; [discriminate|]. auto.
  - destruct (Ascii.eqb_spec a "-"); [contradiction|]. auto.
Qed.

Lemma valid_input_slice_init s : valid_input s = true ->
  valid_input (Str.slice_init s) = true.
Proof.
  unfold valid_input. rewrite unsigned_part_slice_init.
  intros H. apply andb_prop in H as [Ha Hn].
  rewrite all_slice_init by assumption. simpl.
  apply Nat.leb_le. apply Nat.leb_le in Hn.
  pose proof (count_slice_init "." (unsigned_part s)). lia.
Qed.

Lemma step_valid_input st ev :
  public ev = true -> not_percent ev = true ->
  valid_input (input st) = true -> valid_input (input (step st ev)) = true.
Proof.
  intros Hp Hn Hv. destruct ev; simpl in *; try discriminate.
  - destruct (Ascii.eqb_spec ch ".") as [->|Hc].
    + change (char ".") with ".". rewrite setInputChar_dot.
      destruct (Str.includes "." (input st)) eqn:Hi; [exact Hv|]. simpl.
      destruct (String.eqb_spec (input st) "") as [He|He]; [reflexivity|].
      apply valid_input_append_key; auto.
    + rewrite setInputChar_digit by assumption. simpl.
      destruct (input st =? "0")%string; [apply valid_input_key, Hp|].
      destruct (String.eqb_spec (input st) "") as [He|He].
      * rewrite He. apply valid_input_key, Hp.
      * apply valid_input_append_key; auto. congruence.
  - unfold toggleSign. destruct (negb (Str.truthy (input st))).
    + destruct (stored st); [exact Hv | reflexivity].
    + apply valid_input_flip_sign, Hv.
  - unfold pressOperator.
    destruct (stored st); destruct (Str.truthy (input st)); simpl; auto.
    destruct (computeLocal _ _ _); reflexivity.
  - unfold pressEquals, refresh.
    destruct (negb (truthy (operator st))).
    + destruct (Str.truthy (input st)); [exact Hv|].
      destruct (stored st) as [s|]; [|exact Hv].
      destruct (Str.truthy s); exact Hv.
    + simpl. destruct (computeLocal _ _ _); reflexivity.
  - reflexivity.
  - unfold pressBackspace. destruct (Str.truthy (input st)); simpl; auto.
    apply valid_input_slice_init, Hv.
Qed.

Lemma count_flip_sign s :
  (Str.count "." (flip_sign s) <= Str.count "." s)%nat.
Proof.
  unfold flip_sign. destruct s as [|a s]; simpl; [lia|].
  destruct (Ascii.eqb a "-"); simpl;
    destruct (Ascii.eqb a "."); simpl; lia.
Qed.

Lemma step_one_dot st ev :
  public ev = true ->
  (Str.count "." (input st) <= 1)%nat ->
  (Str.count "." (input (step st ev)) <= 1)%nat.
Proof.
  intros Hp Hv. destruct ev; simpl in *.
  - destruct (Ascii.eqb_spec ch ".") as [->|Hc].
    + change (char ".") with ".". rewrite setInputChar_dot.
      destruct (Str.includes "." (input st)) eqn:Hi; [exact Hv|]. simpl.
      rewrite count_append. simpl.
      destruct (input st =? "")%string; simpl; [lia|].
      rewrite (includes_count _ _ Hi). lia.
    + rewrite setInputChar_digit by assumption. simpl.
      destruct (input st =? "0")%string; simpl.
      * destruct (Ascii.eqb ch "."); simpl; lia.
      * rewrite count_append. simpl.
        destruct (Ascii.eqb_spec ch "."); [contradiction | lia].
  - unfold toggleSign. destruct (negb (Str.truthy (input st))).
    + destruct (stored st); simpl; [exact Hv | lia].
    + simpl. pose proof (count_flip_sign (input st)). lia.
  - unfold pressPercent.
    destruct (Str.truthy (input st)).
    + destruct (is_nan _); simpl; [exact Hv | apply count_formatNumber].
    + destruct (stored st); [destruct (is_nan _)|]; exact Hv.
  - unfold pressOperator.
    destruct (stored st); destruct (Str.truthy (input st)); simpl; auto.
    destruct (computeLocal _ _ _); simpl; lia.
  - unfold pressEquals, refresh.
    destruct (negb (truthy (operator st))).
    + destruct (Str.truthy (input st)); [exact Hv|].
      destruct (stored st) as [s|]; [|exact Hv].
      destruct (Str.truthy s); exact Hv.
    + simpl. destruct (computeLocal _ _ _); simpl; lia.
  - simpl. lia.
  - unfold pressBackspace. destruct (Str.truthy (input st)); simpl; auto.
    pose proof (count_slice_init "." (input st)). lia.
Qed.

Lemma run_cons ev evs st : run (ev :: evs) st = run evs (step st ev).
Proof. reflexivity. Qed.

Lemma typed_cons c r : typed (String c r) = Digit c :: typed r.
Proof. reflexivity. Qed.

Lemma append_key_not_zero s c : s <> "" -> s ++ char c <> "0".
Proof.
  intros Hs H. apply (f_equal String.length) in H.
  rewrite length_append in H. destruct s; [congruence|]. simpl in H. lia.
Qed.

Lemma append_key_not_empty s c : s ++ char c <> "".
Proof. destruct s; discriminate. Qed.

Lemma step_digit_display st c :
  display st = input st ->
  display (step st (Digit c)) = input (step st (Digit c)).
Proof.
  intros H. simpl. unfold setInputChar.
  destruct (_ && _); [exact H | reflexivity].
Qed.

Lemma run_typed_display r : forall st,
  display st = input st ->
  display (run (typed r) st) = input (run (typed r) st).
Proof.
  induction r as [|c r IH]; intros st H; [exact H|].
  rewrite typed_cons, run_cons. apply IH, step_digit_display, H.
Qed.

(** Once the input is neither empty nor ["0"], keys append. *)
Lemma run_typed_append r : forall st,
  input st <> "" -> input st <> "0" ->
  Str.all digit_key r = true ->
  (Str.count "." (input st) + Str.count "." r <= 1)%nat ->
  input (run (typed r) st) = input st ++ r.
Proof.
  induction r as [|c r IH]; intros st He Hz Hk Hn.
  - simpl. symmetry. apply append_nil_r.
  - rewrite typed_cons, run_cons. simpl in Hk, Hn.
    apply andb_prop in Hk as [Hc Hr].
    assert (Hi : input (step st (Digit c)) = input st ++ char c).
    { simpl. destruct (Ascii.eqb_spec c ".") as [->|Hd].
      - change (char ".") with ".". rewrite setInputChar_dot.
        rewrite count_includes by lia. simpl.
        apply String.eqb_neq in He. rewrite He. reflexivity.
      - rewrite setInputChar_digit by assumption. simpl.
        apply String.eqb_neq in Hz. rewrite Hz. reflexivity. }
    rewrite IH; rewrite ?Hi.
    + rewrite append_assoc. reflexivity.
    + apply append_key_not_empty.
    + apply append_key_not_zero, He.
    + exact Hr.
    + rewrite count_append. simpl. lia.
Qed.

(** From the input ["0"], zeros are absorbed until another key comes. *)
Lemma run_typed_zero r : forall st,
  input st = "0" ->
  Str.all digit_key r = true -> (Str.count "." r <= 1)%nat ->
  input (run (typed r) st) = collapse (String "0" r).
Proof.
  induction r as [|c r IH]; intros st Hz Hk Hn; [exact Hz|].
  rewrite typed_cons, run_cons. simpl in Hk, Hn.
  apply andb_prop in Hk as [Hc Hr].
  destruct (Ascii.eqb_spec c ".") as [->|Hd].
  - assert (Hi : input (step st (Digit ".")) = "0.").
    { simpl. change (char ".") with ".". rewrite setInputChar_dot, Hz.
      reflexivity. }
    rewrite run_typed_append; rewrite ?Hi; try discriminate; auto.
  - assert (Hi : input (step st (Digit c)) = char c).
    { simpl. rewrite setInputChar_digit, Hz by assumption. reflexivity. }
    assert (Hdig : is_digit c = true).
    { unfold digit_key in Hc. apply orb_prop in Hc as [H|H]; [exact H|].
      apply Ascii.eqb_eq in H. contradiction. }
    change (collapse (String "0" (String c r)))
      with (if is_digit c then collapse (String c r)
            else String "0" (String c r)).
    rewrite Hdig.
    destruct (Ascii.eqb_spec c "0") as [->|H0].
    + apply IH; auto;
        destruct (Ascii.eqb "0" "."); simpl in Hn; lia.
    + rewrite run_typed_append; rewrite ?Hi; auto;
        try discriminate; try (unfold char; congruence);
        simpl in *; destruct (Ascii.eqb_spec c "0"); try contradiction;
        destruct (Ascii.eqb_spec c "."); try contradiction;
        try reflexivity; lia.
Qed.

(** C6: a ['.'] is ignored when the input already has one (the state is
    unchanged); a ['.'] on the empty input gives ["0."]; on the input
    ["0"] any other character replaces it; in every other case the
    character is appended; hence a sequence of digit keys with at most
    one ['.'], typed from the cleared state, is displayed with its
    leading zeros collapsed. *)
Theorem digit_entry_C6 :
  (forall st, Str.includes "." (input st) = true ->
     setInputChar "." st = st)
  /\ (forall st, input st = "" ->
        input (setInputChar "." st) = "0."
        /\ display (setInputChar "." st) = "0.")
  /\ (forall st c, c <> "."%char -> input st = "0" ->
        input (setInputChar (char c) st) = char c
        /\ display (setInputChar (char c) st) = char c)
  /\ (forall st c, c <> "."%char -> input st <> "0" ->
        input (setInputChar (char c) st) = input st ++ char c
        /\ display (setInputChar (char c) st) = input st ++ char c)
  /\ (forall st, Str.includes "." (input st) = false -> input st <> "" ->
        input (setInputChar "." st) = input st ++ "."
        /\ display (setInputChar "." st) = input st ++ ".")
  /\ (forall s, s <> "" ->
        Str.all digit_key s = true -> (Str.count "." s <= 1)%nat ->
        input (run (typed s) cleared) = collapse s
        /\ display (run (typed s) cleared) = collapse s).
Proof.
  repeat apply conj.
  - intros st H. rewrite setInputChar_dot, H. reflexivity.
  - intros st H. rewrite setInputChar_dot, H. simpl. auto.
  - intros st c Hc H. rewrite setInputChar_digit, H by assumption.
    simpl. auto.
  - intros st c Hc H. rewrite setInputChar_digit by assumption.
    apply String.eqb_neq in H. rewrite H. simpl. auto.
  - intros st Hi He. rewrite setInputChar_dot, Hi.
    apply String.eqb_neq in He. rewrite He. simpl. auto.
  - intros [|c r] Hs Hk Hn; [congruence|].
    assert (Hin : input (run (typed (String c r)) cleared)
                  = collapse (String c r)).
    { rewrite typed_cons, run_cons. simpl in Hk, Hn.
      apply andb_prop in Hk as [Hc Hr].
      destruct (Ascii.eqb_spec c ".") as [->|Hd].
      - rewrite run_typed_append; try discriminate; auto;
          simpl in *; lia.
      - assert (Hi : input (step cleared (Digit c)) = char c).
        { simpl. rewrite setInputChar_digit by assumption. reflexivity. }
        destruct (Ascii.eqb_spec c "0") as [->|H0].
        + apply run_typed_zero; auto;
            destruct (Ascii.eqb "0" "."); simpl in Hn; lia.
        + rewrite run_typed_append; rewrite ?Hi; auto;
            try discriminate; try (unfold char; congruence);
            simpl in *; destruct (Ascii.eqb_spec c "0"); try contradiction;
            destruct (Ascii.eqb_spec c "."); try contradiction;
            try reflexivity; lia. }
    split; [exact Hin|]. rewrite <- Hin.
    rewrite typed_cons, run_cons. apply run_typed_display.
    simpl. unfold setInputChar. simpl. rewrite andb_false_r. reflexivity.
Qed.

Lemma digit_entry_C6_witness :
  display (run (typed "007.50") cleared) = "7.50"
  /\ setInputChar "." (mkState "1.5" None None "1.5" "") 
     = mkState "1.5" None None "1.5" "".
Proof.
  split.
  - apply (proj2 (proj2 (proj2 (proj2 (proj2 digit_entry_C6)))) "007.50");
      [discriminate | reflexivity | simpl; lia].
  - apply (proj1 digit_entry_C6). reflexivity.
Defined.

(** ** Integer logarithms and roundings *)

Lemma log10_loop_spec fuel : forall n,
  0 < n < 10 ^ (Z.of_nat fuel + 1) ->
  0 <= Digits.log10_loop fuel n
  /\ 10 ^ Digits.log10_loop fuel n <= n < 10 ^ (Digits.log10_loop fuel n + 1).
Proof.
  induction fuel as [|fuel IH]; intros n Hn.
  - simpl in *. lia.
  - cbn [Digits.log10_loop]. destruct (Z.ltb_spec n 10) as [H|H].
    + simpl. lia.
    + assert (Hq : 0 < n / 10 < 10 ^ (Z.of_nat fuel + 1)).
      { split.
        - apply Z.div_str_pos. lia.
        - apply Z.div_lt_upper_bound; [lia|].
          replace (Z.of_nat (S fuel) + 1)
            with (Z.succ (Z.of_nat fuel + 1)) in Hn by lia.
          rewrite Z.pow_succ_r in Hn by lia. lia. }
      destruct (IH _ Hq) as (H0 & Hlo & Hhi).
      set (l := Digits.log10_loop fuel (n / 10)) in *.
      split; [lia|].
      replace (1 + l) with (Z.succ l) by lia.
      replace (Z.succ l + 1) with (Z.succ (l + 1)) by lia.
      rewrite !Z.pow_succ_r by lia.
      pose proof (Z.div_mod n 10 ltac:(lia)).
      pose proof (Z.mod_pos_bound n 10 ltac:(lia)). lia.
Qed.

Lemma log10_spec n :
  0 < n ->
  0 <= Digits.log10 n
  /\ 10 ^ Digits.log10 n <= n < 10 ^ (Digits.log10 n + 1).
Proof.
  intros Hn. unfold Digits.log10. apply log10_loop_spec.
  split; [exact Hn|].
  rewrite Z2Nat.id by apply Z.log2_nonneg.
  pose proof (Z.log2_spec n Hn) as [_ H].
  assert (2 ^ Z.succ (Z.log2 n) <= 10 ^ (Z.log2 n + 1)).
  { replace (Z.succ (Z.log2 n)) with (Z.log2 n + 1) by lia.
    apply Z.pow_le_mono_l. lia. }
  lia.
Qed.

Lemma rne_bounds n d :
  0 < d -> 2 * n - d <= 2 * (rne n d * d) <= 2 * n + d.
Proof.
  intros Hd. unfold rne.
  pose proof (Z.div_mod n d ltac:(lia)) as E.
  pose proof (Z.mod_pos_bound n d Hd) as B.
  destruct (Z.compare_spec (2 * (n mod d)) d) as [H|H|H];
    [destruct (Z.even (n / d))| |]; nia.
Qed.

Lemma rne_unique n d M :
  0 < d -> 2 * Z.abs (M * d - n) < d -> rne n d = M.
Proof.
  intros Hd H. unfold rne.
  pose proof (Z.div_mod n d ltac:(lia)) as E.
  pose proof (Z.mod_pos_bound n d Hd) as B.
  assert (Hq : n / d = M \/ n / d = M - 1) by nia.
  destruct (Z.compare_spec (2 * (n mod d)) d) as [Hc|Hc|Hc];
    [destruct (Z.even (n / d))| |]; nia.
Qed.

Lemma rne_scale c n d : 0 < c -> 0 < d -> rne (c * n) (c * d) = rne n d.
Proof.
  intros Hc Hd. unfold rne.
  rewrite Z.div_mul_cancel_l by lia.
  rewrite Z.mul_mod_distr_l by lia.
  replace (2 * (c * (n mod d))) with (c * (2 * (n mod d))) by ring.
  rewrite <- Zmult_compare_compat_l by lia. reflexivity.
Qed.

Lemma rhu_bounds n d :
  0 < d -> 2 * (rhu n d * d) <= 2 * n + d < 2 * ((rhu n d + 1) * d).
Proof.
  intros Hd. unfold rhu.
  pose proof (Z.div_mod (2 * n + d) (2 * d) ltac:(lia)) as E.
  pose proof (Z.mod_pos_bound (2 * n + d) (2 * d) ltac:(lia)) as B.
  nia.
Qed.

Lemma rhu_unique n d k :
  0 < d -> 2 * (k * d) <= 2 * n + d < 2 * ((k + 1) * d) -> rhu n d = k.
Proof.
  intros Hd H. unfold rhu. symmetry.
  apply Z.div_unique with (r := 2 * n + d - 2 * d * k); lia.
Qed.

(** ** Rational values *)

Local Open Scope Q_scope.


Lemma inject_Z_pos n : (0 < n)%Z -> 0 < inject_Z n.
Proof. intros H. rewrite Zlt_Qlt in H. exact H. Qed.

Lemma pw_pos b e : (0 < b)%Z -> 0 < pw b e.
Proof. intros H. apply Qpower_0_lt, inject_Z_pos, H. Qed.

Lemma pw_add b e f : (0 < b)%Z -> pw b (e + f) == pw b e * pw b f.
Proof.
  intros H. unfold pw. apply Qpower_plus.
  pose proof (inject_Z_pos b H). lra.
Qed.

Lemma pw_nonneg_exp b e : (0 <= e)%Z -> pw b e == inject_Z (b ^ e).
Proof. intros H. unfold pw. symmetry. apply Zpower_Qpower, H. Qed.

Lemma pw_lt b e f : (1 < b)%Z -> (e < f)%Z -> pw b e < pw b f.
Proof.
  intros Hb H. apply Qpower_lt_compat_l; [exact H|].
  rewrite Zlt_Qlt in Hb. exact Hb.
Qed.

Lemma pw_le b e f : (1 < b)%Z -> (e <= f)%Z -> pw b e <= pw b f.
Proof.
  intros Hb H. apply Qpower_le_compat_l; [exact H|].
  rewrite Zlt_Qlt in Hb. apply Qlt_le_weak. exact Hb.
Qed.

Lemma pw_lt_inv b e f : (1 < b)%Z -> pw b e < pw b f -> (e < f)%Z.
Proof.
  intros Hb H. apply Qpower_lt_compat_l_inv with (q := inject_Z b);
    [exact H|]. rewrite Zlt_Qlt in Hb. exact Hb.
Qed.

Lemma up_pos b e : (0 < b)%Z -> (0 < up b e)%Z.
Proof. intros H. apply Z.pow_pos_nonneg; lia. Qed.

Lemma dn_pos b e : (0 < b)%Z -> (0 < dn b e)%Z.
Proof. intros H. apply Z.pow_pos_nonneg; lia. Qed.

Lemma up_dn b e :
  (0 < b)%Z -> inject_Z (up b e) == pw b e * inject_Z (dn b e).
Proof.
  intros Hb. unfold up, dn.
  destruct (Z.le_ge_cases 0 e) as [H|H].
  - rewrite Z.max_r by lia. rewrite Z.max_l by lia.
    rewrite pw_nonneg_exp by lia. rewrite Z.pow_0_r.
    change (inject_Z 1) with 1. lra.
  - rewrite Z.max_l by lia. rewrite Z.max_r by lia.
    rewrite <- (pw_nonneg_exp b (- e)) by lia. rewrite Z.pow_0_r.
    rewrite <- pw_add by lia. replace (e + - e)%Z with 0%Z by lia.
    reflexivity.
Qed.

Lemma rat_pos N D : (0 < N)%Z -> (0 < D)%Z -> 0 < rat N D.
Proof.
  intros HN HD. unfold rat. apply Qlt_shift_div_l.
  - apply inject_Z_pos, HD.
  - rewrite Qmult_0_l. apply inject_Z_pos, HN.
Qed.

(** [N * dn b e / (D * up b e)] is [N / D] divided by [b ^ e]. *)
Lemma rat_scale b N D e :
  (0 < b)%Z -> (0 < D)%Z ->
  rat (N * dn b e) (D * up b e) == rat N D / pw b e.
Proof.
  intros Hb HD. unfold rat. rewrite !inject_Z_mult, up_dn by assumption.
  pose proof (pw_pos b e Hb). pose proof (inject_Z_pos _ (dn_pos b e Hb)).
  pose proof (inject_Z_pos D HD).
  field. repeat split; lra.
Qed.

Lemma rat_lt_iff N D q : (0 < D)%Z ->
  (rat N D < q <-> inject_Z N < q * inject_Z D).
Proof.
  intros HD. pose proof (inject_Z_pos D HD) as H. unfold rat. split; intros L.
  - apply (Qmult_lt_r _ _ (inject_Z D)) in L; [|exact H].
    setoid_replace (inject_Z N / inject_Z D * inject_Z D) with (inject_Z N)
      in L by (field; lra). exact L.
  - apply Qlt_shift_div_r; assumption.
Qed.

Lemma rat_le_iff N D q : (0 < D)%Z ->
  (q <= rat N D <-> q * inject_Z D <= inject_Z N).
Proof.
  intros HD. pose proof (inject_Z_pos D HD) as H. unfold rat. split; intros L.
  - apply (Qmult_le_r _ _ (inject_Z D)) in L; [|exact H].
    setoid_replace (inject_Z N / inject_Z D * inject_Z D) with (inject_Z N)
      in L by (field; lra). exact L.
  - apply Qle_shift_div_l; assumption.
Qed.

(** The test made by [ilog]. *)
Lemma scaled_lt_iff b N D e :
  (0 < b)%Z -> (0 < D)%Z ->
  ((N * dn b e < D * up b e)%Z <-> rat N D < pw b e).
Proof.
  intros Hb HD. rewrite rat_lt_iff by assumption.
  rewrite Zlt_Qlt, !inject_Z_mult, up_dn by assumption.
  pose proof (inject_Z_pos _ (dn_pos b e Hb)) as Hd.
  split; intros H.
  - apply (Qmult_lt_r _ _ (inject_Z (dn b e))); [exact Hd|]. lra.
  - apply (Qmult_lt_r _ _ (inject_Z (dn b e))) in H; [|exact Hd]. lra.
Qed.

Lemma pw_1 b : pw b 1 == inject_Z b.
Proof. unfold pw. apply Qpower_1_r. Qed.

Lemma pw_succ b e : (0 < b)%Z -> pw b (e + 1) == pw b e * inject_Z b.
Proof. intros H. rewrite pw_add, pw_1 by assumption. reflexivity. Qed.

Lemma pw_pred b e : (0 < b)%Z -> pw b (e - 1) * inject_Z b == pw b e.
Proof.
  intros H. rewrite <- pw_succ by assumption.
  replace (e - 1 + 1)%Z with e by lia. reflexivity.
Qed.

Lemma Zpow_pw_bounds b l n :
  (0 <= l)%Z -> (b ^ l <= n < b ^ (l + 1))%Z ->
  pw b l <= inject_Z n < pw b (l + 1).
Proof.
  intros Hl [H1 H2]. rewrite !pw_nonneg_exp by lia.
  rewrite <- Zle_Qle, <- Zlt_Qlt. auto.
Qed.

Lemma ilog_spec b lg N D :
  (1 < b)%Z ->
  (forall n, (0 < n)%Z ->
     (0 <= lg n)%Z /\ (b ^ lg n <= n < b ^ (lg n + 1))%Z) ->
  (0 < N)%Z -> (0 < D)%Z ->
  pw b (ilog b lg N D) <= rat N D < pw b (ilog b lg N D + 1).
Proof.
  intros Hb Hlg HN HD.
  destruct (Hlg N HN) as [HN0 HNb]. destruct (Hlg D HD) as [HD0 HDb].
  apply Zpow_pw_bounds in HNb; [|exact HN0].
  apply Zpow_pw_bounds in HDb; [|exact HD0].
  unfold ilog. set (e := (lg N - lg D)%Z).
  assert (Hb0 : (0 < b)%Z) by lia.
  pose proof (pw_add b e (lg D) Hb0) as Ha.
  replace (e + lg D)%Z with (lg N) in Ha by (unfold e; lia).
  rewrite !pw_succ in * by assumption.
  pose proof (pw_pos b e Hb0) as Hp. pose proof (pw_pos b (lg D) Hb0) as Hc.
  pose proof (inject_Z_pos b Hb0) as HbQ.
  pose proof (inject_Z_pos D HD) as HDQ.
  destruct (Z.ltb_spec (N * dn b e) (D * up b e)) as [Ht|Ht].
  - apply scaled_lt_iff in Ht; try assumption.
    pose proof (pw_pred b e Hb0) as Hq.
    pose proof (pw_pos b (e - 1) Hb0) as Hq0.
    split; [|rewrite Hq; exact Ht].
    apply rat_le_iff; [assumption|].
    set (p := pw b e) in *. set (q := pw b (e - 1)) in *.
    set (c := pw b (lg D)) in *. set (a := pw b (lg N)) in *.
    set (x := inject_Z N) in *. set (y := inject_Z D) in *.
    set (B := inject_Z b) in *.
    assert (q * y < q * (c * B)) by (apply Qmult_lt_l; lra).
    assert (q * (c * B) == a) by (rewrite Ha, <- Hq; ring).
    lra.
  - assert (Ht' : ~ rat N D < pw b e).
    { intros H. apply scaled_lt_iff in H; try assumption. lia. }
    apply Qnot_lt_le in Ht'. split; [exact Ht'|].
    apply rat_lt_iff; [assumption|].
    set (p := pw b e) in *.
    set (c := pw b (lg D)) in *. set (a := pw b (lg N)) in *.
    set (x := inject_Z N) in *. set (y := inject_Z D) in *.
    set (B := inject_Z b) in *.
    assert (p * B * c <= p * B * y).
    { apply Qmult_le_l; [|lra]. apply Qmult_lt_0_compat; lra. }
    assert (p * B * c == a * B) by (rewrite Ha; ring).
    lra.
Qed.

Lemma log2_lg n :
  (0 < n)%Z ->
  (0 <= Z.log2 n)%Z /\ (2 ^ Z.log2 n <= n < 2 ^ (Z.log2 n + 1))%Z.
Proof.
  intros H. split; [apply Z.log2_nonneg|]. apply Z.log2_spec, H.
Qed.

Lemma ilog2_spec N D :
  (0 < N)%Z -> (0 < D)%Z ->
  pw 2 (ilog2 N D) <= rat N D < pw 2 (ilog2 N D + 1).
Proof. apply ilog_spec; [lia | apply log2_lg]. Qed.

Lemma ilog10_spec N D :
  (0 < N)%Z -> (0 < D)%Z ->
  pw 10 (ilog10 N D) <= rat N D < pw 10 (ilog10 N D + 1).
Proof. apply ilog_spec; [lia | apply log10_spec]. Qed.

(** The exponent of a binade or decade is determined by any of its
    values. *)
Lemma pw_unique b q e f :
  (1 < b)%Z ->
  pw b e <= q < pw b (e + 1) -> pw b f <= q < pw b (f + 1) -> e = f.
Proof.
  intros Hb [H1 H2] [H3 H4].
  assert (pw b e < pw b (f + 1)) by lra.
  assert (pw b f < pw b (e + 1)) by lra.
  apply pw_lt_inv in H; [|assumption].
  apply pw_lt_inv in H0; [|assumption]. lia.
Qed.

Lemma ilog2_unique N D e :
  (0 < N)%Z -> (0 < D)%Z ->
  pw 2 e <= rat N D < pw 2 (e + 1) -> ilog2 N D = e.
Proof.
  intros HN HD H. apply (pw_unique 2 (rat N D)); [lia | | exact H].
  apply ilog2_spec; assumption.
Qed.

Lemma ilog10_unique N D e :
  (0 < N)%Z -> (0 < D)%Z ->
  pw 10 e <= rat N D < pw 10 (e + 1) -> ilog10 N D = e.
Proof.
  intros HN HD H. apply (pw_unique 10 (rat N D)); [lia | | exact H].
  apply ilog10_spec; assumption.
Qed.

(** ** [of_rat] depends on the value of the fraction only *)

Lemma rat_cancel c N D :
  (0 < c)%Z -> (0 < D)%Z -> rat (c * N) (c * D) == rat N D.
Proof.
  intros Hc HD. unfold rat. rewrite !inject_Z_mult.
  pose proof (inject_Z_pos c Hc). pose proof (inject_Z_pos D HD).
  field. split; lra.
Qed.

Lemma ilog2_scale c N D :
  (0 < c)%Z -> (0 < N)%Z -> (0 < D)%Z -> ilog2 (c * N) (c * D) = ilog2 N D.
Proof.
  intros Hc HN HD. apply ilog2_unique; try lia.
  rewrite rat_cancel by assumption. apply ilog2_spec; assumption.
Qed.

Lemma of_rat_scale sg c N D :
  (0 < c)%Z -> (0 < N)%Z -> (0 < D)%Z ->
  of_rat sg (c * N) (c * D) = of_rat sg N D.
Proof.
  intros Hc HN HD. unfold of_rat.
  rewrite ilog2_scale by assumption.
  set (e := Z.max (ilog2 N D - 52) (-1074)).
  replace (c * N * dn 2 e)%Z with (c * (N * dn 2 e))%Z by ring.
  replace (c * D * up 2 e)%Z with (c * (D * up 2 e))%Z by ring.
  rewrite rne_scale; [reflexivity | assumption |].
  pose proof (up_pos 2 e ltac:(lia)). nia.
Qed.

Lemma of_rat_cross sg N1 D1 N2 D2 :
  (0 < N1)%Z -> (0 < D1)%Z -> (0 < N2)%Z -> (0 < D2)%Z ->
  (N1 * D2 = N2 * D1)%Z -> of_rat sg N1 D1 = of_rat sg N2 D2.
Proof.
  intros H1 H2 H3 H4 E.
  rewrite <- (of_rat_scale sg D2 N1 D1) by assumption.
  rewrite <- (of_rat_scale sg D1 N2 D2) by assumption.
  f_equal; lia.
Qed.

Lemma rat_eq_cross N1 D1 N2 D2 :
  (0 < D1)%Z -> (0 < D2)%Z ->
  rat N1 D1 == rat N2 D2 -> (N1 * D2 = N2 * D1)%Z.
Proof.
  intros H1 H2 E. apply inject_Z_injective. rewrite !inject_Z_mult.
  pose proof (inject_Z_pos D1 H1). pose proof (inject_Z_pos D2 H2).
  unfold rat in E.
  assert (inject_Z N1 == inject_Z N2 / inject_Z D2 * inject_Z D1).
  { rewrite <- E. field. lra. }
  rewrite H3. field. lra.
Qed.

Lemma of_rat_ext sg N1 D1 N2 D2 :
  (0 < N1)%Z -> (0 < D1)%Z -> (0 < N2)%Z -> (0 < D2)%Z ->
  rat N1 D1 == rat N2 D2 -> of_rat sg N1 D1 = of_rat sg N2 D2.
Proof.
  intros H1 H2 H3 H4 E. apply of_rat_cross; try assumption.
  apply rat_eq_cross; assumption.
Qed.

Lemma rat_decimal a sc : rat (a * up 10 sc) (dn 10 sc) == dec a sc.
Proof.
  unfold rat, dec. rewrite inject_Z_mult, up_dn by lia.
  pose proof (inject_Z_pos _ (dn_pos 10 sc ltac:(lia))).
  field. lra.
Qed.

Lemma of_decimal_ext sg a1 sc1 a2 sc2 :
  (0 <= a1)%Z -> (0 <= a2)%Z ->
  dec a1 sc1 == dec a2 sc2 -> of_decimal sg a1 sc1 = of_decimal sg a2 sc2.
Proof.
  intros H1 H2 E. unfold of_decimal.
  pose proof (pw_pos 10 sc1 ltac:(lia)) as P1.
  pose proof (pw_pos 10 sc2 ltac:(lia)) as P2.
  unfold dec in E.
  destruct (Z.eqb_spec a1 0) as [->|N1]; destruct (Z.eqb_spec a2 0) as [->|N2].
  - reflexivity.
  - exfalso. assert (0 < inject_Z a2) by (apply inject_Z_pos; lia).
    change (inject_Z 0) with 0 in E. nra.
  - exfalso. assert (0 < inject_Z a1) by (apply inject_Z_pos; lia).
    change (inject_Z 0) with 0 in E. nra.
  - pose proof (up_pos 10 sc1 ltac:(lia)).
    pose proof (up_pos 10 sc2 ltac:(lia)).
    apply of_rat_ext; try (apply dn_pos; lia); try nia.
    rewrite !rat_decimal. exact E.
Qed.

Lemma dec_shift a j sc :
  (0 <= j)%Z -> dec (a * 10 ^ j) (sc - j) == dec a sc.
Proof.
  intros Hj. unfold dec. rewrite inject_Z_mult, <- pw_nonneg_exp by lia.
  rewrite <- Qmult_assoc, <- pw_add by lia.
  replace (j + (sc - j))%Z with sc by lia. reflexivity.
Qed.

Lemma of_decimal_shift sg a j sc :
  (0 <= a)%Z -> (0 <= j)%Z ->
  of_decimal sg (a * 10 ^ j) (sc - j) = of_decimal sg a sc.
Proof.
  intros Ha Hj. apply of_decimal_ext; [|assumption|apply dec_shift, Hj].
  pose proof (Z.pow_nonneg 10 j ltac:(lia)). nia.
Qed.

(** ** Roundings, in terms of the value rounded *)

Lemma Z_of_Q_lt a b : inject_Z a < inject_Z b -> (a < b)%Z.
Proof. intros H. rewrite Zlt_Qlt. exact H. Qed.

Lemma Z_of_Q_le a b : inject_Z a <= inject_Z b -> (a <= b)%Z.
Proof. intros H. rewrite Zle_Qle. exact H. Qed.

Lemma inject_Z_abs_lt a b :
  - inject_Z b < inject_Z a < inject_Z b -> (Z.abs a < b)%Z.
Proof.
  intros [H1 H2]. rewrite <- inject_Z_opp in H1.
  apply Z_of_Q_lt in H1, H2. lia.
Qed.

Ltac push_inj :=
  unfold Z.sub in *;
  repeat (rewrite inject_Z_plus in * || rewrite inject_Z_mult in *
          || rewrite inject_Z_opp in *);
  change (inject_Z 0) with 0 in *; change (inject_Z 1) with 1 in *;
  change (inject_Z 2) with 2 in *.

Lemma rne_value n d M :
  (0 < d)%Z ->
  inject_Z M - (1 # 2) < rat n d < inject_Z M + (1 # 2) ->
  rne n d = M.
Proof.
  intros Hd [H1 H2]. apply rne_unique; [exact Hd|].
  pose proof (inject_Z_pos d Hd) as HdQ.
  apply rat_lt_iff in H2; [|exact Hd].
  assert (H1' : (inject_Z M - (1 # 2)) * inject_Z d < inject_Z n).
  { unfold rat in H1.
    apply (Qmult_lt_r _ _ (inject_Z d)) in H1; [|exact HdQ].
    setoid_replace (inject_Z n / inject_Z d * inject_Z d) with (inject_Z n)
      in H1 by (field; lra). exact H1. }
  assert (E : (2 * Z.abs (M * d - n) < d)%Z <-> (Z.abs (2 * (M * d - n)) < d)%Z)
    by lia.
  apply E. apply inject_Z_abs_lt. push_inj.
  change (inject_Z 2) with 2. lra.
Qed.

Lemma rne_error n d :
  (0 < d)%Z ->
  inject_Z (rne n d) - (1 # 2) <= rat n d <= inject_Z (rne n d) + (1 # 2).
Proof.
  intros Hd. pose proof (rne_bounds n d Hd) as [H1 H2].
  pose proof (inject_Z_pos d Hd) as HdQ.
  rewrite Zle_Qle in H1, H2. push_inj.
  split.
  - apply rat_le_iff; [exact Hd|]. lra.
  - unfold rat. apply Qle_shift_div_r; [exact HdQ|]. lra.
Qed.

Lemma rhu_value n d k :
  (0 < d)%Z ->
  inject_Z k - (1 # 2) <= rat n d < inject_Z k + (1 # 2) ->
  rhu n d = k.
Proof.
  intros Hd [H1 H2]. apply rhu_unique; [exact Hd|].
  pose proof (inject_Z_pos d Hd) as HdQ.
  apply rat_lt_iff in H2; [|exact Hd]. apply rat_le_iff in H1; [|exact Hd].
  split; [apply Z_of_Q_le | apply Z_of_Q_lt]; push_inj; lra.
Qed.

Lemma rhu_error n d :
  (0 < d)%Z ->
  inject_Z (rhu n d) - (1 # 2) <= rat n d < inject_Z (rhu n d) + (1 # 2).
Proof.
  intros Hd. pose proof (rhu_bounds n d Hd) as [H1 H2].
  pose proof (inject_Z_pos d Hd) as HdQ.
  rewrite Zle_Qle in H1. rewrite Zlt_Qlt in H2. push_inj.
  split.
  - apply rat_le_iff; [exact Hd|]. lra.
  - apply rat_lt_iff; [exact Hd|]. lra.
Qed.

Lemma floor_value n d :
  (0 < d)%Z -> inject_Z (n / d) <= rat n d < inject_Z (n / d) + 1.
Proof.
  intros Hd. pose proof (inject_Z_pos d Hd) as HdQ.
  pose proof (Z.div_mod n d ltac:(lia)) as E.
  pose proof (Z.mod_pos_bound n d Hd) as [B1 B2].
  rewrite Zle_Qle in B1. rewrite Zlt_Qlt in B2.
  apply (f_equal inject_Z) in E. push_inj.
  split.
  - apply rat_le_iff; [exact Hd|]. rewrite E. lra.
  - apply rat_lt_iff; [exact Hd|]. rewrite E. lra.
Qed.

(** ** When a fraction rounds to a given binary64 value *)

Lemma pw2_52 : pw 2 52 == 4503599627370496.
Proof. reflexivity. Qed.

Lemma pw2_shift e k : pw 2 (e + k) == pw 2 e * pw 2 k.
Proof. apply pw_add. lia. Qed.

Lemma div_bounds r w a b :
  0 < w -> a * w < r -> r < b * w -> a < r / w < b.
Proof.
  intros Hw H1 H2. split.
  - apply Qlt_shift_div_l; assumption.
  - apply Qlt_shift_div_r; assumption.
Qed.

Lemma of_rat_unfold sg N D :
  of_rat sg N D =
  let e := Z.max (ilog2 N D - 52) (-1074) in
  let m := rne (N * dn 2 e) (D * up 2 e) in
  let '(m, e) := if (m =? 2 ^ 53)%Z then ((2 ^ 52)%Z, (e + 1)%Z) else (m, e) in
  match m with
  | Zpos p => if (971 <? e)%Z then S754_infinity sg else S754_finite sg p e
  | _ => S754_zero sg
  end.
Proof. reflexivity. Qed.

Lemma of_rat_exact sg N D m e :
  (0 < N)%Z -> (0 < D)%Z -> bounded64 m e ->
  inject_Z m * pw 2 e - (1 # 2) * pw 2 e < rat N D
    < inject_Z m * pw 2 e + (1 # 2) * pw 2 e ->
  (m = (2 ^ 52)%Z -> (-1074 < e)%Z ->
   inject_Z m * pw 2 e - (1 # 4) * pw 2 e < rat N D) ->
  of_rat sg N D = S754_finite sg (Z.to_pos m) e.
Proof.
  intros HN HD (Hm & He & Hn) [Hlo Hhi] Htight.
  pose proof (pw_pos 2 e ltac:(lia)) as Hw.
  pose proof (ilog2_spec N D HN HD) as Hl.
  set (r := rat N D) in *. set (w := pw 2 e) in *.
  assert (HmQ : 1 <= inject_Z m <= 9007199254740991).
  { split; [change 1 with (inject_Z 1) | change 9007199254740991 with
      (inject_Z 9007199254740991)]; rewrite <- Zle_Qle; lia. }
  assert (Hsame : Z.max (ilog2 N D - 52) (-1074) = e ->
                  of_rat sg N D = S754_finite sg (Z.to_pos m) e).
  { intros HE. rewrite of_rat_unfold. rewrite HE. cbv zeta.
    assert (HM : rne (N * dn 2 e) (D * up 2 e) = m).
    { apply rne_value; [pose proof (up_pos 2 e ltac:(lia)); nia|].
      rewrite rat_scale by lia. fold r w.
      apply div_bounds; [exact Hw | lra | lra]. }
    rewrite HM. destruct (Z.eqb_spec m (2 ^ 53)) as [->|_]; [lia|].
    destruct m as [|p|p]; try lia.
    destruct (Z.ltb_spec 971 e); [lia | reflexivity]. }
  assert (H52 : pw 2 (e + 52) == w * 4503599627370496)
    by (rewrite pw2_shift, pw2_52; reflexivity).
  destruct (Qlt_le_dec r (pw 2 (e + 52))) as [Hr|Hr].
  - destruct (Z.eq_dec e (-1074)) as [E|E].
    + apply Hsame.
      assert (pw 2 (ilog2 N D) < pw 2 (e + 52)) by lra.
      apply pw_lt_inv in H; lia.
    + assert (H2 : (2 ^ 52 <= m)%Z) by lia.
      assert (Hm52 : m = (2 ^ 52)%Z).
      { destruct (Z.eq_dec m (2 ^ 52)); [assumption|exfalso].
        assert (4503599627370497 <= inject_Z m).
        { change 4503599627370497 with (inject_Z 4503599627370497).
          rewrite <- Zle_Qle. lia. }
        nra. }
      specialize (Htight Hm52 ltac:(lia)). subst m.
      change (inject_Z (2 ^ 52)) with 4503599627370496 in *.
      assert (H51 : pw 2 (e + 51) == w * 2251799813685248).
      { rewrite pw2_shift. reflexivity. }
      assert (Hlog : ilog2 N D = (e + 51)%Z).
      { apply ilog2_unique; try assumption. fold r.
        replace (e + 51 + 1)%Z with (e + 52)%Z by lia. lra. }
      rewrite of_rat_unfold, Hlog.
      replace (Z.max (e + 51 - 52) (-1074)) with (e - 1)%Z by lia.
      cbv zeta.
      assert (HM : rne (N * dn 2 (e - 1)) (D * up 2 (e - 1)) = (2 ^ 53)%Z).
      { apply rne_value; [pose proof (up_pos 2 (e - 1) ltac:(lia)); nia|].
        rewrite rat_scale by lia. fold r.
        pose proof (pw_pred 2 e ltac:(lia)) as Hp. fold w in Hp.
        change (inject_Z 2) with 2 in Hp.
        pose proof (pw_pos 2 (e - 1) ltac:(lia)) as Hw1.
        change (inject_Z (2 ^ 53)) with 9007199254740992.
        apply div_bounds; [exact Hw1 | lra | lra]. }
      rewrite HM. rewrite Z.eqb_refl.
      replace (e - 1 + 1)%Z with e by lia.
      destruct (Z.ltb_spec 971 e); [lia | reflexivity].
  - apply Hsame.
    assert (Hlog : ilog2 N D = (e + 52)%Z).
    { apply ilog2_unique; try assumption. fold r. split; [exact Hr|].
      replace (e + 52 + 1)%Z with (e + 53)%Z by lia.
      assert (H53 : pw 2 (e + 53) == w * 9007199254740992).
      { rewrite pw2_shift. reflexivity. }
      nra. }
    lia.
Qed.

Lemma div_bounds_le r w a b :
  0 < w -> a * w <= r -> r < b * w -> a <= r / w < b.
Proof.
  intros Hw H1 H2. split.
  - apply Qle_shift_div_l; assumption.
  - apply Qlt_shift_div_r; assumption.
Qed.

Lemma div_bounds_inv r w a b :
  0 < w -> a <= r / w <= b -> a * w <= r <= b * w.
Proof.
  intros Hw [H1 H2].
  assert (E : r == r / w * w) by (field; lra).
  split; rewrite E.
  - apply Qmult_le_compat_r; lra.
  - apply Qmult_le_compat_r; lra.
Qed.

(** In the normal range a fraction rounds to a finite value within a
    relative distance of [2 ^ -53]. *)
Lemma of_rat_normal sg N D :
  (0 < N)%Z -> (0 < D)%Z ->
  pw 2 (-1022) <= rat N D < pw 2 1023 ->
  exists m e,
    of_rat sg N D = S754_finite sg m e
    /\ (inject_Z (Zpos m) * pw 2 e - rat N D) * 9007199254740992
       <= rat N D
    /\ (rat N D - inject_Z (Zpos m) * pw 2 e) * 9007199254740992
       <= rat N D.
Proof.
  intros HN HD [Hlo Hhi].
  pose proof (ilog2_spec N D HN HD) as [Hl1 Hl2].
  set (r := rat N D) in *. set (l := ilog2 N D) in *.
  assert (Hl : (-1022 <= l <= 1022)%Z).
  { assert (A : pw 2 (-1022) < pw 2 (l + 1)) by lra.
    assert (B : pw 2 l < pw 2 1023) by lra.
    apply pw_lt_inv in A; [|lia]. apply pw_lt_inv in B; lia. }
  rewrite of_rat_unfold. fold l.
  replace (Z.max (l - 52) (-1074)) with (l - 52)%Z by lia.
  set (E := (l - 52)%Z). cbv zeta.
  pose proof (pw_pos 2 E ltac:(lia)) as Hw.
  assert (H52 : pw 2 l == pw 2 E * 4503599627370496).
  { replace l with (E + 52)%Z by (unfold E; lia).
    rewrite pw2_shift, pw2_52. reflexivity. }
  assert (H53 : pw 2 (l + 1) == pw 2 E * 9007199254740992).
  { replace (l + 1)%Z with (E + 53)%Z by (unfold E; lia).
    rewrite pw2_shift. reflexivity. }
  set (w := pw 2 E) in *.
  set (M := rne (N * dn 2 E) (D * up 2 E)).
  assert (HM : inject_Z M - (1 # 2) <= r / w <= inject_Z M + (1 # 2)).
  { assert (HdE : (0 < D * up 2 E)%Z)
      by (pose proof (up_pos 2 E ltac:(lia)); nia).
    pose proof (rne_error (N * dn 2 E) (D * up 2 E) HdE) as H.
    rewrite rat_scale in H by lia. exact H. }
  assert (Hq : 4503599627370496 <= r / w < 9007199254740992).
  { apply div_bounds_le; [exact Hw | lra | lra]. }
  assert (HMZ : (2 ^ 52 <= M <= 2 ^ 53)%Z).
  { split.
    - assert (H : (9007199254740991 <= 2 * M)%Z); [|lia].
      apply Z_of_Q_le. push_inj.
      change (inject_Z 9007199254740991) with 9007199254740991. lra.
    - assert (H : (2 * M < 18014398509481985)%Z); [|lia].
      apply Z_of_Q_lt. push_inj.
      change (inject_Z 18014398509481985) with 18014398509481985. lra. }
  assert (Herr : inject_Z M * w - (1 # 2) * w <= r
                 <= inject_Z M * w + (1 # 2) * w).
  { pose proof (div_bounds_inv r w _ _ Hw HM). lra. }
  destruct (Z.eqb_spec M (2 ^ 53)) as [HM53|HM53].
  - exists 4503599627370496%positive, (E + 1)%Z.
    change (2 ^ 52)%Z with (Zpos 4503599627370496).
    destruct (Z.ltb_spec 971 (E + 1)); [unfold E in *; lia|].
    split; [reflexivity|].
    rewrite pw_succ by lia. fold w. rewrite HM53 in Herr.
    change (inject_Z (2 ^ 53)) with 9007199254740992 in Herr.
    change (inject_Z (Zpos 4503599627370496)) with 4503599627370496.
    change (inject_Z 2) with 2. lra.
  - destruct M as [|p|p] eqn:EM; try lia.
    exists p, E.
    destruct (Z.ltb_spec 971 E); [unfold E in *; lia|].
    split; [reflexivity|]. fold w. lra.
Qed.

(** ** The twelve digits of [toPrecision] *)

Lemma pw10_shift e k : pw 10 (e + k) == pw 10 e * pw 10 k.
Proof. apply pw_add. lia. Qed.

Lemma precision_digits_unfold p N D :
  precision_digits p N D =
  let e := ilog10 N D in
  let n := rhu (N * dn 10 (e - p + 1)) (D * up 10 (e - p + 1)) in
  if (n =? 10 ^ p)%Z then ((10 ^ (p - 1))%Z, (e + 1)%Z) else (n, e).
Proof. reflexivity. Qed.

Lemma inject_Z_le_const n c : (n <= c)%Z -> inject_Z n <= inject_Z c.
Proof. intros H. rewrite <- Zle_Qle. exact H. Qed.

(** A value within a relative distance of [2 ^ -53] of the twelve-digit
    decimal [n * 10 ^ (e10 - 11)] has these twelve digits. *)
Lemma precision_digits_value N D n e10 :
  (0 < N)%Z -> (0 < D)%Z -> (10 ^ 11 <= n < 10 ^ 12)%Z ->
  (dec n (e10 - 11) - rat N D) * 9007199254740992 <= dec n (e10 - 11) ->
  (rat N D - dec n (e10 - 11)) * 9007199254740992 <= dec n (e10 - 11) ->
  precision_digits 12 N D = (n, e10).
Proof.
  intros HN HD [Hn1 Hn2] H1 H2. unfold dec in *.
  set (u := pw 10 (e10 - 11)) in *. set (v := rat N D) in *.
  pose proof (pw_pos 10 (e10 - 11) ltac:(lia)) as Hu. fold u in Hu.
  assert (Hn1Q : 100000000000 <= inject_Z n)
    by (apply (inject_Z_le_const _ n) in Hn1; exact Hn1).
  assert (Hn2Q : inject_Z n <= 999999999999)
    by (apply (inject_Z_le_const n 999999999999); lia).
  assert (Hua : 100000000000 * u <= inject_Z n * u)
    by (apply Qmult_le_compat_r; lra).
  assert (Hub : inject_Z n * u <= 999999999999 * u)
    by (apply Qmult_le_compat_r; lra).
  assert (P0 : pw 10 e10 == u * 100000000000).
  { replace e10 with (e10 - 11 + 11)%Z at 1 by lia.
    rewrite pw10_shift. reflexivity. }
  assert (P1 : pw 10 (e10 + 1) == u * 1000000000000).
  { replace (e10 + 1)%Z with (e10 - 11 + 12)%Z by lia.
    rewrite pw10_shift. reflexivity. }
  rewrite precision_digits_unfold.
  destruct (Qlt_le_dec v (u * 100000000000)) as [Hv|Hv].
  - assert (En : n = (10 ^ 11)%Z).
    { destruct (Z.eq_dec n (10 ^ 11)); [assumption|exfalso].
      assert (100000000001 <= inject_Z n)
        by (apply (inject_Z_le_const 100000000001 n); lia).
      assert (100000000001 * u <= inject_Z n * u)
        by (apply Qmult_le_compat_r; lra).
      lra. }
    subst n. change (inject_Z (10 ^ 11)) with 100000000000 in *.
    pose proof (pw_pred 10 (e10 - 11) ltac:(lia)) as Pp. fold u in Pp.
    replace (e10 - 11 - 1)%Z with (e10 - 12)%Z in Pp by lia.
    change (inject_Z 10) with 10 in Pp.
    pose proof (pw_pos 10 (e10 - 12) ltac:(lia)) as Hu'.
    set (u' := pw 10 (e10 - 12)) in *.
    assert (El : ilog10 N D = (e10 - 1)%Z).
    { apply ilog10_unique; try assumption. fold v.
      replace (e10 - 1 + 1)%Z with e10 by lia.
      assert (pw 10 (e10 - 1) == u' * 100000000000).
      { replace (e10 - 1)%Z with (e10 - 12 + 11)%Z by lia.
        rewrite pw10_shift. reflexivity. }
      lra. }
    rewrite El. cbv zeta.
    replace (e10 - 1 - 12 + 1)%Z with (e10 - 12)%Z by lia.
    assert (Er : rhu (N * dn 10 (e10 - 12)) (D * up 10 (e10 - 12))
                 = (10 ^ 12)%Z).
    { apply rhu_value; [pose proof (up_pos 10 (e10 - 12) ltac:(lia)); nia|].
      rewrite rat_scale by lia. fold v u'.
      change (inject_Z (10 ^ 12)) with 1000000000000.
      apply div_bounds_le; [exact Hu' | lra | lra]. }
    rewrite Er, Z.eqb_refl. f_equal. lia.
  - assert (El : ilog10 N D = e10).
    { apply ilog10_unique; try assumption. fold v. lra. }
    rewrite El. cbv zeta.
    replace (e10 - 12 + 1)%Z with (e10 - 11)%Z by lia.
    assert (Er : rhu (N * dn 10 (e10 - 11)) (D * up 10 (e10 - 11)) = n).
    { apply rhu_value; [pose proof (up_pos 10 (e10 - 11) ltac:(lia)); nia|].
      rewrite rat_scale by lia. fold v u.
      apply div_bounds_le; [exact Hu | lra | lra]. }
    rewrite Er. destruct (Z.eqb_spec n (10 ^ 12)); [lia | reflexivity].
Qed.

(** The digits computed by [toPrecision] are twelve. *)
Lemma precision_digits_range N D :
  (0 < N)%Z -> (0 < D)%Z ->
  (10 ^ 11 <= fst (precision_digits 12 N D) < 10 ^ 12)%Z.
Proof.
  intros HN HD. rewrite precision_digits_unfold. cbv zeta.
  set (e := ilog10 N D). set (sc := (e - 12 + 1)%Z).
  pose proof (ilog10_spec N D HN HD) as [Hl1 Hl2]. fold e in Hl1, Hl2.
  pose proof (pw_pos 10 sc ltac:(lia)) as Hu.
  assert (HdE : (0 < D * up 10 sc)%Z)
    by (pose proof (up_pos 10 sc ltac:(lia)); nia).
  pose proof (rhu_error (N * dn 10 sc) (D * up 10 sc) HdE) as Hr.
  rewrite rat_scale in Hr by lia.
  set (n := rhu (N * dn 10 sc) (D * up 10 sc)) in *.
  assert (P0 : pw 10 e == pw 10 sc * 100000000000).
  { replace e with (sc + 11)%Z at 1 by (unfold sc; lia).
    rewrite pw10_shift. reflexivity. }
  assert (P1 : pw 10 (e + 1) == pw 10 sc * 1000000000000).
  { replace (e + 1)%Z with (sc + 12)%Z by (unfold sc; lia).
    rewrite pw10_shift. reflexivity. }
  assert (Hq : 100000000000 <= rat N D / pw 10 sc < 1000000000000).
  { apply div_bounds_le; [exact Hu | lra | lra]. }
  assert (Hn : (10 ^ 11 <= n <= 10 ^ 12)%Z).
  { split.
    - assert (H : (199999999999 < 2 * n + 1)%Z); [|lia].
      apply Z_of_Q_lt. push_inj.
      change (inject_Z 199999999999) with 199999999999. lra.
    - assert (H : (2 * n < 2000000000001)%Z); [|lia].
      apply Z_of_Q_lt. push_inj.
      change (inject_Z 2000000000001) with 2000000000001. lra. }
  destruct (Z.eqb_spec n (10 ^ 12)); simpl; lia.
Qed.

Lemma rat_num_den m e :
  rat (num m e) (den e) == inject_Z (Zpos m) * pw 2 e.
Proof.
  unfold rat, num, den. rewrite inject_Z_mult, up_dn by lia.
  pose proof (inject_Z_pos _ (dn_pos 2 e ltac:(lia))). field. lra.
Qed.

Lemma num_pos m e : (0 < num m e)%Z.
Proof. unfold num. pose proof (up_pos 2 e ltac:(lia)). nia. Qed.

Lemma den_pos e : (0 < den e)%Z.
Proof. apply dn_pos. lia. Qed.

Lemma of_decimal_pos sg a sc :
  (0 < a)%Z -> of_decimal sg a sc = of_rat sg (a * up 10 sc) (dn 10 sc).
Proof.
  intros H. unfold of_decimal.
  destruct (Z.eqb_spec a 0); [lia | reflexivity].
Qed.

(** The twelve-digit decimals between [10 ^ -6] and [10 ^ 12] are read
    as values whose twelve digits are the same. *)
Lemma precision_digits_of_decimal sg n e10 :
  (10 ^ 11 <= n < 10 ^ 12)%Z -> (-6 <= e10 <= 11)%Z ->
  exists m e,
    of_decimal sg n (e10 - 11) = S754_finite sg m e
    /\ precision_digits 12 (num m e) (den e) = (n, e10).
Proof.
  intros Hn He. rewrite of_decimal_pos by lia.
  set (sc := (e10 - 11)%Z).
  assert (HN : (0 < n * up 10 sc)%Z)
    by (pose proof (up_pos 10 sc ltac:(lia)); nia).
  assert (HD : (0 < dn 10 sc)%Z) by (apply dn_pos; lia).
  assert (Hr : pw 2 (-1022) <= rat (n * up 10 sc) (dn 10 sc) < pw 2 1023).
  { rewrite rat_decimal. unfold dec.
    assert (A : pw 10 (-17) <= pw 10 sc) by (apply pw_le; unfold sc; lia).
    assert (B : pw 10 sc <= pw 10 0) by (apply pw_le; unfold sc; lia).
    assert (C : 100000000000 <= inject_Z n <= 999999999999).
    { split; [apply (inject_Z_le_const 100000000000 n)
             | apply (inject_Z_le_const n 999999999999)]; lia. }
    assert (P17 : pw 10 (-17) == 1 # 100000000000000000) by reflexivity.
    assert (P0 : pw 10 0 == 1) by reflexivity.
    assert (L : pw 2 (-1022) <= 1 # 1000000) by (vm_compute; discriminate).
    assert (U : 1000000000000 <= pw 2 1023) by (vm_compute; discriminate).
    pose proof (pw_pos 10 sc ltac:(lia)) as Hu.
    set (u := pw 10 sc) in *. set (x := inject_Z n) in *.
    assert (100000000000 * (1 # 100000000000000000) <= x * u).
    { apply Qmult_le_compat_nonneg; split; lra. }
    assert (x * u <= 999999999999 * 1).
    { apply Qmult_le_compat_nonneg; split; lra. }
    split; lra. }
  destruct (of_rat_normal sg _ _ HN HD Hr) as (m & e & E & H1 & H2).
  exists m, e. split; [exact E|].
  rewrite rat_decimal in H1, H2.
  apply precision_digits_value;
    [apply num_pos | apply den_pos | exact Hn | |];
    rewrite rat_num_den; assumption.
Qed.

(** ** Seventeen digits identify a binary64 value *)

Lemma nearest_digits_unfold N D e10 k :
  nearest_digits N D e10 k =
  let sc := (e10 - k + 1)%Z in
  let s := rne (N * dn 10 sc) (D * up 10 sc) in
  if (s =? 10 ^ k)%Z then ((10 ^ (k - 1))%Z, (e10 + 2)%Z)
  else (s, (e10 + 1)%Z).
Proof. reflexivity. Qed.

Lemma nearest_digits_exact m e :
  bounded64 (Zpos m) e ->
  let N := num m e in
  let D := den e in
  let '(s, n) := nearest_digits N D (ilog10 N D) 17 in
  of_decimal false s (n - 17) = S754_finite false m e
  /\ (10 ^ 16 <= s < 10 ^ 17)%Z.
Proof.
  intros Hb N D.
  pose proof (num_pos m e) as HN. pose proof (den_pos e) as HD.
  fold N in HN. fold D in HD.
  pose proof (ilog10_spec N D HN HD) as [Hl1 Hl2].
  set (e10 := ilog10 N D) in *.
  rewrite nearest_digits_unfold. cbv zeta.
  replace (e10 - 17 + 1)%Z with (e10 - 16)%Z by lia.
  set (sc := (e10 - 16)%Z).
  pose proof (pw_pos 10 sc ltac:(lia)) as Hu.
  pose proof (pw_pos 2 e ltac:(lia)) as Hw.
  assert (HdE : (0 < D * up 10 sc)%Z)
    by (pose proof (up_pos 10 sc ltac:(lia)); nia).
  pose proof (rne_error (N * dn 10 sc) (D * up 10 sc) HdE) as Hr.
  rewrite rat_scale in Hr by lia.
  set (s := rne (N * dn 10 sc) (D * up 10 sc)) in *.
  assert (Ev : rat N D == inject_Z (Zpos m) * pw 2 e) by apply rat_num_den.
  rewrite Ev in Hl1, Hl2, Hr.
  set (u := pw 10 sc) in *. set (w := pw 2 e) in *.
  set (x := inject_Z (Zpos m)) in *. set (v := x * w) in *.
  assert (P0 : pw 10 e10 == u * 10000000000000000).
  { replace e10 with (sc + 16)%Z at 1 by (unfold sc; lia).
    rewrite pw10_shift. reflexivity. }
  assert (P1 : pw 10 (e10 + 1) == u * 100000000000000000).
  { replace (e10 + 1)%Z with (sc + 17)%Z by (unfold sc; lia).
    rewrite pw10_shift. reflexivity. }
  assert (Hq : 10000000000000000 <= v / u < 100000000000000000).
  { apply div_bounds_le; [exact Hu | lra | lra]. }
  assert (Hs : (10 ^ 16 <= s <= 10 ^ 17)%Z).
  { split.
    - assert (H : (19999999999999999 <= 2 * s)%Z); [|lia].
      apply Z_of_Q_le. push_inj.
      change (inject_Z 19999999999999999) with 19999999999999999. lra.
    - assert (H : (2 * s < 200000000000000001)%Z); [|lia].
      apply Z_of_Q_lt. push_inj.
      change (inject_Z 200000000000000001) with 200000000000000001. lra. }
  assert (Herr : inject_Z s * u - (1 # 2) * u <= v
                 <= inject_Z s * u + (1 # 2) * u).
  { pose proof (div_bounds_inv v u _ _ Hu Hr). lra. }
  destruct Hb as (Hm & He & Hn).
  assert (HxQ : 1 <= x <= 9007199254740991).
  { split; [apply (inject_Z_le_const 1 (Zpos m))
           | apply (inject_Z_le_const (Zpos m) 9007199254740991)]; lia. }
  assert (Hxw : v <= 9007199254740991 * w)
    by (apply Qmult_le_compat_r; lra).
  assert (Hexact : of_decimal false s sc = S754_finite false m e).
  { rewrite of_decimal_pos by lia.
    change m with (Z.to_pos (Zpos m)) at 1.
    apply of_rat_exact.
    - pose proof (up_pos 10 sc ltac:(lia)). nia.
    - apply dn_pos. lia.
    - repeat split; lia.
    - rewrite rat_decimal. unfold dec. fold u w x v. split; lra.
    - intros E52 _. rewrite rat_decimal. unfold dec. fold u w x v.
      assert (x == 4503599627370496) by (unfold x; rewrite E52; reflexivity).
      assert (v == 4503599627370496 * w) by (unfold v; rewrite H; reflexivity).
      lra. }
  destruct (Z.eqb_spec s (10 ^ 17)) as [E17|E17].
  - split; [|lia]. rewrite <- Hexact, E17.
    replace (e10 + 2 - 17)%Z with (sc + 1)%Z by (unfold sc; lia).
    apply of_decimal_ext; [lia | lia |].
    unfold dec. rewrite pw_succ by lia.
    change (inject_Z (10 ^ (17 - 1))) with 10000000000000000.
    change (inject_Z (10 ^ 17)) with 100000000000000000.
    change (inject_Z 10) with 10. ring.
  - split; [|lia]. rewrite <- Hexact. f_equal. unfold sc. lia.
Qed.

(** ** The shortest digits read back as the value *)

Lemma same_eq x y : same x y = true -> x = y.
Proof.
  destruct x as [a|a| |a m e], y as [b|b| |b n f]; simpl;
    try discriminate; try reflexivity.
  - intros H. apply Bool.eqb_prop in H. congruence.
  - intros H. apply Bool.eqb_prop in H. congruence.
  - intros H. apply andb_prop in H as [H He]. apply andb_prop in H as [Hs Hm].
    apply Bool.eqb_prop in Hs. apply Pos.eqb_eq in Hm. apply Z.eqb_eq in He.
    congruence.
Qed.

Lemma try_digits_unfold x N D e10 k :
  try_digits x N D e10 k =
  let sc := (e10 - k + 1)%Z in
  let lo := (N * dn 10 sc / (D * up 10 sc))%Z in
  let r := ((N * dn 10 sc) mod (D * up 10 sc))%Z in
  let hi := (lo + 1)%Z in
  let pick_lo := Some (lo, (e10 + 1)%Z) in
  let pick_hi :=
    if (hi =? 10 ^ k)%Z then Some ((10 ^ (k - 1))%Z, (e10 + 2)%Z)
    else Some (hi, (e10 + 1)%Z) in
  match same (of_decimal false lo sc) x, same (of_decimal false hi sc) x with
  | true, true =>
      match (2 * r ?= D * up 10 sc)%Z with
      | Lt => pick_lo
      | Gt => pick_hi
      | Eq => if Z.even lo then pick_lo else pick_hi
      end
  | true, false => pick_lo
  | false, true => pick_hi
  | false, false => None
  end.
Proof. reflexivity. Qed.

Lemma try_digits_spec x N D k s n :
  (0 < N)%Z -> (0 < D)%Z -> (1 <= k)%Z ->
  try_digits x N D (ilog10 N D) k = Some (s, n) ->
  of_decimal false s (n - k) = x /\ (10 ^ (k - 1) <= s < 10 ^ k)%Z.
Proof.
  intros HN HD Hk. rewrite try_digits_unfold.
  pose proof (ilog10_spec N D HN HD) as [Hl1 Hl2].
  set (e10 := ilog10 N D) in *. cbv zeta.
  set (sc := (e10 - k + 1)%Z).
  assert (HdE : (0 < D * up 10 sc)%Z)
    by (pose proof (up_pos 10 sc ltac:(lia)); nia).
  pose proof (floor_value (N * dn 10 sc) (D * up 10 sc) HdE) as Hf.
  rewrite rat_scale in Hf by lia.
  set (lo := (N * dn 10 sc / (D * up 10 sc))%Z) in *.
  set (r := ((N * dn 10 sc) mod (D * up 10 sc))%Z).
  pose proof (pw_pos 10 sc ltac:(lia)) as Hu.
  assert (P0 : pw 10 e10 == pw 10 sc * inject_Z (10 ^ (k - 1))).
  { replace e10 with (sc + (k - 1))%Z at 1 by (unfold sc; lia).
    rewrite pw10_shift, (pw_nonneg_exp 10 (k - 1)) by lia. reflexivity. }
  assert (P1 : pw 10 (e10 + 1) == pw 10 sc * inject_Z (10 ^ k)).
  { replace (e10 + 1)%Z with (sc + k)%Z by (unfold sc; lia).
    rewrite pw10_shift, (pw_nonneg_exp 10 k) by lia. reflexivity. }
  assert (Hq : inject_Z (10 ^ (k - 1)) <= rat N D / pw 10 sc
               < inject_Z (10 ^ k)).
  { apply div_bounds_le; [exact Hu | lra | lra]. }
  assert (Hlo : (10 ^ (k - 1) <= lo < 10 ^ k)%Z).
  { split.
    - assert (H : (10 ^ (k - 1) < lo + 1)%Z); [|lia].
      apply Z_of_Q_lt. push_inj. lra.
    - apply Z_of_Q_lt. lra. }
  assert (Hpow : (10 ^ k = 10 ^ (k - 1) * 10)%Z).
  { replace k with (k - 1 + 1)%Z at 1 by lia.
    rewrite Z.pow_add_r by lia. reflexivity. }
  assert (Flo : same (of_decimal false lo sc) x = true ->
                Some (lo, (e10 + 1)%Z) = Some (s, n) ->
                of_decimal false s (n - k) = x
                /\ (10 ^ (k - 1) <= s < 10 ^ k)%Z).
  { intros Hs E. inversion E; subst s n. split; [|exact Hlo].
    apply same_eq in Hs. rewrite <- Hs. f_equal. unfold sc. lia. }
  assert (Fhi : same (of_decimal false (lo + 1) sc) x = true ->
                (if (lo + 1 =? 10 ^ k)%Z
                 then Some ((10 ^ (k - 1))%Z, (e10 + 2)%Z)
                 else Some ((lo + 1)%Z, (e10 + 1)%Z)) = Some (s, n) ->
                of_decimal false s (n - k) = x
                /\ (10 ^ (k - 1) <= s < 10 ^ k)%Z).
  { intros Hs E. apply same_eq in Hs.
    destruct (Z.eqb_spec (lo + 1) (10 ^ k)) as [E10|E10];
      inversion E; subst s n.
    - split; [|lia]. rewrite <- Hs, E10, Hpow.
      replace (10 ^ (k - 1) * 10)%Z with (10 ^ (k - 1) * 10 ^ 1)%Z by lia.
      replace sc with (e10 + 2 - k - 1)%Z by (unfold sc; lia).
      symmetry. apply of_decimal_shift; lia.
    - split; [|lia]. rewrite <- Hs. f_equal. unfold sc. lia. }
  destruct (same (of_decimal false lo sc) x) eqn:S1;
    destruct (same (of_decimal false (lo + 1) sc) x) eqn:S2;
    try discriminate; auto.
  destruct (2 * r ?= D * up 10 sc)%Z; auto.
  destruct (Z.even lo); auto.
Qed.

Lemma shortest_digits_spec m e fuel : forall k s k' n,
  bounded64 (Zpos m) e ->
  (1 <= k)%Z -> (k + Z.of_nat fuel = 17)%Z ->
  shortest_digits fuel (S754_finite false m e) (num m e) (den e)
    (ilog10 (num m e) (den e)) k = (s, k', n) ->
  of_decimal false s (n - k') = S754_finite false m e
  /\ (10 ^ (k' - 1) <= s < 10 ^ k')%Z /\ (1 <= k' <= 17)%Z.
Proof.
  induction fuel as [|fuel IH]; intros k s k' n Hb Hk Hf; simpl.
  - assert (k = 17%Z) by lia. subst k.
    pose proof (nearest_digits_exact m e Hb) as H. cbv zeta in H.
    destruct (nearest_digits _ _ _ 17) as [s0 n0].
    intros E. inversion E; subst. destruct H as [H1 H2].
    split; [exact H1|]. split; [exact H2 | lia].
  - destruct (try_digits _ _ _ _ k) as [[s0 n0]|] eqn:T.
    + intros E. inversion E; subst.
      apply try_digits_spec in T; [|apply num_pos|apply den_pos|lia].
      destruct T as [T1 T2]. split; [exact T1|]. split; [exact T2 | lia].
    + intros E. apply IH in E; [exact E | exact Hb | lia | lia].
Qed.

Local Close Scope Q_scope.

(** ** Values of digit strings *)

Lemma value_from_scale s : forall acc,
  Digits.value_from acc s
  = acc * 10 ^ Z.of_nat (String.length s) + Digits.value s.
Proof.
  unfold Digits.value.
  induction s as [|c s IH]; intros acc.
  - simpl. lia.
  - cbn [Digits.value_from String.length]. rewrite IH, (IH (10 * 0 + _)).
    rewrite Nat2Z.inj_succ, Z.pow_succ_r by lia. ring.
Qed.

Lemma value_from_append s t acc :
  Digits.value_from acc (s ++ t)
  = Digits.value_from (Digits.value_from acc s) t.
Proof. revert acc. induction s as [|c s IH]; intros acc; simpl; auto. Qed.

Lemma value_append s t :
  Digits.value (s ++ t)
  = Digits.value s * 10 ^ Z.of_nat (String.length t) + Digits.value t.
Proof.
  unfold Digits.value at 1. rewrite value_from_append, value_from_scale.
  reflexivity.
Qed.

Lemma value_zeros k : Digits.value (Str.zeros k) = 0.
Proof.
  unfold Digits.value. induction k as [|k IH]; simpl; [reflexivity|].
  exact IH.
Qed.

Lemma length_zeros k : String.length (Str.zeros k) = k.
Proof. induction k; simpl; congruence. Qed.

Lemma value_nonneg s : Str.all is_digit s = true -> 0 <= Digits.value s.
Proof.
  unfold Digits.value. assert (H : forall acc, 0 <= acc ->
    Str.all is_digit s = true -> 0 <= Digits.value_from acc s).
  { induction s as [|c s IH]; intros acc Ha Hs;
      cbn [Digits.value_from Str.all] in *; [exact Ha|].
    apply andb_prop in Hs as [Hc Hs]. apply IH; [|exact Hs].
    unfold is_digit in Hc. unfold digit_val. cbv zeta in Hc.
    apply andb_prop in Hc as [H1 H2].
    apply N.leb_le in H1. lia. }
  apply H. lia.
Qed.

Lemma render_onto_append w : forall n acc,
  Digits.render_onto w n acc = Digits.render w n ++ acc.
Proof.
  unfold Digits.render.
  induction w as [|w IH]; intros n acc; simpl; [reflexivity|].
  rewrite IH, (IH _ (String _ "")). rewrite append_assoc. reflexivity.
Qed.

Lemma render_succ w n :
  Digits.render (S w) n
  = Digits.render w (n / 10) ++ char (digit_char (n mod 10)).
Proof. unfold Digits.render at 1. simpl. apply render_onto_append. Qed.

Lemma length_render w n : String.length (Digits.render w n) = w.
Proof.
  revert n. induction w as [|w IH]; intros n; [reflexivity|].
  rewrite render_succ, length_append, IH. simpl. lia.
Qed.

Lemma value_render w : forall n,
  0 <= n < 10 ^ Z.of_nat w -> Digits.value (Digits.render w n) = n.
Proof.
  induction w as [|w IH]; intros n Hn.
  - simpl in Hn. unfold Digits.value. simpl. lia.
  - rewrite render_succ, value_append. simpl String.length.
    rewrite Nat2Z.inj_succ, Z.pow_succ_r in Hn by lia.
    rewrite IH.
    + unfold Digits.value at 1. simpl.
      rewrite digit_val_char by (apply Z.mod_pos_bound; lia).
      pose proof (Z.div_mod n 10 ltac:(lia)). lia.
    + split; [apply Z.div_pos; lia|].
      apply Z.div_lt_upper_bound; lia.
Qed.

Lemma value_of_Z n : 0 <= n -> Digits.value (Digits.of_Z n) = n.
Proof.
  intros Hn. unfold Digits.of_Z. apply value_render.
  destruct (Z.eq_dec n 0) as [->|Hz]; [simpl; lia|].
  pose proof (log10_spec n ltac:(lia)) as (H0 & _ & H).
  rewrite Z2Nat.id by lia. lia.
Qed.

Lemma log10_loop_nonneg fuel : forall n, 0 <= Digits.log10_loop fuel n.
Proof.
  induction fuel as [|f IH]; intros n; cbn [Digits.log10_loop]; [lia|].
  destruct (n <? 10); [lia|]. specialize (IH (n / 10)). lia.
Qed.

Lemma of_Z_not_empty n : Digits.of_Z n <> "".
Proof.
  unfold Digits.of_Z. intros H. apply (f_equal String.length) in H.
  rewrite length_render in H. simpl in H.
  pose proof (log10_loop_nonneg (Z.to_nat (Z.log2 n)) n).
  unfold Digits.log10 in H. lia.
Qed.

(** ** Reading decimal strings *)

Lemma span_digits ds rest :
  Str.all is_digit ds = true -> starts_with_digit rest = false ->
  Str.span is_digit (ds ++ rest) = (ds, rest).
Proof.
  intros Hd Hr. induction ds as [|c ds IH]; simpl in *.
  - destruct rest as [|c r]; [reflexivity|]. simpl in *. rewrite Hr.
    reflexivity.
  - apply andb_prop in Hd as [Hc Hd]. rewrite Hc, IH by assumption.
    reflexivity.
Qed.

Lemma span_digits_all ds :
  Str.all is_digit ds = true -> Str.span is_digit ds = (ds, "").
Proof.
  intros H. rewrite <- (append_nil_r ds) at 1. apply span_digits; auto.
Qed.

Lemma exponent_part_suffix ex : exponent_part (exponent_suffix ex) = ex.
Proof.
  unfold exponent_suffix.
  pose proof (all_digit_of_Z (Z.abs ex)) as Hd.
  pose proof (of_Z_not_empty (Z.abs ex)) as Hn.
  pose proof (value_of_Z (Z.abs ex) ltac:(lia)) as Hv.
  apply String.eqb_neq in Hn.
  destruct (Z.ltb_spec ex 0) as [H|H].
  - change (exponent_part (String "e" (String "-" (Digits.of_Z (Z.abs ex))))
            = ex).
    unfold exponent_part.
    change (Ascii.eqb "e" "e") with true.
    change (Ascii.eqb "-" "-") with true. cbn [orb].
    rewrite span_digits_all by assumption. cbn [fst].
    rewrite Hn, Hv. lia.
  - change (exponent_part (String "e" (String "+" (Digits.of_Z (Z.abs ex))))
            = ex).
    unfold exponent_part.
    change (Ascii.eqb "e" "e") with true.
    change (Ascii.eqb "+" "-") with false.
    change (Ascii.eqb "+" "+") with true. cbn [orb].
    rewrite span_digits_all by assumption. cbn [fst].
    rewrite Hn, Hv. lia.
Qed.

Lemma digit_not c d : is_digit d = false -> is_digit c = true -> c <> d.
Proof. intros Hd Hc ->. congruence. Qed.

Lemma prefix_infinity_digit c r :
  is_digit c = true -> String.prefix "Infinity" (String c r) = false.
Proof.
  intros H. cbn [String.prefix].
  destruct (ascii_dec "I" c) as [<-|_]; [discriminate H | reflexivity].
Qed.

Lemma exponent_tail_no_digit t :
  exponent_tail t -> starts_with_digit t = false.
Proof. intros [->|[ex ->]]; reflexivity. Qed.

Lemma unsigned_literal_integer sg ip t :
  ip <> "" -> Str.all is_digit ip = true -> exponent_tail t ->
  unsigned_literal sg (ip ++ t)
  = of_decimal sg (Digits.value ip) (exponent_part t).
Proof.
  intros Hne Hd Ht. unfold unsigned_literal.
  destruct ip as [|c ip]; [congruence|].
  assert (Hc : is_digit c = true)
    by (simpl in Hd; apply andb_prop in Hd; tauto).
  change (String c ip ++ t) with (String c (ip ++ t)).
  rewrite prefix_infinity_digit by assumption.
  change (String c (ip ++ t)) with (String c ip ++ t).
  rewrite span_digits; [|assumption|apply exponent_tail_no_digit, Ht].
  destruct Ht as [->|[ex ->]]; reflexivity.
Qed.

Lemma unsigned_literal_fraction sg ip fp t :
  ip <> "" -> Str.all is_digit ip = true -> Str.all is_digit fp = true ->
  exponent_tail t ->
  unsigned_literal sg (ip ++ "." ++ fp ++ t)
  = of_decimal sg (Digits.value (ip ++ fp))
      (exponent_part t - Z.of_nat (String.length fp)).
Proof.
  intros Hne Hd Hf Ht. unfold unsigned_literal.
  destruct ip as [|c ip]; [congruence|].
  assert (Hc : is_digit c = true)
    by (simpl in Hd; apply andb_prop in Hd; tauto).
  change (String c ip ++ "." ++ fp ++ t)
    with (String c (ip ++ "." ++ fp ++ t)).
  rewrite prefix_infinity_digit by assumption.
  change (String c (ip ++ "." ++ fp ++ t))
    with (String c ip ++ String "." (fp ++ t)).
  rewrite span_digits; [|assumption|reflexivity].
  change (Ascii.eqb "." ".") with true. cbv iota beta.
  rewrite span_digits; [|assumption|apply exponent_tail_no_digit, Ht].
  reflexivity.
Qed.

Lemma parseFloat_signed sg c r :
  is_digit c = true ->
  parseFloat (sign_prefix sg ++ String c r) = unsigned_literal sg (String c r).
Proof.
  intros Hc. unfold parseFloat.
  assert (Hsp : is_space c = false).
  { unfold is_digit, is_space in *. cbv zeta in *.
    apply andb_prop in Hc as [H1 H2].
    apply N.leb_le in H1. apply N.leb_le in H2.
    destruct (N.eqb_spec (N_of_ascii c) 32); [lia|].
    destruct (N.leb_spec (N_of_ascii c) 13);
      [|rewrite andb_false_r; reflexivity].
    lia. }
  destruct sg; simpl.
  - reflexivity.
  - rewrite Hsp.
    destruct (Ascii.eqb_spec c "-") as [->|_]; [discriminate Hc|].
    destruct (Ascii.eqb_spec c "+") as [->|_]; [discriminate Hc|].
    reflexivity.
Qed.

Lemma parseFloat_integer sg ip t :
  ip <> "" -> Str.all is_digit ip = true -> exponent_tail t ->
  parseFloat (sign_prefix sg ++ ip ++ t)
  = of_decimal sg (Digits.value ip) (exponent_part t).
Proof.
  intros Hne Hd Ht. rewrite <- unsigned_literal_integer by assumption.
  destruct ip as [|c ip]; [congruence|].
  apply parseFloat_signed. simpl in Hd. apply andb_prop in Hd. tauto.
Qed.

Lemma parseFloat_fraction sg ip fp t :
  ip <> "" -> Str.all is_digit ip = true -> Str.all is_digit fp = true ->
  exponent_tail t ->
  parseFloat (sign_prefix sg ++ ip ++ "." ++ fp ++ t)
  = of_decimal sg (Digits.value (ip ++ fp))
      (exponent_part t - Z.of_nat (String.length fp)).
Proof.
  intros Hne Hd Hf Ht. rewrite <- unsigned_literal_fraction by assumption.
  destruct ip as [|c ip]; [congruence|].
  apply parseFloat_signed. simpl in Hd. apply andb_prop in Hd. tauto.
Qed.

(** ** The two replacements on decimal strings *)

Lemma drop_trailing_zeros_split s :
  exists j, s = drop_trailing_zeros s ++ Str.zeros j.
Proof.
  induction s as [|c s [j IH]]; [exists O; reflexivity|].
  cbn [drop_trailing_zeros].
  destruct (is_zero_char c) eqn:Hc; cbn [andb].
  - destruct (String.eqb_spec (drop_trailing_zeros s) "") as [E|E].
    + exists (S j). rewrite E in IH. simpl in IH. simpl. rewrite <- IH.
      unfold is_zero_char in Hc. apply Ascii.eqb_eq in Hc. subst c.
      reflexivity.
    + exists j. simpl. congruence.
  - exists j. simpl. congruence.
Qed.

Lemma drop_trailing_zeros_all_zero s :
  Str.all is_zero_char (drop_trailing_zeros s) = true ->
  drop_trailing_zeros s = "".
Proof.
  induction s as [|c s IH]; [reflexivity|].
  cbn [drop_trailing_zeros].
  destruct (is_zero_char c && (drop_trailing_zeros s =? "")%string) eqn:E;
    [reflexivity|].
  cbn [Str.all]. intros H. apply andb_prop in H as [Hc Hs].
  rewrite Hc, (IH Hs) in E. discriminate.
Qed.

Lemma drop_trailing_zeros_empty s :
  (drop_trailing_zeros s =? "")%string = Str.all is_zero_char s.
Proof.
  induction s as [|c s IH]; [reflexivity|].
  cbn [drop_trailing_zeros Str.all]. rewrite <- IH.
  destruct (is_zero_char c && (drop_trailing_zeros s =? "")%string);
    reflexivity.
Qed.

Lemma all_digit_drop_trailing_zeros s :
  Str.all is_digit s = true -> Str.all is_digit (drop_trailing_zeros s) = true.
Proof.
  induction s as [|c s IH]; [reflexivity|].
  cbn [drop_trailing_zeros Str.all]. intros H.
  apply andb_prop in H as [Hc Hs].
  destruct (_ && _); [reflexivity|]. cbn [Str.all]. rewrite Hc. auto.
Qed.

Lemma replace_fraction_zeros_plain s :
  Str.count "." s = O -> replace_fraction_zeros s = s.
Proof.
  induction s as [|c s IH]; [reflexivity|].
  cbn [Str.count replace_fraction_zeros].
  destruct (Ascii.eqb c "."); [discriminate|].
  intros H. rewrite IH by exact H. reflexivity.
Qed.

Lemma replace_dot_zeros_plain s :
  Str.count "." s = O -> replace_dot_zeros s = s.
Proof.
  induction s as [|c s IH]; [reflexivity|].
  cbn [Str.count replace_dot_zeros].
  destruct (Ascii.eqb c "."); [discriminate|].
  intros H. cbn [andb]. rewrite IH by exact H. reflexivity.
Qed.

Lemma replace_fraction_zeros_point pre t :
  Str.count "." pre = O ->
  replace_fraction_zeros (pre ++ String "." t)
  = pre ++ String "." (match match_fraction_zeros t with
                       | Some u => u
                       | None => replace_fraction_zeros t
                       end).
Proof.
  induction pre as [|c pre IH].
  - intros _. cbn [append replace_fraction_zeros].
    change (Ascii.eqb "." ".") with true. cbv iota.
    destruct (match_fraction_zeros t); reflexivity.
  - cbn [Str.count append replace_fraction_zeros].
    destruct (Ascii.eqb c "."); [discriminate|].
    intros H. rewrite IH by exact H. reflexivity.
Qed.

Lemma replace_dot_zeros_point pre t :
  Str.count "." pre = O ->
  replace_dot_zeros (pre ++ String "." t)
  = pre ++ (if negb (t =? "")%string && Str.all is_zero_char t then ""
            else String "." (replace_dot_zeros t)).
Proof.
  induction pre as [|c pre IH].
  - intros _. cbn [append replace_dot_zeros].
    change (Ascii.eqb "." ".") with true. cbn [andb]. reflexivity.
  - cbn [Str.count append replace_dot_zeros].
    destruct (Ascii.eqb c "."); [discriminate|].
    intros H. cbn [andb]. rewrite IH by exact H. reflexivity.
Qed.

Lemma includes_append c s t :
  Str.includes c (s ++ t) = Str.includes c s || Str.includes c t.
Proof.
  induction s as [|a s IH]; [reflexivity|].
  cbn [append Str.includes]. rewrite IH. apply orb_assoc.
Qed.

Lemma includes_point pre t : Str.includes "." (pre ++ String "." t) = true.
Proof.
  rewrite includes_append. cbn [Str.includes].
  change (Ascii.eqb "." ".") with true. cbn [orb]. apply orb_true_r.
Qed.

Lemma trim_fraction_plain s : Str.count "." s = O -> trim_fraction s = s.
Proof.
  intros H. unfold trim_fraction. rewrite count_includes by exact H.
  reflexivity.
Qed.

Lemma trim_fraction_fixed pre fp :
  Str.count "." pre = O -> Str.all is_digit fp = true -> fp <> "" ->
  trim_fraction (pre ++ String "." fp)
  = pre ++ (if (drop_trailing_zeros fp =? "")%string then ""
            else String "." (drop_trailing_zeros fp)).
Proof.
  intros Hp Hd Hne. unfold trim_fraction.
  rewrite includes_point, replace_fraction_zeros_point by exact Hp.
  pose proof (digits_no_dot fp Hd) as Hfd.
  pose proof (digits_no_dot _ (all_digit_drop_trailing_zeros fp Hd)) as Htd.
  unfold match_fraction_zeros. rewrite Hd. cbn [andb].
  set (t := drop_trailing_zeros fp) in *.
  apply String.eqb_neq in Hne.
  destruct (String.eqb_spec t "") as [Et|Et]; cbn [negb andb].
  - rewrite replace_fraction_zeros_plain by exact Hfd.
    rewrite replace_dot_zeros_point by exact Hp.
    unfold t in Et. apply (f_equal (fun s => (s =? "")%string)) in Et.
    rewrite drop_trailing_zeros_empty in Et. simpl in Et.
    rewrite Hne, Et. reflexivity.
  - assert (Hz : Str.all is_zero_char t = false).
    { destruct (Str.all is_zero_char t) eqn:E; [|reflexivity].
      apply drop_trailing_zeros_all_zero in E. contradiction. }
    destruct (String.eqb_spec t fp) as [Ef|Ef]; cbn [negb].
    + rewrite replace_fraction_zeros_plain by exact Hfd.
      rewrite replace_dot_zeros_point by exact Hp.
      rewrite <- Ef, Hz, andb_false_r.
      rewrite replace_dot_zeros_plain by exact Htd. reflexivity.
    + rewrite replace_dot_zeros_point by exact Hp.
      rewrite Hz, andb_false_r.
      rewrite replace_dot_zeros_plain by exact Htd. reflexivity.
Qed.

Lemma trim_fraction_exponent pre fp ex :
  Str.count "." pre = O -> Str.all is_digit fp = true ->
  trim_fraction (pre ++ String "." (fp ++ exponent_suffix ex))
  = pre ++ String "." (fp ++ exponent_suffix ex).
Proof.
  intros Hp Hd. unfold trim_fraction.
  rewrite includes_point, replace_fraction_zeros_point by exact Hp.
  assert (Hc : Str.count "." (fp ++ exponent_suffix ex) = O).
  { rewrite count_append, count_exponent_suffix, digits_no_dot by exact Hd.
    reflexivity. }
  assert (Hm : match_fraction_zeros (fp ++ exponent_suffix ex) = None).
  { unfold match_fraction_zeros. rewrite all_append.
    replace (Str.all is_digit (exponent_suffix ex)) with false by reflexivity.
    rewrite andb_false_r. reflexivity. }
  rewrite Hm, replace_fraction_zeros_plain by exact Hc.
  rewrite replace_dot_zeros_point by exact Hp.
  rewrite all_append.
  replace (Str.all is_zero_char (exponent_suffix ex)) with false
    by reflexivity.
  rewrite !andb_false_r, replace_dot_zeros_plain by exact Hc. reflexivity.
Qed.

(** ** Reading back the output of the layouts *)

Lemma count_sign_digits c sg ip :
  is_digit c = false -> c <> "-"%char -> Str.all is_digit ip = true ->
  Str.count c (sign_prefix sg ++ ip) = O.
Proof.
  intros Hc Hm Hd. rewrite count_append, (all_count is_digit c ip Hc Hd).
  destruct sg; simpl; [|reflexivity].
  destruct (Ascii.eqb_spec "-" c); [congruence | reflexivity].
Qed.

Lemma parse_trim_integer sg ip t :
  ip <> "" -> Str.all is_digit ip = true -> exponent_tail t ->
  parseFloat (trim_fraction (sign_prefix sg ++ ip ++ t))
  = of_decimal sg (Digits.value ip) (exponent_part t).
Proof.
  intros Hne Hd Ht. rewrite trim_fraction_plain.
  - apply parseFloat_integer; assumption.
  - rewrite <- append_assoc, count_append, count_sign_digits;
      [|reflexivity|discriminate|exact Hd].
    destruct Ht as [->|[ex ->]]; [reflexivity|apply count_exponent_suffix].
Qed.

Lemma parse_trim_fixed sg ip fp :
  ip <> "" -> Str.all is_digit ip = true -> Str.all is_digit fp = true ->
  fp <> "" ->
  parseFloat (trim_fraction (sign_prefix sg ++ ip ++ String "." fp))
  = of_decimal sg (Digits.value (ip ++ fp))
      (- Z.of_nat (String.length fp)).
Proof.
  intros Hne Hd Hf Hfne.
  rewrite <- append_assoc, trim_fraction_fixed;
    [|apply count_sign_digits; [reflexivity|discriminate|exact Hd]
     |exact Hf|exact Hfne].
  destruct (drop_trailing_zeros_split fp) as [j Ej].
  pose proof (all_digit_drop_trailing_zeros fp Hf) as Ht.
  set (t := drop_trailing_zeros fp) in *.
  assert (Hval : Digits.value (ip ++ fp)
                 = Digits.value (ip ++ t) * 10 ^ Z.of_nat j).
  { rewrite Ej, <- append_assoc, (value_append (ip ++ t)), value_zeros,
      length_zeros. lia. }
  assert (Hlen : - Z.of_nat (String.length fp)
                 = - Z.of_nat (String.length t) - Z.of_nat j).
  { rewrite Ej at 1. rewrite length_append, length_zeros. lia. }
  assert (Hnn : 0 <= Digits.value (ip ++ t)).
  { apply value_nonneg. rewrite all_append, Hd, Ht. reflexivity. }
  rewrite Hval, Hlen, of_decimal_shift by lia.
  destruct (String.eqb_spec t "") as [Et|Et].
  - rewrite Et, append_assoc. rewrite !append_nil_r.
    rewrite <- (append_nil_r ip) at 1.
    rewrite parseFloat_integer; [reflexivity | exact Hne | exact Hd |].
    left. reflexivity.
  - rewrite append_assoc.
    rewrite <- (append_nil_r t) at 1.
    change (ip ++ String "." (t ++ "")) with (ip ++ "." ++ t ++ "").
    rewrite parseFloat_fraction;
      [reflexivity | exact Hne | exact Hd | exact Ht | left; reflexivity].
Qed.

Lemma parse_trim_exponent sg ip fp ex :
  ip <> "" -> Str.all is_digit ip = true -> Str.all is_digit fp = true ->
  parseFloat (trim_fraction
                (sign_prefix sg ++ ip ++ String "." (fp ++ exponent_suffix ex)))
  = of_decimal sg (Digits.value (ip ++ fp))
      (ex - Z.of_nat (String.length fp)).
Proof.
  intros Hne Hd Hf.
  rewrite <- append_assoc, trim_fraction_exponent;
    [|apply count_sign_digits; [reflexivity|discriminate|exact Hd]|exact Hf].
  rewrite append_assoc.
  change (ip ++ String "." (fp ++ exponent_suffix ex))
    with (ip ++ "." ++ fp ++ exponent_suffix ex).
  rewrite parseFloat_fraction;
    [|exact Hne|exact Hd|exact Hf|right; exists ex; reflexivity].
  rewrite exponent_part_suffix. reflexivity.
Qed.

Lemma all_take p n s : Str.all p s = true -> Str.all p (Str.take n s) = true.
Proof.
  revert s. induction n as [|n IH]; intros [|c s]; simpl; auto.
  intros H. apply andb_prop in H as [Hc Hs]. rewrite Hc. simpl. auto.
Qed.

Lemma all_drop p n s : Str.all p s = true -> Str.all p (Str.drop n s) = true.
Proof.
  revert s. induction n as [|n IH]; intros [|c s]; simpl; auto.
  intros H. apply andb_prop in H as [Hc Hs]. auto.
Qed.

Lemma length_drop n s :
  String.length (Str.drop n s) = (String.length s - n)%nat.
Proof.
  revert s. induction n as [|n IH]; intros [|c s]; simpl; auto.
Qed.

Lemma length_take n s :
  (n <= String.length s)%nat -> String.length (Str.take n s) = n.
Proof.
  revert s. induction n as [|n IH]; intros [|c s]; simpl; auto; try lia.
  intros H. rewrite IH; lia.
Qed.

Lemma not_empty_length s : (0 < String.length s)%nat -> s <> "".
Proof. destruct s; simpl; [lia | discriminate]. Qed.

Lemma parse_point_after sg j m t :
  (0 < j < String.length m)%nat -> Str.all is_digit m = true ->
  exponent_tail t ->
  parseFloat (trim_fraction (sign_prefix sg ++ point_after j m ++ t))
  = of_decimal sg (Digits.value m)
      (exponent_part t - (Z.of_nat (String.length m) - Z.of_nat j)).
Proof.
  intros Hj Hm Ht. unfold point_after.
  assert (Hip : Str.take j m <> "")
    by (apply not_empty_length; rewrite length_take; lia).
  assert (Hfp : Str.drop j m <> "")
    by (apply not_empty_length; rewrite length_drop; lia).
  pose proof (all_take is_digit j m Hm) as Hdi.
  pose proof (all_drop is_digit j m Hm) as Hdf.
  assert (Hl : Z.of_nat (String.length (Str.drop j m))
               = Z.of_nat (String.length m) - Z.of_nat j)
    by (rewrite length_drop; lia).
  rewrite !append_assoc.
  change ("." ++ Str.drop j m ++ t) with (String "." (Str.drop j m ++ t)).
  destruct Ht as [->|[ex ->]].
  - rewrite append_nil_r, parse_trim_fixed by assumption.
    rewrite take_drop, Hl. f_equal.
  - rewrite parse_trim_exponent by assumption.
    rewrite take_drop, Hl, exponent_part_suffix. reflexivity.
Qed.

Lemma parse_leading_zeros sg z m :
  Str.all is_digit m = true -> m <> "" ->
  parseFloat (trim_fraction (sign_prefix sg ++ "0." ++ Str.zeros z ++ m))
  = of_decimal sg (Digits.value m)
      (- (Z.of_nat z + Z.of_nat (String.length m))).
Proof.
  intros Hm Hne.
  change ("0." ++ Str.zeros z ++ m) with ("0" ++ String "." (Str.zeros z ++ m)).
  rewrite parse_trim_fixed.
  - rewrite length_append, length_zeros.
    change ("0" ++ Str.zeros z ++ m) with (Str.zeros (S z) ++ m).
    rewrite value_append, value_zeros. f_equal; lia.
  - discriminate.
  - reflexivity.
  - rewrite all_append, all_digit_zeros. exact Hm.
  - destruct z; [exact Hne | discriminate].
Qed.

Lemma digit_fixed_char s :
  Str.all is_digit s = true -> Str.all fixed_char s = true.
Proof.
  apply all_impl. intros c H. unfold fixed_char. rewrite H. reflexivity.
Qed.

Lemma fixed_no_exponent s :
  Str.all fixed_char s = true -> Str.includes "e" s = false.
Proof.
  intros H. apply count_includes. apply (all_count fixed_char); auto.
Qed.

Lemma fixed_sign_prefix sg : Str.all fixed_char (sign_prefix sg) = true.
Proof. destruct sg; reflexivity. Qed.

Lemma fixed_point_after j m :
  Str.all is_digit m = true -> Str.all fixed_char (point_after j m) = true.
Proof.
  intros H. unfold point_after. rewrite !all_append.
  rewrite (digit_fixed_char _ (all_take _ j m H)).
  rewrite (digit_fixed_char _ (all_drop _ j m H)). reflexivity.
Qed.

(** In fixed notation the twelve digits are read back as the decimal
    they denote. *)
Lemma parse_precision_layout sg n e10 :
  (10 ^ 11 <= n < 10 ^ 12)%Z -> (-6 <= e10 <= 11)%Z ->
  Str.includes "e"
    (sign_prefix sg ++ precision_layout 12 (Digits.render 12 n) e10) = false
  /\ parseFloat
       (trim_fraction
          (sign_prefix sg ++ precision_layout 12 (Digits.render 12 n) e10))
     = of_decimal sg n (e10 - 11).
Proof.
  intros Hn He.
  pose proof (all_digit_render 12 n) as Hd.
  pose proof (length_render 12 n) as Hl.
  pose proof (value_render 12 n ltac:(simpl; lia)) as Hv.
  set (m := Digits.render 12 n) in *.
  assert (Hne : m <> "") by (apply not_empty_length; lia).
  unfold precision_layout.
  destruct (Z.ltb_spec e10 (-6)); [lia|].
  destruct (Z.leb_spec (Z.of_nat 12) e10); [lia|]. cbn [orb].
  destruct (Z.eqb_spec e10 (Z.of_nat 12 - 1)) as [E|E].
  - split.
    + apply fixed_no_exponent. rewrite all_append, fixed_sign_prefix.
      apply digit_fixed_char, Hd.
    + rewrite <- (append_nil_r m) at 1.
      rewrite parse_trim_integer; [|exact Hne|exact Hd|left; reflexivity].
      rewrite Hv. f_equal. change (Z.of_nat 12 - 1) with 11 in E.
      cbn [exponent_part]. lia.
  - destruct (Z.leb_spec 0 e10).
    + split.
      * apply fixed_no_exponent. rewrite all_append, fixed_sign_prefix.
        apply fixed_point_after, Hd.
      * rewrite <- (append_nil_r (point_after _ m)).
        change (Z.of_nat 12 - 1) with 11 in E.
        rewrite parse_point_after; [|lia|exact Hd|left; reflexivity].
        rewrite Hv, Hl. f_equal. cbn [exponent_part]. lia.
    + split.
      * apply fixed_no_exponent. rewrite !all_append, fixed_sign_prefix.
        rewrite (digit_fixed_char _ (all_digit_zeros _)).
        rewrite (digit_fixed_char _ Hd). reflexivity.
      * rewrite parse_leading_zeros by assumption.
        rewrite Hv, Hl. f_equal. lia.
Qed.

(** Outside fixed notation the output of [toPrecision] has an [e]. *)
Lemma precision_layout_exponent sg m e10 :
  (e10 < -6 \/ 12 <= e10)%Z ->
  Str.includes "e" (sign_prefix sg ++ precision_layout 12 m e10) = true.
Proof.
  intros He. unfold precision_layout.
  replace ((e10 <? -6) || (Z.of_nat 12 <=? e10)) with true.
  - rewrite !includes_append.
    replace (Str.includes "e" (exponent_suffix e10)) with true by reflexivity.
    rewrite !orb_true_r. reflexivity.
  - symmetry. apply orb_true_iff.
    destruct He; [left; apply Z.ltb_lt | right; apply Z.leb_le]; simpl; lia.
Qed.

(** The output of [Number::toString] is read back as the decimal it
    denotes. *)
Lemma parse_to_string_layout sg s k n :
  (1 <= k <= 17)%Z -> (10 ^ (k - 1) <= s < 10 ^ k)%Z ->
  parseFloat (trim_fraction (sign_prefix sg ++ to_string_layout s k n))
  = of_decimal sg s (n - k).
Proof.
  intros Hk Hs.
  assert (Hs0 : (0 < s)%Z).
  { pose proof (Z.pow_pos_nonneg 10 (k - 1) ltac:(lia) ltac:(lia)). lia. }
  pose proof (all_digit_render (Z.to_nat k) s) as Hd.
  pose proof (length_render (Z.to_nat k) s) as Hl.
  pose proof (value_render (Z.to_nat k) s
                ltac:(rewrite Z2Nat.id by lia; lia)) as Hv.
  unfold to_string_layout. cbv zeta.
  set (ds := Digits.render (Z.to_nat k) s) in *.
  assert (Hne : ds <> "") by (apply not_empty_length; lia).
  destruct (Z.leb_spec k n) as [H1|H1]; cbn [andb];
    [destruct (Z.leb_spec n 21) as [H2|H2]|].
  - rewrite <- (append_nil_r (ds ++ Str.zeros _)).
    rewrite parse_trim_integer;
      [|destruct ds; [congruence|discriminate]
       |rewrite all_append, Hd, all_digit_zeros; reflexivity
       |left; reflexivity].
    rewrite value_append, value_zeros, length_zeros, Hv.
    rewrite Z2Nat.id by lia. rewrite Z.add_0_r.
    cbn [exponent_part].
    rewrite <- (of_decimal_shift sg s (n - k) (n - k)) by lia.
    f_equal. lia.
  - destruct (Z.ltb_spec 0 n); [|lia]. cbn [andb].
    destruct (Z.ltb_spec (-6) n); [|lia].
    destruct (Z.leb_spec n 0); [lia|]. cbn [andb].
    destruct (Z.eqb_spec k 1) as [E1|E1].
    + rewrite parse_trim_integer;
        [|exact Hne|exact Hd|right; eexists; reflexivity].
      rewrite exponent_part_suffix, Hv. f_equal. lia.
    + rewrite parse_point_after;
        [|lia|exact Hd|right; eexists; reflexivity].
      rewrite exponent_part_suffix, Hv, Hl. f_equal. lia.
  - destruct (Z.ltb_spec 0 n) as [H3|H3];
      [destruct (Z.leb_spec n 21) as [H2|H2]|]; cbn [andb].
    + rewrite <- (append_nil_r (point_after _ ds)).
      rewrite parse_point_after; [|lia|exact Hd|left; reflexivity].
      rewrite Hv, Hl. f_equal. cbn [exponent_part]. lia.
    + destruct (Z.ltb_spec (-6) n); [|lia].
      destruct (Z.leb_spec n 0); [lia|]. cbn [andb].
      destruct (Z.eqb_spec k 1) as [E1|E1].
      * rewrite parse_trim_integer;
          [|exact Hne|exact Hd|right; eexists; reflexivity].
        rewrite exponent_part_suffix, Hv. f_equal. lia.
      * rewrite parse_point_after;
          [|lia|exact Hd|right; eexists; reflexivity].
        rewrite exponent_part_suffix, Hv, Hl. f_equal. lia.
    + destruct (Z.ltb_spec (-6) n) as [H4|H4];
        [destruct (Z.leb_spec n 0) as [H5|H5]; [|lia]|]; cbn [andb].
      * rewrite parse_leading_zeros by assumption.
        rewrite Hv, Hl. f_equal. lia.
      * destruct (Z.eqb_spec k 1) as [E1|E1].
        -- rewrite parse_trim_integer;
             [|exact Hne|exact Hd|right; eexists; reflexivity].
           rewrite exponent_part_suffix, Hv. f_equal. lia.
        -- rewrite parse_point_after;
             [|lia|exact Hd|right; eexists; reflexivity].
           rewrite exponent_part_suffix, Hv, Hl. f_equal. lia.
Qed.

(** ** Valid binary64 values *)

Lemma digits2_pos_bounds m :
  2 ^ (Zpos (digits2_pos m) - 1) <= Zpos m < 2 ^ Zpos (digits2_pos m).
Proof.
  induction m as [m IH|m IH|]; cbn [digits2_pos].
  - rewrite Pos2Z.inj_succ.
    replace (Z.succ (Zpos (digits2_pos m)) - 1)
      with (Z.succ (Zpos (digits2_pos m) - 1)) by lia.
    rewrite !Z.pow_succ_r by lia. lia.
  - rewrite Pos2Z.inj_succ.
    replace (Z.succ (Zpos (digits2_pos m)) - 1)
      with (Z.succ (Zpos (digits2_pos m) - 1)) by lia.
    rewrite !Z.pow_succ_r by lia. lia.
  - simpl. lia.
Qed.

Lemma bounded_bounded64 m e :
  bounded prec emax m e = true -> bounded64 (Zpos m) e.
Proof.
  unfold bounded, canonical_mantissa, fexp, SpecFloat.emin, prec, emax.
  intros H. apply andb_prop in H as [H1 H2].
  apply Z.eqb_eq in H1. apply Z.leb_le in H2.
  pose proof (digits2_pos_bounds m) as [B1 B2].
  set (d := Zpos (digits2_pos m)) in *.
  assert (Hd : d <= 53) by lia.
  assert (Hp : 2 ^ d <= 2 ^ 53) by (apply Z.pow_le_mono_r; lia).
  unfold bounded64. split; [lia|]. split; [lia|].
  destruct (Z.eq_dec d 53) as [E|E].
  - left. rewrite E in B1. exact B1.
  - right. lia.
Qed.

Lemma of_decimal_sign sg a sc m e :
  of_decimal false a sc = S754_finite false m e ->
  of_decimal sg a sc = S754_finite sg m e.
Proof.
  unfold of_decimal. destruct (a =? 0); [discriminate|].
  rewrite !of_rat_unfold. cbv zeta.
  destruct (rne _ _ =? 2 ^ 53).
  - destruct (2 ^ 52) as [|p|p]; try discriminate.
    destruct (971 <? _); [discriminate|]. congruence.
  - destruct (rne _ _) as [|p|p]; try discriminate.
    destruct (971 <? _); [discriminate|]. congruence.
Qed.

Lemma formatNumber_finite sg m e :
  formatNumber (S754_finite sg m e)
  = let s := toPrecision 12 (S754_finite sg m e) in
    trim_fraction (if Str.includes "e" s
                   then toString (S754_finite sg m e) else s).
Proof. reflexivity. Qed.

Lemma toPrecision_finite sg m e :
  toPrecision 12 (S754_finite sg m e)
  = let '(n, e10) := precision_digits 12 (num m e) (den e) in
    sign_prefix sg ++ precision_layout 12 (Digits.render 12 n) e10.
Proof. reflexivity. Qed.

Lemma toString_finite sg m e :
  toString (S754_finite sg m e)
  = let '(s, k, n) :=
      shortest_digits 16 (S754_finite false m e) (num m e) (den e)
        (ilog10 (num m e) (den e)) 1 in
    sign_prefix sg ++ to_string_layout s k n.
Proof. reflexivity. Qed.

(** C9: for every finite number [x], parsing [formatNumber x] back to a
    number and formatting it again yields the same string. *)
Theorem format_round_trip_C9 x :
  is_finite x = true -> valid_binary prec emax x = true ->
  formatNumber (parseFloat (formatNumber x)) = formatNumber x.
Proof.
  destruct x as [sg|sg| |sg m e]; try discriminate.
  - intros _ _. destruct sg; vm_compute; reflexivity.
  - intros _ Hv. simpl in Hv. apply bounded_bounded64 in Hv.
    rewrite (formatNumber_finite sg m e). cbv zeta.
    rewrite toPrecision_finite.
    pose proof (precision_digits_range (num m e) (den e)
                  (num_pos m e) (den_pos e)) as Hn.
    destruct (precision_digits 12 (num m e) (den e)) as [n e10] eqn:Hpd.
    cbn [fst] in Hn.
    destruct (Z_lt_le_dec e10 (-6)) as [He|He];
      [|destruct (Z_le_gt_dec 12 e10) as [He'|He']].
    + rewrite precision_layout_exponent by lia.
      rewrite toString_finite.
      destruct (shortest_digits _ _ _ _ _ _) as [[s k] nn] eqn:Hsd.
      pose proof Hsd as Hsd'.
      apply shortest_digits_spec in Hsd; [|exact Hv|lia|reflexivity].
      destruct Hsd as (Hx & Hs & Hk).
      rewrite parse_to_string_layout by assumption.
      rewrite (of_decimal_sign sg _ _ _ _ Hx).
      rewrite (formatNumber_finite sg m e). cbv zeta.
      rewrite toPrecision_finite, Hpd.
      rewrite precision_layout_exponent by lia.
      rewrite toString_finite, Hsd'. reflexivity.
    + rewrite precision_layout_exponent by lia.
      rewrite toString_finite.
      destruct (shortest_digits _ _ _ _ _ _) as [[s k] nn] eqn:Hsd.
      pose proof Hsd as Hsd'.
      apply shortest_digits_spec in Hsd; [|exact Hv|lia|reflexivity].
      destruct Hsd as (Hx & Hs & Hk).
      rewrite parse_to_string_layout by assumption.
      rewrite (of_decimal_sign sg _ _ _ _ Hx).
      rewrite (formatNumber_finite sg m e). cbv zeta.
      rewrite toPrecision_finite, Hpd.
      rewrite precision_layout_exponent by lia.
      rewrite toString_finite, Hsd'. reflexivity.
    + destruct (parse_precision_layout sg n e10 Hn ltac:(lia)) as [Hi Hp].
      rewrite Hi, Hp.
      destruct (precision_digits_of_decimal sg n e10 Hn ltac:(lia))
        as (m' & e' & Hx & Hpd').
      rewrite Hx, (formatNumber_finite sg m' e'). cbv zeta.
      rewrite toPrecision_finite, Hpd', Hi. reflexivity.
Qed.

Lemma format_round_trip_C9_witness :
  formatNumber
    (parseFloat (formatNumber (S754_finite false 5404319552844596 (-54))))
  = formatNumber (S754_finite false 5404319552844596 (-54)).
Proof. apply format_round_trip_C9; reflexivity. Defined.

(** * Further properties of the script *)

(** ** The sign key *)

Lemma flip_sign_involutive s :
  double_minus s = false -> flip_sign (flip_sign s) = s.
Proof.
  unfold double_minus, flip_sign.
  destruct s as [|a s]; [reflexivity|]. simpl.
  destruct (Ascii.eqb_spec a "-") as [->|Ha]; simpl.
  - intros H. rewrite H. reflexivity.
  - intros _. change (Ascii.eqb "-" "-") with true. reflexivity.
Qed.

(** X1: two [toggleSign] calls in a row restore the variables and show
    the operand again: the input when it is neither empty, nor ["-"],
    nor begins with two minus signs; the stored operand when the input
    is empty and it does not begin with two minus signs.  From the
    input ["-"] with nothing stored they lead to ["-0"] instead. *)
Theorem toggle_sign_twice_X1 st :
  (input st <> "" -> input st <> "-" -> double_minus (input st) = false ->
   vars (toggleSign (toggleSign st)) = vars st
   /\ display (toggleSign (toggleSign st)) = input st)
  /\ (input st = "" -> forall s, stored st = Some s ->
      double_minus s = false ->
      vars (toggleSign (toggleSign st)) = vars st
      /\ display (toggleSign (toggleSign st)) = s)
  /\ (input st = "-" -> stored st = None ->
      input (toggleSign (toggleSign st)) = "-0").
Proof.
  destruct st as [i s o d t]. cbn [input stored].
  repeat apply conj.
  - intros Hne Hm Hd.
    assert (Hf : flip_sign i <> "").
    { unfold flip_sign. destruct i as [|a r]; [congruence|].
      simpl. destruct (Ascii.eqb_spec a "-") as [->|_]; [|discriminate].
      destruct r; [congruence | discriminate]. }
    apply String.eqb_neq in Hne, Hf.
    unfold toggleSign, vars, Str.truthy. cbn [input stored operator].
    rewrite Hne. cbn [negb input stored operator display]. rewrite Hf.
    cbn [negb input stored operator display].
    rewrite flip_sign_involutive by exact Hd. auto.
  - intros -> s0 -> Hd. unfold toggleSign, vars, Str.truthy.
    cbn. rewrite flip_sign_involutive by exact Hd. auto.
  - intros -> ->. reflexivity.
Qed.

Lemma toggle_sign_twice_X1_witness :
  vars (toggleSign (toggleSign twenty)) = vars twenty
  /\ input (toggleSign (toggleSign lone_minus)) = "-0".
Proof.
  split.
  - apply (proj1 (toggle_sign_twice_X1 twenty));
      [discriminate | discriminate | reflexivity].
  - apply (proj2 (proj2 (toggle_sign_twice_X1 lone_minus))); reflexivity.
Defined.

(** ** Backspace *)

Lemma slice_init_append s c : Str.slice_init (s ++ char c) = s.
Proof.
  induction s as [|a s IH]; [reflexivity|].
  change (String a s ++ char c) with (String a (s ++ char c)).
  cbn [Str.slice_init]. rewrite IH.
  destruct (s ++ char c) eqn:E; [|reflexivity].
  destruct s; discriminate.
Qed.

(** X2: [Backspace] undoes a key that [setInputChar] appended (any key
    but a second ['.'], a key on the input ["0"], or ['.'] on the empty
    input): the variables are what they were, and the display shows the
    input again, or ["0"] when the input was empty. *)
Theorem backspace_undoes_key_X2 st c :
  (c <> "."%char -> input st <> "0") ->
  (c = "."%char -> Str.includes "." (input st) = false /\ input st <> "") ->
  input (step st (Digit c)) = input st ++ char c
  /\ vars (step (step st (Digit c)) Backspace) = vars st
  /\ display (step (step st (Digit c)) Backspace)
     = (if (input st =? "")%string then "0" else input st).
Proof.
  intros Hd Hp.
  assert (Hi : step st (Digit c)
               = mkState (input st ++ char c) (stored st) (operator st)
                   (input st ++ char c) (status st)).
  { simpl. destruct (Ascii.eqb_spec c ".") as [->|Hc].
    - destruct (Hp eq_refl) as [Hn He].
      change (char ".") with ".". rewrite setInputChar_dot, Hn.
      apply String.eqb_neq in He. rewrite He. reflexivity.
    - rewrite setInputChar_digit by assumption.
      specialize (Hd Hc). apply String.eqb_neq in Hd. rewrite Hd.
      reflexivity. }
  rewrite Hi. cbn [input step]. unfold pressBackspace, vars, Str.truthy.
  cbn [input stored operator display status].
  assert (Hne : (input st ++ char c =? "")%string = false).
  { apply String.eqb_neq. destruct (input st); discriminate. }
  rewrite Hne. cbn [negb input stored operator display].
  rewrite slice_init_append.
  repeat split. destruct (input st =? "")%string; reflexivity.
Qed.

Lemma backspace_undoes_key_X2_witness :
  input (step twenty (Digit "5")) = input twenty ++ char "5"
  /\ vars (step (step twenty (Digit "5")) Backspace) = vars twenty
  /\ display (step (step twenty (Digit "5")) Backspace)
     = (if (input twenty =? "")%string then "0" else input twenty).
Proof.
  apply (backspace_undoes_key_X2 twenty "5").
  - intros _. discriminate.
  - intros H. discriminate H.
Defined.

(** ** Equals, twice *)

(** X3: [pressEquals] is idempotent: a second call changes neither the
    variables, nor the display, nor the status line. *)
Theorem equals_idempotent_X3 st :
  pressEquals (pressEquals st) = pressEquals st.
Proof.
  destruct st as [i s o d t]. unfold pressEquals at 2 3.
  cbn [input stored operator].
  destruct (negb (truthy o)) eqn:Ht.
  - unfold pressEquals, refresh. cbn [input stored operator].
    destruct (Str.truthy i) eqn:Hi; cbn [input stored operator].
    + rewrite Ht, Hi. reflexivity.
    + destruct s as [v|]; [destruct (Str.truthy v) eqn:Hv|];
        cbn [input stored operator]; rewrite Ht, Hi, ?Hv; reflexivity.
  - cbv zeta. destruct (computeLocal _ _ _) as [r|e].
    + unfold pressEquals, refresh, Str.truthy. cbn.
      destruct (r =? "")%string; reflexivity.
    + reflexivity.
Qed.

(** ** The operators that reach [computeLocal] *)

Lemma computeLocal_unsupported a b op :
  computeLocal a b op = Err "Unsupported operator"
  <-> is_nan (parseFloat a) = false /\ is_nan (parseFloat b) = false
      /\ existsb (String.eqb op) ["+"; "-"; "*"; "/"; "%"] = false.
Proof.
  unfold computeLocal. cbn [existsb].
  destruct (is_nan (parseFloat a)); destruct (is_nan (parseFloat b));
    cbn [orb]; try (split; [discriminate | intros (H1 & H2 & _); discriminate]).
  destruct (op =? "+")%string;
    [split; [discriminate|intros (_&_&H); discriminate]|].
  destruct (op =? "-")%string;
    [split; [discriminate|intros (_&_&H); discriminate]|].
  destruct (op =? "*")%string;
    [split; [discriminate|intros (_&_&H); discriminate]|].
  destruct (op =? "/")%string.
  { destruct (is_zero (parseFloat b));
      (split; [discriminate|intros (_&_&H); discriminate]). }
  destruct (op =? "%")%string.
  { destruct (is_zero (parseFloat b));
      (split; [discriminate|intros (_&_&H); discriminate]). }
  split; auto.
Qed.

Lemma step_known_operator st ev :
  known_operator st = true -> known_operator (step st ev) = true.
Proof.
  destruct st as [i [s|] [o|] d t]; unfold known_operator;
    cbn [operator]; intros H;
    destruct ev; cbn [step];
    unfold setInputChar, toggleSign, pressPercent, pressOperator,
      pressEquals, refresh, pressBackspace, clearAll, failed;
    cbn [input stored operator display status truthy or_else];
    repeat (split_bool; cbn [input stored operator display status]);
    try exact H; try reflexivity; try (destruct op; reflexivity);
    match goal with
    | |- context [computeLocal ?a ?b ?c] => destruct (computeLocal a b c)
    end; cbn [input stored operator display status];
    try exact H; try reflexivity; destruct op; reflexivity.
Qed.

Lemma reachable_known_operator st :
  reachable st -> known_operator st = true.
Proof.
  induction 1; [reflexivity | apply step_known_operator; assumption].
Qed.

Lemma computeLocal_symbol a b k :
  computeLocal a b (symbol k) <> Err "Unsupported operator".
Proof.
  intros H. apply computeLocal_unsupported in H as (_ & _ & H).
  destruct k; discriminate.
Qed.

Lemma known_operator_cases st :
  known_operator st = true ->
  operator st = None \/ exists k, operator st = Some (symbol k).
Proof.
  unfold known_operator. destruct (operator st) as [o|]; [|auto].
  cbn [existsb]. intros H. right.
  apply orb_prop in H as [H|H]; [exists Add|].
  2: apply orb_prop in H as [H|H]; [exists Subtract|].
  3: apply orb_prop in H as [H|H]; [exists Multiply|].
  4: apply orb_prop in H as [H|H]; [exists Divide|].
  5: apply orb_prop in H as [H|H]; [exists Modulo | discriminate].
  all: apply String.eqb_eq in H; rewrite H; reflexivity.
Qed.

(** X4: [computeLocal] answers ["Unsupported operator"] exactly when
    both operands parse and the operator is none of [+ - * / %]; in a
    state reachable from the cleared state the pending operator is one
    of the five, and no event raises that error. *)
Theorem unsupported_operator_X4 :
  (forall a b op,
     computeLocal a b op = Err "Unsupported operator"
     <-> is_nan (parseFloat a) = false /\ is_nan (parseFloat b) = false
         /\ existsb (String.eqb op) ["+"; "-"; "*"; "/"; "%"] = false)
  /\ (forall st, reachable st ->
        known_operator st = true
        /\ forall ev, raised st ev <> Some "Unsupported operator").
Proof.
  split; [apply computeLocal_unsupported|].
  intros st Hr.
  pose proof (reachable_known_operator st Hr) as Hk.
  split; [exact Hk|]. intros ev.
  apply known_operator_cases in Hk.
  destruct ev; cbn [raised]; try discriminate.
  - destruct (Str.truthy (input st));
      [destruct (is_nan _); discriminate|].
    destruct (stored st); [destruct (is_nan _)|]; discriminate.
  - destruct (stored st) as [s|]; [|discriminate].
    destruct (Str.truthy (input st)); [|discriminate].
    assert (Ho : exists k, or_else (operator st) (symbol op) = symbol k).
    { destruct Hk as [->|[k ->]]; [exists op; reflexivity|].
      exists k. destruct k; reflexivity. }
    destruct Ho as [k ->].
    destruct (computeLocal _ _ _) eqn:E; [discriminate|].
    intros H. inversion H; subst. apply (computeLocal_symbol _ _ _ E).
  - destruct Hk as [->|[k ->]]; [discriminate|].
    replace (truthy (Some (symbol k))) with true by (destruct k; reflexivity).
    replace (or_else (Some (symbol k)) "") with (symbol k)
      by (destruct k; reflexivity).
    destruct (computeLocal _ _ _) eqn:E; [discriminate|].
    intros H. inversion H; subst. apply (computeLocal_symbol _ _ _ E).
Qed.

Lemma unsupported_operator_X4_witness :
  known_operator five_plus_three = true
  /\ raised five_plus_three Equals <> Some "Unsupported operator".
Proof.
  destruct (proj2 unsupported_operator_X4 five_plus_three) as [H1 H2].
  - apply reachable_run. reflexivity.
  - split; [exact H1 | apply H2].
Defined.

(** ** The display *)

Lemma step_shows_input st ev :
  shows_input st = true -> shows_input (step st ev) = true.
Proof.
  destruct st as [i [s|] [o|] d t]; unfold shows_input;
    cbn [input display]; intros H;
    destruct ev; cbn [step];
    unfold setInputChar, toggleSign, pressPercent, pressOperator,
      pressEquals, refresh, pressBackspace, clearAll, failed;
    cbn [input stored operator display status truthy or_else];
    repeat (split_bool; cbn [input stored operator display status]);
    rewrite ?String.eqb_refl, ?orb_true_r; try exact H; try reflexivity;
    try match goal with
    | |- context [computeLocal ?a ?b ?c] =>
        destruct (computeLocal a b c);
        cbn [input stored operator display status];
        rewrite ?String.eqb_refl, ?orb_true_r; try exact H; try reflexivity
    end.
  all: try (unfold Str.truthy in *;
            repeat match goal with
                   | E : negb (?x =? "")%string = false |- _ =>
                       apply negb_false_iff in E; rewrite E
                   | E : negb (negb (?x =? "")%string) = true |- _ =>
                       apply negb_true_iff, negb_false_iff in E; rewrite E
                   end; reflexivity).
Qed.

(** X5: in every state reachable from the cleared state, an input that
    is not empty is what the display shows. *)
Theorem display_shows_input_X5 st :
  reachable st -> input st <> "" -> display st = input st.
Proof.
  intros Hr.
  assert (H : shows_input st = true).
  { induction Hr; [reflexivity | apply step_shows_input; assumption]. }
  intros Hne. unfold shows_input in H.
  apply String.eqb_neq in Hne. rewrite Hne in H.
  apply String.eqb_eq. exact H.
Qed.

Lemma display_shows_input_X5_witness :
  display five_plus_three = input five_plus_three.
Proof.
  apply display_shows_input_X5.
  - apply reachable_run. reflexivity.
  - discriminate.
Defined.

(** ** An operator after a complete operation *)

(** X6: with a stored operand, an input and a pending operator, an
    [Operator] event evaluates as [Equals] does: the stored operand, the
    input and the display are the same after either; when the
    evaluation succeeds the [Operator] event leaves its own operator
    pending where [Equals] leaves none, and when it fails the two states
    are equal. *)
Theorem chained_operator_X6 st s k op :
  stored st = Some s -> input st <> "" -> operator st = Some (symbol k) ->
  stored (step st (Operator op)) = stored (step st Equals)
  /\ input (step st (Operator op)) = input (step st Equals)
  /\ display (step st (Operator op)) = display (step st Equals)
  /\ (raised st Equals = None ->
      operator (step st (Operator op)) = Some (symbol op)
      /\ operator (step st Equals) = None
      /\ stored (step st Equals)
         = (match computeLocal s (input st) (symbol k) with
            | Ok r => Some r
            | Err _ => None
            end))
  /\ (forall e, raised st Equals = Some e ->
      step st (Operator op) = step st Equals).
Proof.
  intros Hs Hi Ho. cbn [step raised].
  unfold pressOperator, pressEquals, left_operand, right_operand.
  rewrite Hs, Ho.
  assert (Ht : Str.truthy (input st) = true).
  { unfold Str.truthy. apply String.eqb_neq in Hi. rewrite Hi. reflexivity. }
  apply String.eqb_neq in Hi. rewrite Ht, Hi.
  replace (truthy (Some (symbol k))) with true by (destruct k; reflexivity).
  replace (or_else (Some (symbol k)) (symbol op)) with (symbol k)
    by (destruct k; reflexivity).
  replace (or_else (Some (symbol k)) "") with (symbol k)
    by (destruct k; reflexivity).
  cbn [negb]. cbv zeta.
  destruct (computeLocal s (input st) (symbol k)) as [r|e];
    cbn [input stored operator display].
  - repeat split; auto. intros e He. discriminate He.
  - repeat split; auto; discriminate.
Qed.

Lemma chained_operator_X6_witness :
  stored (step five_plus_three (Operator Multiply))
  = stored (step five_plus_three Equals)
  /\ operator (step five_plus_three (Operator Multiply)) = Some "*".
Proof.
  destruct (chained_operator_X6 five_plus_three "5" Add Multiply)
    as (H1 & _ & _ & H2 & _);
    [reflexivity | discriminate | reflexivity |].
  split; [exact H1|]. apply H2. vm_compute. reflexivity.
Defined.

(** ** The keyboard *)

Lemma N_of_ascii_inj a b : N_of_ascii a = N_of_ascii b -> a = b.
Proof.
  intro H. rewrite <- (ascii_N_embedding a), <- (ascii_N_embedding b).
  now rewrite H.
Qed.

Lemma digit_range_spec key :
  String.leb "0" key && String.leb key "9" = digit_range key.
Proof.
  destruct key as [|c r]; [reflexivity|].
  unfold String.leb, digit_range, is_digit.
  cbn [String.compare]. unfold Ascii.compare.
  change (N_of_ascii "0") with 48%N. change (N_of_ascii "9") with 57%N.
  destruct (Ascii.eqb_spec c "9") as [->|Hc].
  - destruct r; reflexivity.
  - assert (Hn : N_of_ascii c <> 57%N).
    { intro H. apply Hc. apply N_of_ascii_inj. exact H. }
    destruct (N.compare_spec 48 (N_of_ascii c)) as [H1|H1|H1];
      destruct (N.compare_spec (N_of_ascii c) 57) as [H2|H2|H2];
      try (exfalso; lia);
      cbn [negb orb andb];
      repeat match goal with
             | |- context [(?a <=? ?b)%N] =>
                 destruct (N.leb_spec a b); try lia
             end;
      try reflexivity; try (destruct r; reflexivity).
Qed.

Lemma toLowerCase_c key :
  (toLowerCase key =? "c")%string = (key =? "c")%string || (key =? "C")%string.
Proof.
  destruct key as [|c r]; [reflexivity|].
  destruct r as [|c' r'].
  - cbn [toLowerCase].
    destruct c as [[|] [|] [|] [|] [|] [|] [|] [|]]; reflexivity.
  - cbn [toLowerCase].
    transitivity false.
    + apply String.eqb_neq. intro H. discriminate H.
    + symmetry. apply orb_false_iff.
      split; apply String.eqb_neq; intro H; discriminate H.
Qed.

Lemma keydown_digit st c :
  digit_key c = true -> keydown (char c) st = (step st (Digit c), true).
Proof.
  intro H. unfold keydown. rewrite digit_range_spec.
  unfold digit_key in H. unfold char, digit_range.
  apply orb_prop in H as [H|H].
  - rewrite H. cbn [String.eqb]. rewrite orb_true_r. reflexivity.
  - apply Ascii.eqb_eq in H. subst c. reflexivity.
Qed.

Lemma keydown_operator st k :
  keydown (symbol k) st = (step st (Operator k), true).
Proof. destruct k; reflexivity. Qed.

(** X7: the [keydown] listener forwards a digit or ['.'] to
    [setInputChar] and an operator symbol to [pressOperator], as the
    [Digit] and [Operator] events do; every key it handles acts as one
    of the public events, except a key of several characters beginning
    with one of ['0'] to ['8'], which [setInputChar] receives whole. *)
Theorem keydown_dispatch_X7 key st :
  (forall c, digit_key c = true ->
     keydown (char c) st = (step st (Digit c), true)) /\
  (forall k, keydown (symbol k) st = (step st (Operator k), true)) /\
  (snd (keydown key st) = true ->
   (exists ev, public ev = true /\ fst (keydown key st) = step st ev) \/
   (exists c r, key = String c r /\ r <> "" /\ is_digit c = true /\
      c <> "9"%char /\ fst (keydown key st) = setInputChar key st)).
Proof.
  split; [intros c Hc; apply keydown_digit; exact Hc|].
  split; [apply keydown_operator|].
  unfold keydown. rewrite digit_range_spec, toLowerCase_c.
  destruct (digit_range key) eqn:Hd; cbn [orb].
  { intros _. destruct key as [|c r]; [discriminate Hd|].
    cbn [digit_range] in Hd. apply andb_prop in Hd as [Hc Hr].
    destruct r as [|c' r'].
    - left. exists (Digit c). split; [|reflexivity].
      cbn [public]. unfold digit_key. rewrite Hc. reflexivity.
    - right. exists c, (String c' r'). cbn [fst].
      rewrite orb_false_r in Hr. apply negb_true_iff in Hr.
      apply Ascii.eqb_neq in Hr.
      repeat split; auto. discriminate. }
  destruct (String.eqb_spec key ".") as [->|_].
  { intros _. left. exists (Digit "."). split; reflexivity. }
  destruct (existsb (String.eqb key) operator_keys) eqn:Ho.
  { intros _. left. unfold operator_keys in Ho. cbn [existsb] in Ho.
    rewrite orb_false_r in Ho.
    apply orb_prop in Ho as [Ho|Ho]; [exists (Operator Add)|].
    2: apply orb_prop in Ho as [Ho|Ho]; [exists (Operator Subtract)|].
    3: apply orb_prop in Ho as [Ho|Ho]; [exists (Operator Multiply)|].
    4: apply orb_prop in Ho as [Ho|Ho];
         [exists (Operator Divide)|exists (Operator Modulo)].
    all: apply String.eqb_eq in Ho; rewrite Ho; split; reflexivity. }
  destruct ((key =? "Enter")%string || (key =? "=")%string).
  { intros _. left. exists Equals. split; reflexivity. }
  destruct (key =? "Backspace")%string.
  { intros _. left. exists Backspace. split; reflexivity. }
  destruct ((key =? "c")%string || (key =? "C")%string).
  { intros _. left. exists Clear. split; reflexivity. }
  destruct (key =? "Escape")%string.
  { intros _. left. exists Clear. split; reflexivity. }
  intro H. discriminate H.
Qed.

Lemma keydown_dispatch_X7_witness :
  keydown "7" five_plus_three = (step five_plus_three (Digit "7"), true)
  /\ ((exists ev, public ev = true
                  /\ fst (keydown "Enter" five_plus_three)
                     = step five_plus_three ev)
      \/ (exists c r, "Enter" = String c r /\ r <> "" /\ is_digit c = true
                      /\ c <> "9"%char
                      /\ fst (keydown "Enter" five_plus_three)
                         = setInputChar "Enter" five_plus_three)).
Proof.
  split.
  - apply (proj1 (keydown_dispatch_X7 "Enter" five_plus_three) "7"%char).
    reflexivity.
  - apply (proj2 (proj2 (keydown_dispatch_X7 "Enter" five_plus_three))).
    reflexivity.
Defined.

(** X8: the [keydown] listener handles exactly the keys in the digit
    range and [. + - * / % Enter = Backspace c C Escape]; any other key
    leaves the state as it is; a key is in the digit range when it
    begins with a digit and, if that digit is ['9'], has nothing
    more. *)
Theorem keydown_handled_X8 key st :
  snd (keydown key st)
  = digit_range key || existsb (String.eqb key) named_keys
  /\ (snd (keydown key st) = false -> fst (keydown key st) = st)
  /\ String.leb "0" key && String.leb key "9" = digit_range key.
Proof.
  split; [|split; [|apply digit_range_spec]].
  - unfold keydown. rewrite digit_range_spec, toLowerCase_c.
    unfold named_keys, operator_keys. cbn [existsb].
    rewrite !orb_false_r.
    destruct (digit_range key); [reflexivity|]. cbn [orb].
    repeat match goal with
           | |- context [(key =? ?k)%string] =>
               destruct (String.eqb_spec key k) as [->|?]; [reflexivity|]
           end.
    reflexivity.
  - unfold keydown.
    repeat match goal with
           | |- context [if ?c then _ else _] => destruct c; [discriminate|]
           end.
    reflexivity.
Qed.

Lemma keydown_handled_X8_witness :
  fst (keydown "F5" five_plus_three) = five_plus_three.
Proof.
  apply (proj1 (proj2 (keydown_handled_X8 "F5" five_plus_three))).
  reflexivity.
Defined.

(** ** The sign of a formatted number *)

Lemma includes_minus c t :
  c <> "-"%char -> Str.includes c ("-" ++ t) = Str.includes c t.
Proof.
  intro H. change ("-" ++ t) with (String "-" t).
  cbn [Str.includes].
  rewrite (proj2 (Ascii.eqb_neq "-" c)) by congruence. reflexivity.
Qed.

Lemma replace_fraction_zeros_cons c r :
  c <> "."%char ->
  replace_fraction_zeros (String c r) = String c (replace_fraction_zeros r).
Proof.
  intro H. cbn [replace_fraction_zeros].
  destruct (Ascii.eqb_spec c "."); [contradiction|reflexivity].
Qed.

Lemma replace_dot_zeros_cons c r :
  c <> "."%char ->
  replace_dot_zeros (String c r) = String c (replace_dot_zeros r).
Proof.
  intro H. cbn [replace_dot_zeros].
  destruct (Ascii.eqb_spec c "."); [contradiction|reflexivity].
Qed.

Lemma trim_fraction_minus t : trim_fraction ("-" ++ t) = "-" ++ trim_fraction t.
Proof.
  unfold trim_fraction. rewrite includes_minus by discriminate.
  destruct (Str.includes "." t); [|reflexivity].
  change ("-" ++ t) with (String "-" t).
  rewrite replace_fraction_zeros_cons, replace_dot_zeros_cons by discriminate.
  reflexivity.
Qed.

Lemma formatNumber_negative m e :
  formatNumber (S754_finite true m e)
  = "-" ++ formatNumber (S754_finite false m e).
Proof.
  rewrite !formatNumber_finite. cbv zeta.
  rewrite !toPrecision_finite, !toString_finite.
  destruct (precision_digits 12 (num m e) (den e)) as [n e10].
  destruct (shortest_digits _ _ _ _ _ _) as [[s k] nn].
  cbn [sign_prefix].
  change ("" ++ ?x) with x.
  rewrite includes_minus by discriminate.
  destruct (Str.includes "e" _); apply trim_fraction_minus.
Qed.

Lemma starts_append s t :
  starts_with_digit s = true -> starts_with_digit (s ++ t) = true.
Proof. destruct s; [discriminate|]. intro H. exact H. Qed.

Lemma starts_take n s :
  (0 < n)%nat -> starts_with_digit s = true ->
  starts_with_digit (Str.take n s) = true.
Proof.
  intros Hn. destruct s; [discriminate|].
  destruct n; [lia|]. intro H. exact H.
Qed.

Lemma starts_point_after n s :
  (0 < n)%nat -> starts_with_digit s = true ->
  starts_with_digit (point_after n s) = true.
Proof.
  intros Hn H. unfold point_after. apply starts_append, starts_take; auto.
Qed.

Lemma starts_render w n :
  (0 < w)%nat -> starts_with_digit (Digits.render w n) = true.
Proof.
  intro Hw. pose proof (all_digit_render w n) as Ha.
  pose proof (length_render w n) as Hl.
  destruct (Digits.render w n) as [|c r]; [simpl in Hl; lia|].
  cbn [Str.all] in Ha. apply andb_prop in Ha as [Ha _]. exact Ha.
Qed.

Lemma starts_precision_layout p m e :
  starts_with_digit m = true ->
  starts_with_digit (precision_layout p m e) = true.
Proof.
  intro H. unfold precision_layout.
  destruct ((e <? -6) || (Z.of_nat p <=? e)).
  - apply starts_append. destruct (p =? 1)%nat; [exact H|].
    apply starts_point_after; [lia|exact H].
  - destruct (e =? Z.of_nat p - 1); [exact H|].
    destruct (Z.leb_spec 0 e); [|reflexivity].
    apply starts_point_after; [lia|exact H].
Qed.

Lemma starts_to_string_layout s k n :
  0 < k -> starts_with_digit (to_string_layout s k n) = true.
Proof.
  intro Hk. unfold to_string_layout. cbv zeta.
  pose proof (starts_render (Z.to_nat k) s ltac:(lia)) as H.
  destruct ((k <=? n) && (n <=? 21)); [apply starts_append, H|].
  destruct (Z.ltb_spec 0 n); cbn [andb].
  - destruct (n <=? 21).
    + apply starts_point_after; [lia|exact H].
    + destruct ((-6 <? n) && (n <=? 0)); [reflexivity|].
      apply starts_append. destruct (k =? 1); [exact H|].
      apply starts_point_after; [lia|exact H].
  - destruct ((-6 <? n) && (n <=? 0)); [reflexivity|].
    apply starts_append. destruct (k =? 1); [exact H|].
    apply starts_point_after; [lia|exact H].
Qed.

Lemma shortest_digits_length fuel x N D e10 : forall k s k' n,
  shortest_digits fuel x N D e10 k = (s, k', n) -> k <= k'.
Proof.
  induction fuel as [|f IH]; intros k s k' n; cbn [shortest_digits].
  - destruct (nearest_digits N D e10 k) as [s0 n0]. intros [= _ <- _]. lia.
  - destruct (try_digits x N D e10 k) as [[s0 n0]|].
    + intros [= _ <- _]. lia.
    + intro H. apply IH in H. lia.
Qed.

Lemma digit_not_dot c : is_digit c = true -> c <> "."%char.
Proof. intros H ->. discriminate H. Qed.

Lemma starts_trim_fraction s :
  starts_with_digit s = true -> starts_with_digit (trim_fraction s) = true.
Proof.
  intro H. unfold trim_fraction. destruct (Str.includes "." s); [|exact H].
  destruct s as [|c r]; [discriminate|]. cbn [starts_with_digit] in H.
  pose proof (digit_not_dot c H) as Hc.
  cbn [replace_fraction_zeros].
  destruct (Ascii.eqb_spec c "."); [contradiction|].
  rewrite replace_dot_zeros_cons by exact Hc. exact H.
Qed.

Lemma starts_formatNumber m e :
  starts_with_digit (formatNumber (S754_finite false m e)) = true.
Proof.
  rewrite formatNumber_finite. cbv zeta.
  rewrite toPrecision_finite, toString_finite.
  destruct (precision_digits 12 (num m e) (den e)) as [n e10].
  destruct (shortest_digits _ _ _ _ _ _) as [[s k] nn] eqn:Hsd.
  apply shortest_digits_length in Hsd.
  cbn [sign_prefix]. change ("" ++ ?x) with x.
  apply starts_trim_fraction.
  destruct (Str.includes "e" _).
  - apply starts_to_string_layout. lia.
  - apply starts_precision_layout, starts_render. lia.
Qed.

Lemma starts_not_minus s :
  starts_with_digit s = true -> Str.startsWith "-" s = false.
Proof.
  destruct s as [|c r]; [reflexivity|]. cbn [starts_with_digit Str.startsWith].
  intro H. apply Ascii.eqb_neq. intros ->. discriminate H.
Qed.

Lemma flip_sign_formatNumber x :
  is_nan x = false -> is_zero x = false ->
  flip_sign (formatNumber x) = formatNumber (SFopp x)
  /\ Str.startsWith "-" (formatNumber x)
     = match x with
       | S754_finite s _ _ | S754_infinity s => s
       | _ => false
       end.
Proof.
  destruct x as [s|s| |s m e]; try discriminate; intros _ _.
  - destruct s; split; reflexivity.
  - cbn [SFopp]. pose proof (starts_formatNumber m e) as H.
    apply starts_not_minus in H.
    destruct s; cbn [negb]; rewrite formatNumber_negative.
    + split; reflexivity.
    + unfold flip_sign. rewrite H. split; reflexivity.
Qed.

(** X9: for a number [x] that is neither [NaN] nor zero, flipping the
    sign of the text [formatNumber x] gives [formatNumber (- x)], and
    [formatNumber x] begins with ['-'] exactly when [x] is negative; so
    [toggleSign], with an empty input and [formatNumber x] stored,
    stores and shows [formatNumber (- x)]. *)
Theorem flip_sign_format_X9 x :
  is_nan x = false -> is_zero x = false ->
  flip_sign (formatNumber x) = formatNumber (SFopp x)
  /\ Str.startsWith "-" (formatNumber x)
     = match x with
       | S754_finite s _ _ | S754_infinity s => s
       | _ => false
       end
  /\ (forall st, input st = "" -> stored st = Some (formatNumber x) ->
        stored (toggleSign st) = Some (formatNumber (SFopp x))
        /\ display (toggleSign st) = formatNumber (SFopp x)
        /\ input (toggleSign st) = ""
        /\ operator (toggleSign st) = operator st).
Proof.
  intros Hn Hz. destruct (flip_sign_formatNumber x Hn Hz) as [H1 H2].
  split; [exact H1|]. split; [exact H2|].
  intros [i s o d t]. cbn [input stored]. intros -> ->.
  unfold toggleSign. cbn [input stored operator display Str.truthy].
  cbn [String.eqb negb stored display input operator].
  rewrite H1. repeat split; reflexivity.
Qed.

Lemma flip_sign_format_X9_witness :
  flip_sign (formatNumber three_tenths) = formatNumber (SFopp three_tenths)
  /\ Str.startsWith "-" (formatNumber three_tenths) = false.
Proof.
  destruct (flip_sign_format_X9 three_tenths) as (H1 & H2 & _);
    [reflexivity | reflexivity | split; [exact H1 | exact H2]].
Defined.

(** ** Reading a formatted number back *)

(** X10: for a finite non-zero number [x], [toPrecision(12)] is in
    exponent notation exactly when its decimal exponent is below [-6]
    or above [11]; then [formatNumber x] is read back by [parseFloat]
    as [x] itself; otherwise it is read back as the twelve significant
    digits of [x]; in both cases as a finite number. *)
Theorem parse_format_X10 sg m e :
  valid_binary prec emax (S754_finite sg m e) = true ->
  let x := S754_finite sg m e in
  let d := precision_digits 12 (num m e) (den e) in
  (Str.includes "e" (toPrecision 12 x) = true <-> snd d < -6 \/ 12 <= snd d)
  /\ (Str.includes "e" (toPrecision 12 x) = true ->
      parseFloat (formatNumber x) = x)
  /\ (Str.includes "e" (toPrecision 12 x) = false ->
      parseFloat (formatNumber x) = of_decimal sg (fst d) (snd d - 11))
  /\ is_finite (parseFloat (formatNumber x)) = true.
Proof.
  intros Hv x d. subst x d. simpl in Hv. apply bounded_bounded64 in Hv.
  rewrite (formatNumber_finite sg m e). cbv zeta.
  rewrite toPrecision_finite.
  pose proof (precision_digits_range (num m e) (den e)
                (num_pos m e) (den_pos e)) as Hn.
  destruct (precision_digits 12 (num m e) (den e)) as [n e10] eqn:Hpd.
  cbn [fst snd] in *.
  assert (Hexp : e10 < -6 \/ 12 <= e10 ->
                 parseFloat
                   (trim_fraction (toString (S754_finite sg m e)))
                 = S754_finite sg m e).
  { intros _. rewrite toString_finite.
    destruct (shortest_digits _ _ _ _ _ _) as [[s k] nn] eqn:Hsd.
    apply shortest_digits_spec in Hsd; [|exact Hv|lia|reflexivity].
    destruct Hsd as (Hx & Hs & Hk).
    rewrite parse_to_string_layout by assumption.
    apply (of_decimal_sign sg _ _ _ _ Hx). }
  destruct (Z_lt_le_dec e10 (-6)) as [He|He];
    [|destruct (Z_le_gt_dec 12 e10) as [He'|He']].
  - rewrite precision_layout_exponent by lia.
    rewrite Hexp by lia.
    repeat split; auto; try discriminate.
  - rewrite precision_layout_exponent by lia.
    rewrite Hexp by lia.
    repeat split; auto; try discriminate.
  - destruct (parse_precision_layout sg n e10 Hn ltac:(lia)) as [Hi Hp].
    rewrite Hi, Hp.
    destruct (precision_digits_of_decimal sg n e10 Hn ltac:(lia))
      as (m' & e' & Hx & Hpd').
    rewrite Hx.
    repeat split; auto; try discriminate. intros [H|H]; lia.
Qed.

Lemma parse_format_X10_witness :
  parseFloat (formatNumber two_to_seventy) = two_to_seventy.
Proof.
  assert (Hv : valid_binary prec emax two_to_seventy = true) by reflexivity.
  destruct (parse_format_X10 false 4503599627370496 18 Hv)
    as (_ & H & _ & _).
  apply H. vm_compute. reflexivity.
Defined.

(** ** Whole calculations *)

Lemma step_digit_rest st c :
  stored (step st (Digit c)) = stored st
  /\ operator (step st (Digit c)) = operator st
  /\ status (step st (Digit c)) = status st.
Proof.
  cbn [step]. unfold setInputChar.
  destruct (_ && _); repeat split; reflexivity.
Qed.

Lemma run_typed_rest r : forall st,
  stored (run (typed r) st) = stored st
  /\ operator (run (typed r) st) = operator st
  /\ status (run (typed r) st) = status st.
Proof.
  induction r as [|c r IH]; intros st; [repeat split; reflexivity|].
  rewrite typed_cons, run_cons.
  destruct (IH (step st (Digit c))) as (H1 & H2 & H3).
  destruct (step_digit_rest st c) as (G1 & G2 & G3).
  rewrite H1, H2, H3, G1, G2, G3. repeat split; reflexivity.
Qed.

Lemma run_typed_input s st :
  input st = "" -> s <> "" ->
  Str.all digit_key s = true -> (Str.count "." s <= 1)%nat ->
  input (run (typed s) st) = collapse s.
Proof.
  intros Hst Hs Hk Hn. destruct s as [|c r]; [congruence|].
  rewrite typed_cons, run_cons. simpl in Hk, Hn.
  apply andb_prop in Hk as [Hc Hr].
  destruct (Ascii.eqb_spec c ".") as [->|Hd].
  - assert (Hi : input (step st (Digit ".")) = "0.").
    { cbn [step]. change (char ".") with ".".
      rewrite setInputChar_dot, Hst. reflexivity. }
    rewrite run_typed_append; rewrite ?Hi; try discriminate; auto.
  - assert (Hi : input (step st (Digit c)) = char c).
    { cbn [step]. rewrite setInputChar_digit, Hst by assumption.
      reflexivity. }
    destruct (Ascii.eqb_spec c "0") as [->|H0].
    + apply run_typed_zero; auto;
        destruct (Ascii.eqb "0" "."); simpl in Hn; lia.
    + rewrite run_typed_append; rewrite ?Hi; auto;
        try discriminate; try (unfold char; congruence);
        simpl in *; destruct (Ascii.eqb_spec c "0"); try contradiction;
        destruct (Ascii.eqb_spec c "."); try contradiction;
        try reflexivity; lia.
Qed.

Lemma collapse_not_empty s : s <> "" -> collapse s <> "".
Proof.
  induction s as [|c r IH]; [congruence|]. intros _.
  cbn [collapse].
  destruct (Ascii.eqb c "0").
  - destruct r as [|d r']; [discriminate|].
    destruct (is_digit d); [apply IH; discriminate|discriminate].
  - destruct (Ascii.eqb c "."); discriminate.
Qed.

Lemma run_typed_state s st :
  input st = "" -> s <> "" ->
  Str.all digit_key s = true -> (Str.count "." s <= 1)%nat ->
  run (typed s) st
  = mkState (collapse s) (stored st) (operator st) (collapse s) (status st).
Proof.
  intros Hst Hs Hk Hn.
  pose proof (run_typed_input s st Hst Hs Hk Hn) as Hi.
  destruct (run_typed_rest s st) as (H1 & H2 & H3).
  assert (Hd : display (run (typed s) st) = input (run (typed s) st)).
  { destruct s as [|c r]; [congruence|].
    rewrite typed_cons, run_cons. apply run_typed_display.
    cbn [step]. unfold setInputChar. rewrite Hst.
    cbn [Str.includes]. rewrite andb_false_r. reflexivity. }
  destruct (run (typed s) st) as [i s0 o d t].
  cbn [input stored operator display status] in *. congruence.
Qed.

Lemma truthy_not_empty s : s <> "" -> Str.truthy s = true.
Proof.
  intro H. unfold Str.truthy. apply negb_true_iff, String.eqb_neq, H.
Qed.

(** X11: typing an operand, an operator, a second operand and [Equals]
    from the cleared state evaluates [computeLocal] on the two operands
    as typed, leading zeros collapsed: on success the result is stored
    and shown, the input and the operator are cleared and the status
    line reads [a op b =]; on failure the state is the error state. *)
Theorem calculation_X11 a b k :
  a <> "" -> Str.all digit_key a = true -> (Str.count "." a <= 1)%nat ->
  b <> "" -> Str.all digit_key b = true -> (Str.count "." b <= 1)%nat ->
  run (typed a ++ [Operator k] ++ typed b ++ [Equals]) cleared
  = match computeLocal (collapse a) (collapse b) (symbol k) with
    | Ok r =>
        mkState "" (Some r) None r
          (collapse a ++ " " ++ symbol k ++ " " ++ collapse b ++ " =")
    | Err e => failed e
    end.
Proof.
  intros Ha Ha1 Ha2 Hb Hb1 Hb2.
  rewrite !run_app.
  rewrite (run_typed_state a cleared) by auto.
  cbn [stored operator status cleared].
  change (run [Operator k] ?st) with (pressOperator (symbol k) st).
  unfold pressOperator at 1. cbn [stored input].
  rewrite (truthy_not_empty _ (collapse_not_empty a Ha)).
  rewrite run_typed_state by auto.
  cbn [stored operator status].
  change (run [Equals] ?st) with (pressEquals st).
  unfold pressEquals. cbn [stored input operator truthy or_else].
  rewrite (truthy_not_empty (symbol k)) by (destruct k; discriminate).
  cbn [negb].
  destruct (String.eqb_spec (collapse b) "") as [E|_];
    [exfalso; exact (collapse_not_empty b Hb E)|].
  reflexivity.
Qed.

Lemma calculation_X11_witness :
  run (typed "12" ++ [Operator Add] ++ typed "3" ++ [Equals]) cleared
  = mkState "" (Some "15") None "15" "12 + 3 =".
Proof.
  rewrite (calculation_X11 "12" "3" Add);
    [vm_compute; reflexivity
    | discriminate | reflexivity | simpl; lia
    | discriminate | reflexivity | simpl; lia].
Defined.

(** X12: operators are applied from left to right, without
    precedence: [a op1 b op2 c =] evaluates [op2] on the result of
    [a op1 b] and on [c]. *)
Theorem left_to_right_X12 a b c k1 k2 r1 :
  a <> "" -> Str.all digit_key a = true -> (Str.count "." a <= 1)%nat ->
  b <> "" -> Str.all digit_key b = true -> (Str.count "." b <= 1)%nat ->
  c <> "" -> Str.all digit_key c = true -> (Str.count "." c <= 1)%nat ->
  computeLocal (collapse a) (collapse b) (symbol k1) = Ok r1 ->
  run (typed a ++ [Operator k1] ++ typed b ++ [Operator k2]
         ++ typed c ++ [Equals]) cleared
  = match computeLocal r1 (collapse c) (symbol k2) with
    | Ok r =>
        mkState "" (Some r) None r
          (r1 ++ " " ++ symbol k2 ++ " " ++ collapse c ++ " =")
    | Err e => failed e
    end.
Proof.
  intros Ha Ha1 Ha2 Hb Hb1 Hb2 Hc Hc1 Hc2 Hr.
  rewrite !run_app.
  rewrite (run_typed_state a cleared) by auto.
  cbn [stored operator status cleared].
  change (run [Operator k1] ?st) with (pressOperator (symbol k1) st).
  unfold pressOperator at 1. cbn [stored input].
  rewrite (truthy_not_empty _ (collapse_not_empty a Ha)).
  rewrite (run_typed_state b) by auto.
  cbn [stored operator status].
  change (run [Operator k2] ?st) with (pressOperator (symbol k2) st).
  unfold pressOperator at 1. cbn [stored input operator or_else].
  rewrite (truthy_not_empty _ (collapse_not_empty b Hb)).
  rewrite (truthy_not_empty (symbol k1)) by (destruct k1; discriminate).
  rewrite Hr.
  rewrite (run_typed_state c) by auto.
  cbn [stored operator status].
  change (run [Equals] ?st) with (pressEquals st).
  unfold pressEquals. cbn [stored input operator truthy or_else].
  rewrite (truthy_not_empty (symbol k2)) by (destruct k2; discriminate).
  cbn [negb].
  destruct (String.eqb_spec (collapse c) "") as [E|_];
    [exfalso; exact (collapse_not_empty c Hc E)|].
  reflexivity.
Qed.

Lemma left_to_right_X12_witness :
  run (typed "2" ++ [Operator Add] ++ typed "3" ++ [Operator Multiply]
         ++ typed "4" ++ [Equals]) cleared
  = mkState "" (Some "20") None "20" "5 * 4 =".
Proof.
  rewrite (left_to_right_X12 "2" "3" "4" Add Multiply "5");
    [vm_compute; reflexivity
    | discriminate | reflexivity | simpl; lia
    | discriminate | reflexivity | simpl; lia
    | discriminate | reflexivity | simpl; lia
    | vm_compute; reflexivity].
Defined.

(** ** The display and the status line are only written *)

(** X13: the handlers never read the display or the status line: from
    two states with the same three variables, the same events lead to
    the same variables and raise the same errors. *)
Theorem dom_write_only_X13 evs st1 st2 :
  vars st1 = vars st2 ->
  vars (run evs st1) = vars (run evs st2)
  /\ forall ev, raised (run evs st1) ev = raised (run evs st2) ev.
Proof.
  intro H. pose proof (run_vars evs st1 st2 H) as Hv. split; [exact Hv|].
  intro ev. revert Hv. unfold vars.
  destruct (run evs st1) as [i1 s1 o1 d1 t1].
  destruct (run evs st2) as [i2 s2 o2 d2 t2].
  cbn [input stored operator]. intros [= -> -> ->].
  destruct ev; reflexivity.
Qed.

Lemma dom_write_only_X13_witness :
  vars (run [Digit "1"] (failed "Division by zero"))
  = vars (run [Digit "1"] cleared).
Proof.
  apply (proj1 (dom_write_only_X13 [Digit "1"]
                  (failed "Division by zero") cleared eq_refl)).
Defined.

(** ** Integers *)

Lemma zeros_snoc k : Str.zeros k ++ "0" = Str.zeros (S k).
Proof.
  induction k as [|k IH]; [reflexivity|].
  cbn [Str.zeros append]. cbn [Str.zeros] in IH. rewrite IH. reflexivity.
Qed.

Lemma render_scale w k N :
  Digits.render (w + k) (N * 10 ^ Z.of_nat k)
  = Digits.render w N ++ Str.zeros k.
Proof.
  induction k as [|k IH].
  - rewrite Nat.add_0_r, Z.mul_1_r. symmetry. apply append_nil_r.
  - rewrite Nat.add_succ_r, render_succ.
    rewrite Nat2Z.inj_succ, Z.pow_succ_r by lia.
    replace (N * (10 * 10 ^ Z.of_nat k)) with (N * 10 ^ Z.of_nat k * 10) by lia.
    rewrite Z.div_mul, Z.mod_mul by lia.
    rewrite IH, append_assoc. f_equal.
    change (char (digit_char 0)) with "0". apply zeros_snoc.
Qed.

Lemma take_length_append s t : Str.take (String.length s) (s ++ t) = s.
Proof.
  induction s as [|c s IH]; [destruct t; reflexivity|].
  cbn [String.length Str.take append]. rewrite IH. reflexivity.
Qed.

Lemma drop_length_append s t : Str.drop (String.length s) (s ++ t) = t.
Proof.
  induction s as [|c s IH]; [destruct t; reflexivity|].
  cbn [String.length Str.drop append]. exact IH.
Qed.

Lemma all_zero_zeros k : Str.all is_zero_char (Str.zeros k) = true.
Proof. induction k as [|k IH]; [reflexivity|exact IH]. Qed.

(** X14: a positive integer below [10 ^ 12], with either sign, is
    formatted as its decimal digits, without point or exponent, and
    [parseFloat] reads those digits back as the same number. *)
Theorem integer_format_X14 sg N :
  0 < N < 10 ^ 12 ->
  formatNumber (of_decimal sg N 0) = sign_prefix sg ++ Digits.of_Z N
  /\ parseFloat (sign_prefix sg ++ Digits.of_Z N) = of_decimal sg N 0.
Proof.
  intros HN. split.
  2:{ rewrite <- (append_nil_r (Digits.of_Z N)).
      rewrite parseFloat_integer;
        [|apply of_Z_not_empty|apply all_digit_of_Z|left; reflexivity].
      rewrite value_of_Z by lia. reflexivity. }
  pose proof (log10_spec N ltac:(lia)) as (Hl0 & Hlo & Hhi).
  set (l := Digits.log10 N) in *.
  assert (Hl : l <= 11).
  { destruct (Z_le_gt_dec l 11) as [H|H]; [exact H|].
    assert (10 ^ 12 <= 10 ^ l) by (apply Z.pow_le_mono_r; lia). lia. }
  set (k := Z.to_nat (11 - l)).
  assert (Hk : Z.of_nat k = 11 - l) by (unfold k; lia).
  assert (Hn : 10 ^ 11 <= N * 10 ^ Z.of_nat k < 10 ^ 12).
  { rewrite Hk.
    assert (E1 : 10 ^ 11 = 10 ^ l * 10 ^ (11 - l)).
    { rewrite <- Z.pow_add_r by lia. f_equal. lia. }
    assert (E2 : 10 ^ 12 = 10 ^ (l + 1) * 10 ^ (11 - l)).
    { rewrite <- Z.pow_add_r by lia. f_equal. lia. }
    rewrite E1, E2.
    pose proof (Z.pow_pos_nonneg 10 (11 - l) ltac:(lia) ltac:(lia)).
    split; [apply Z.mul_le_mono_nonneg_r; lia
           |apply Z.mul_lt_mono_pos_r; lia]. }
  destruct (precision_digits_of_decimal sg _ l Hn ltac:(lia))
    as (m' & e' & Hx & Hpd).
  replace (l - 11) with (0 - Z.of_nat k) in Hx by lia.
  rewrite of_decimal_shift in Hx by lia.
  rewrite Hx, formatNumber_finite. cbv zeta.
  rewrite toPrecision_finite, Hpd.
  destruct (parse_precision_layout sg _ l Hn ltac:(lia)) as [Hi _].
  rewrite Hi. clear Hi.
  assert (Hw : (Z.to_nat (l + 1) + k = 12)%nat) by lia.
  rewrite <- Hw at 2. rewrite render_scale.
  change (Digits.render (Z.to_nat (l + 1)) N) with (Digits.of_Z N).
  assert (Hlen : String.length (Digits.of_Z N) = Z.to_nat (l + 1)).
  { unfold Digits.of_Z. apply length_render. }
  unfold precision_layout.
  destruct (Z.ltb_spec l (-6)); [lia|].
  destruct (Z.leb_spec (Z.of_nat 12) l); [lia|]. cbn [orb].
  change (Z.of_nat 12 - 1) with 11.
  destruct (Z.eqb_spec l 11) as [E|E].
  - assert (k = 0%nat) by lia. subst k. rewrite H1.
    cbn [Str.zeros]. rewrite append_nil_r.
    apply trim_fraction_plain.
    apply count_sign_digits;
      [reflexivity|discriminate|apply all_digit_of_Z].
  - destruct (Z.leb_spec 0 l); [|lia].
    unfold point_after. rewrite <- Hlen.
    rewrite take_length_append, drop_length_append.
    rewrite <- append_assoc.
    change ("." ++ Str.zeros k) with (String "." (Str.zeros k)).
    rewrite trim_fraction_fixed.
    + rewrite drop_trailing_zeros_empty, all_zero_zeros.
      apply append_nil_r.
    + apply count_sign_digits;
        [reflexivity|discriminate|apply all_digit_of_Z].
    + apply all_digit_zeros.
    + destruct k; [lia|discriminate].
Qed.

Lemma integer_format_X14_witness :
  formatNumber (of_decimal true 42 0) = sign_prefix true ++ Digits.of_Z 42.
Proof. apply (proj1 (integer_format_X14 true 42 ltac:(lia))). Defined.

(** ** Operands that do not parse *)

Lemma of_decimal_not_nan sg a sc : is_nan (of_decimal sg a sc) = false.
Proof.
  unfold of_decimal. destruct (a =? 0); [reflexivity|].
  rewrite of_rat_unfold. cbv zeta.
  destruct (rne _ _ =? 2 ^ 53).
  - destruct (2 ^ 52) as [|p|p]; try reflexivity.
    destruct (971 <? _); reflexivity.
  - destruct (rne _ _) as [|p|p]; try reflexivity.
    destruct (971 <? _); reflexivity.
Qed.

Lemma span_head_digit c r :
  is_digit c = true ->
  exists u v, Str.span is_digit (String c r) = (String c u, v).
Proof.
  intro H. cbn [Str.span]. rewrite H.
  destruct (Str.span is_digit r) as [u v]. exists u, v. reflexivity.
Qed.

Lemma unsigned_literal_digit sg c r :
  is_digit c = true -> is_nan (unsigned_literal sg (String c r)) = false.
Proof.
  intro H. unfold unsigned_literal.
  rewrite prefix_infinity_digit by exact H.
  destruct (span_head_digit c r H) as (u & v & ->).
  destruct v as [|d v].
  - cbn [String.eqb]. apply of_decimal_not_nan.
  - destruct (Ascii.eqb d ".").
    + destruct (Str.span is_digit v) as [fp r2].
      cbn [String.eqb andb]. apply of_decimal_not_nan.
    + cbn [String.eqb]. apply of_decimal_not_nan.
Qed.

Lemma digit_key_no_dot_all r :
  Str.all digit_key r = true -> Str.count "." r = O ->
  Str.all is_digit r = true.
Proof.
  induction r as [|c r IH]; [reflexivity|].
  cbn [Str.all Str.count]. intros H Hn.
  apply andb_prop in H as [Hc Hr].
  destruct (Ascii.eqb_spec c ".") as [->|Hd]; [discriminate Hn|].
  unfold digit_key in Hc. apply orb_prop in Hc as [Hc|Hc].
  - rewrite Hc. apply IH; [exact Hr|exact Hn].
  - apply Ascii.eqb_eq in Hc. contradiction.
Qed.

Lemma unsigned_literal_typed sg u :
  Str.all digit_key u = true -> (Str.count "." u <= 1)%nat ->
  is_nan (unsigned_literal sg u) = (u =? "")%string || (u =? ".")%string.
Proof.
  intros Hk Hn. destruct u as [|c r]; [reflexivity|].
  cbn [Str.all] in Hk. apply andb_prop in Hk as [Hc Hr].
  destruct (Ascii.eqb_spec c ".") as [->|Hd].
  - cbn [Str.count] in Hn. change (Ascii.eqb "." ".") with true in Hn.
    cbv iota in Hn.
    assert (Hr' : Str.all is_digit r = true)
      by (apply digit_key_no_dot_all; [exact Hr|lia]).
    unfold unsigned_literal.
    change (String.prefix "Infinity" (String "." r)) with false.
    cbv iota. cbn [Str.span].
    change (is_digit ".") with false. cbv iota.
    change (Ascii.eqb "." ".") with true. cbv iota.
    rewrite span_digits_all by exact Hr'.
    destruct r as [|d r]; [reflexivity|].
    cbn [String.eqb andb]. rewrite of_decimal_not_nan.
    cbn [orb]. symmetry.
    change (Ascii.eqb "." ".") with true. cbv iota. reflexivity.
  - assert (Hdig : is_digit c = true).
    { unfold digit_key in Hc. apply orb_prop in Hc as [H|H]; [exact H|].
      apply Ascii.eqb_eq in H. contradiction. }
    rewrite unsigned_literal_digit by exact Hdig.
    symmetry. cbn [String.eqb orb].
    destruct (Ascii.eqb_spec c "."); [contradiction|reflexivity].
Qed.

(** X15: a typed operand (digits, at most one point, an optional
    leading minus sign) is rejected by [parseFloat] exactly when it is
    one of [""], ["-"], ["."] and ["-."]; so is the input after any
    public events other than [Percent]; the inputs ["-."] and ["."] are
    reachable. *)
Theorem typed_operand_X15 :
  (forall s, valid_input s = true -> is_nan (parseFloat s) = unparsed s)
  /\ (forall evs,
        forallb public evs = true -> forallb not_percent evs = true ->
        is_nan (parseFloat (input (run evs cleared)))
        = unparsed (input (run evs cleared)))
  /\ reachable minus_dot /\ input minus_dot = "-."
  /\ reachable lone_dot /\ input lone_dot = ".".
Proof.
  assert (H : forall s, valid_input s = true ->
                        is_nan (parseFloat s) = unparsed s).
  { intros s Hv. unfold valid_input in Hv.
    apply andb_prop in Hv as [Hk Hn]. apply Nat.leb_le in Hn.
    destruct s as [|c r]; [reflexivity|].
    destruct (Ascii.eqb_spec c "-") as [->|Hm].
    - change (unsigned_part (String "-" r)) with r in *.
      change (parseFloat (String "-" r)) with (unsigned_literal true r).
      rewrite unsigned_literal_typed by assumption.
      unfold unparsed. cbn [existsb String.eqb].
      change (Ascii.eqb "-" "-") with true.
      change (Ascii.eqb "-" ".") with false. cbv iota. cbn [orb].
      rewrite orb_false_r.
      destruct r as [|d r]; [reflexivity|]. reflexivity.
    - assert (Hu : unsigned_part (String c r) = String c r).
      { unfold unsigned_part. cbn [Str.startsWith].
        destruct (Ascii.eqb_spec c "-"); [contradiction|reflexivity]. }
      rewrite Hu in *.
      transitivity (is_nan (unsigned_literal false (String c r))).
      + cbn [Str.all] in Hk. apply andb_prop in Hk as [Hc _].
        unfold digit_key in Hc. apply orb_prop in Hc as [Hc|Hc].
        * apply (f_equal is_nan). apply (parseFloat_signed false c r Hc).
        * apply Ascii.eqb_eq in Hc. subst c. reflexivity.
      + rewrite unsigned_literal_typed by assumption.
        unfold unparsed. cbn [existsb String.eqb].
        destruct (Ascii.eqb_spec c "-"); [contradiction|].
        rewrite orb_false_r. reflexivity. }
  split; [exact H|]. split.
  - intros evs Hp Hn. apply H.
    induction evs as [|ev evs IH] using rev_ind; [reflexivity|].
    rewrite forallb_app in Hp, Hn.
    apply andb_prop in Hp as [Hp1 Hp2]. apply andb_prop in Hn as [Hn1 Hn2].
    simpl in Hp2, Hn2. rewrite andb_true_r in Hp2, Hn2.
    rewrite run_app. apply step_valid_input; auto.
  - split; [apply reachable_run; reflexivity|].
    split; [reflexivity|].
    split; [|reflexivity].
    apply reachable_step; [apply reachable_run|]; reflexivity.
Qed.

Lemma typed_operand_X15_witness :
  is_nan (parseFloat "-.") = unparsed "-."
  /\ is_nan (parseFloat
                (input (run [Digit "."; Digit "5"; ToggleSign] cleared)))
     = unparsed (input (run [Digit "."; Digit "5"; ToggleSign] cleared)).
Proof.
  split.
  - apply (proj1 typed_operand_X15). reflexivity.
  - apply (proj1 (proj2 typed_operand_X15)); reflexivity.
Defined.

(** ** The end of a formatted number *)

Lemma last_char_append s t : t <> "" -> last_char (s ++ t) = last_char t.
Proof.
  intro Ht. induction s as [|c s IH]; [reflexivity|].
  cbn [append last_char]. rewrite IH.
  destruct (s ++ t) eqn:E; [|reflexivity].
  destruct s; [simpl in E; congruence|discriminate E].
Qed.

Lemma last_char_all p s c :
  Str.all p s = true -> last_char s = Some c -> p c = true.
Proof.
  induction s as [|a s IH]; [discriminate|].
  cbn [Str.all last_char]. intros H. apply andb_prop in H as [Ha Hs].
  destruct s as [|b s]; [intros [= <-]; exact Ha|]. apply IH, Hs.
Qed.

Lemma last_char_some s : s <> "" -> exists c, last_char s = Some c.
Proof.
  induction s as [|a s IH]; [congruence|]. intros _.
  destruct s as [|b s]; [exists a; reflexivity|].
  destruct IH as [c Hc]; [discriminate|]. exists c. exact Hc.
Qed.

Lemma last_char_digits s :
  s <> "" -> Str.all is_digit s = true ->
  exists c, last_char s = Some c /\ is_digit c = true.
Proof.
  intros Hs Hd. destruct (last_char_some s Hs) as [c Hc].
  exists c. split; [exact Hc|]. exact (last_char_all _ _ _ Hd Hc).
Qed.

Lemma last_char_drop_trailing_zeros fp c :
  last_char (drop_trailing_zeros fp) = Some c -> c <> "0"%char.
Proof.
  induction fp as [|a fp IH]; [discriminate|].
  cbn [drop_trailing_zeros].
  destruct (is_zero_char a) eqn:Ha; cbn [andb].
  - destruct (String.eqb_spec (drop_trailing_zeros fp) "") as [E|E];
      [discriminate|].
    cbn [last_char].
    destruct (drop_trailing_zeros fp); [congruence|]. exact IH.
  - cbn [last_char].
    destruct (drop_trailing_zeros fp) as [|b r].
    + intros [= <-] ->. discriminate Ha.
    + exact IH.
Qed.

Lemma last_char_exponent_suffix ex :
  exists c, last_char (exponent_suffix ex) = Some c /\ is_digit c = true.
Proof.
  unfold exponent_suffix.
  rewrite !last_char_append by (try apply of_Z_not_empty; destruct (ex <? 0);
    intro H; apply (f_equal String.length) in H;
    rewrite ?length_append in H; simpl in H; lia).
  apply last_char_digits; [apply of_Z_not_empty|apply all_digit_of_Z].
Qed.

Lemma includes_exponent_suffix ex :
  Str.includes "e" (exponent_suffix ex) = true.
Proof. reflexivity. Qed.

Lemma includes_sign_digits c sg ip :
  is_digit c = false -> c <> "-"%char -> Str.all is_digit ip = true ->
  Str.includes c (sign_prefix sg ++ ip) = false.
Proof.
  intros. apply count_includes, count_sign_digits; assumption.
Qed.

Lemma shape_point_after j m t :
  (0 < j < String.length m)%nat -> Str.all is_digit m = true ->
  exponent_tail t -> decimal_shape (point_after j m ++ t).
Proof.
  intros Hj Hm Ht. unfold point_after.
  rewrite !append_assoc.
  change ("." ++ Str.drop j m ++ t) with (String "." (Str.drop j m ++ t)).
  apply shape_fraction.
  - apply not_empty_length. rewrite length_take; lia.
  - apply all_take, Hm.
  - apply not_empty_length. rewrite length_drop. lia.
  - apply all_drop, Hm.
  - exact Ht.
Qed.

Lemma shape_exponent (single : bool) m e :
  (if single then String.length m = 1 else 1 < String.length m)%nat ->
  Str.all is_digit m = true ->
  decimal_shape ((if single then m else point_after 1 m)
                 ++ exponent_suffix e).
Proof.
  intros Hl Hm. destruct single.
  - apply shape_integer;
      [apply not_empty_length; lia|exact Hm|right; eexists; reflexivity].
  - apply shape_point_after; [lia|exact Hm|right; eexists; reflexivity].
Qed.

Lemma shape_leading_zeros z m :
  m <> "" -> Str.all is_digit m = true ->
  decimal_shape ("0." ++ Str.zeros z ++ m).
Proof.
  intros Hne Hm.
  change ("0." ++ Str.zeros z ++ m)
    with ("0" ++ String "." (Str.zeros z ++ m)).
  rewrite <- (append_nil_r (Str.zeros z ++ m)).
  apply shape_fraction.
  - discriminate.
  - reflexivity.
  - destruct z; [exact Hne|discriminate].
  - rewrite all_append, all_digit_zeros. exact Hm.
  - left. reflexivity.
Qed.

Lemma shape_precision_layout p m e :
  (0 < p)%nat -> String.length m = p -> Str.all is_digit m = true ->
  decimal_shape (precision_layout p m e).
Proof.
  intros Hp Hl Hm. unfold precision_layout.
  assert (Hne : m <> "") by (apply not_empty_length; lia).
  assert (Hexp : decimal_shape
                   ((if (p =? 1)%nat then m else point_after 1 m)
                    ++ exponent_suffix e)).
  { apply shape_exponent; [|exact Hm].
    destruct (Nat.eqb_spec p 1); lia. }
  destruct (Z.ltb_spec e (-6)); [exact Hexp|].
  destruct (Z.leb_spec (Z.of_nat p) e); [exact Hexp|]. cbn [orb].
  destruct (Z.eqb_spec e (Z.of_nat p - 1)).
  - rewrite <- (append_nil_r m).
    apply shape_integer; [exact Hne|exact Hm|left; reflexivity].
  - destruct (Z.leb_spec 0 e).
    + rewrite <- (append_nil_r (point_after _ m)).
      apply shape_point_after; [lia|exact Hm|left; reflexivity].
    + apply shape_leading_zeros; assumption.
Qed.

Lemma shape_to_string_layout s k n :
  0 < k -> decimal_shape (to_string_layout s k n).
Proof.
  intros Hk. unfold to_string_layout. cbv zeta.
  pose proof (all_digit_render (Z.to_nat k) s) as Hd.
  pose proof (length_render (Z.to_nat k) s) as Hl.
  set (ds := Digits.render (Z.to_nat k) s) in *.
  assert (Hne : ds <> "") by (apply not_empty_length; lia).
  assert (Hexp : decimal_shape
                   ((if k =? 1 then ds else point_after 1 ds)
                    ++ exponent_suffix (n - 1))).
  { apply shape_exponent; [|exact Hd].
    destruct (Z.eqb_spec k 1); lia. }
  destruct (Z.leb_spec k n) as [H1|H1]; cbn [andb];
    [destruct (Z.leb_spec n 21) as [H2|H2]|].
  - rewrite <- (append_nil_r (ds ++ Str.zeros _)).
    apply shape_integer;
      [destruct ds; [congruence|discriminate]
      |rewrite all_append, Hd, all_digit_zeros; reflexivity
      |left; reflexivity].
  - destruct (Z.ltb_spec 0 n); [|lia]. cbn [andb].
    destruct (Z.ltb_spec (-6) n); [|lia].
    destruct (Z.leb_spec n 0); [lia|]. cbn [andb]. exact Hexp.
  - destruct (Z.ltb_spec 0 n) as [H3|H3];
      [destruct (Z.leb_spec n 21) as [H2|H2]|]; cbn [andb].
    + rewrite <- (append_nil_r (point_after _ ds)).
      apply shape_point_after; [lia|exact Hd|left; reflexivity].
    + destruct (Z.ltb_spec (-6) n); [|lia].
      destruct (Z.leb_spec n 0); [lia|]. cbn [andb]. exact Hexp.
    + destruct (Z.ltb_spec (-6) n) as [H4|H4];
        [destruct (Z.leb_spec n 0) as [H5|H5]; [|lia]|]; cbn [andb].
      * apply shape_leading_zeros; assumption.
      * exact Hexp.
Qed.

Lemma trim_shape sg L :
  decimal_shape L -> ends_tidily (trim_fraction (sign_prefix sg ++ L)).
Proof.
  intros [ip t Hne Hd Ht|ip fp t Hne Hd Hfe Hfd Ht]; unfold ends_tidily.
  - assert (Hc : Str.count "." (sign_prefix sg ++ ip ++ t) = O).
    { rewrite <- append_assoc, count_append, count_sign_digits;
        [|reflexivity|discriminate|exact Hd].
      destruct Ht as [->|[ex ->]]; [reflexivity|apply count_exponent_suffix]. }
    rewrite trim_fraction_plain by exact Hc.
    assert (Hl : exists c, last_char (sign_prefix sg ++ ip ++ t) = Some c
                           /\ is_digit c = true).
    { destruct Ht as [->|[ex ->]].
      - rewrite append_nil_r, last_char_append by exact Hne.
        apply last_char_digits; assumption.
      - rewrite <- append_assoc, last_char_append by discriminate.
        apply last_char_exponent_suffix. }
    destruct Hl as (c & Hc1 & Hc2). exists c.
    split; [exact Hc1|]. split; [exact Hc2|].
    rewrite (count_includes _ _ Hc). discriminate.
  - rewrite <- append_assoc.
    assert (Hp : Str.count "." (sign_prefix sg ++ ip) = O)
      by (apply count_sign_digits; [reflexivity|discriminate|exact Hd]).
    destruct Ht as [->|[ex ->]].
    + rewrite append_nil_r, trim_fraction_fixed by assumption.
      destruct (String.eqb_spec (drop_trailing_zeros fp) "") as [E|E].
      * rewrite append_nil_r, last_char_append by exact Hne.
        destruct (last_char_digits ip Hne Hd) as (c & Hc1 & Hc2).
        exists c. split; [exact Hc1|]. split; [exact Hc2|].
        rewrite (count_includes _ _ Hp). discriminate.
      * rewrite last_char_append by discriminate.
        change (String "." (drop_trailing_zeros fp))
          with ("." ++ drop_trailing_zeros fp).
        rewrite last_char_append by exact E.
        destruct (last_char_digits _ E
                    (all_digit_drop_trailing_zeros fp Hfd))
          as (c & Hc1 & Hc2).
        exists c. split; [exact Hc1|]. split; [exact Hc2|].
        intros _ _. exact (last_char_drop_trailing_zeros fp c Hc1).
    + rewrite trim_fraction_exponent by assumption.
      rewrite last_char_append by discriminate.
      change (String "." (fp ++ exponent_suffix ex))
        with (("." ++ fp) ++ exponent_suffix ex).
      rewrite last_char_append by discriminate.
      destruct (last_char_exponent_suffix ex) as (c & Hc1 & Hc2).
      exists c. split; [exact Hc1|]. split; [exact Hc2|].
      intros _. rewrite !includes_append, includes_exponent_suffix.
      rewrite !orb_true_r. discriminate.
Qed.

(** X16: for a finite number, the output of [formatNumber] ends with a
    digit, never with the decimal point, and not with a zero when it
    has a decimal point and no exponent. *)
Theorem format_shape_X16 x :
  is_finite x = true -> ends_tidily (formatNumber x).
Proof.
  destruct x as [sg|sg| |sg m e]; try discriminate; intros _.
  - exists "0"%char. destruct sg; repeat split; discriminate.
  - rewrite formatNumber_finite. cbv zeta.
    rewrite toPrecision_finite, toString_finite.
    destruct (precision_digits 12 (num m e) (den e)) as [n e10].
    destruct (shortest_digits _ _ _ _ _ _) as [[s k] nn] eqn:Hsd.
    apply shortest_digits_length in Hsd.
    destruct (Str.includes "e" _); apply trim_shape.
    + apply shape_to_string_layout. lia.
    + apply shape_precision_layout;
        [lia|apply length_render|apply all_digit_render].
Qed.

Lemma format_shape_X16_witness : ends_tidily (formatNumber three_tenths).
Proof. apply (format_shape_X16 three_tenths). reflexivity. Defined.

(** ** The order of the operands *)

Lemma F64_add_comm x y : add x y = add y x.
Proof.
  unfold add, SFadd.
  destruct x as [sx|sx| |sx mx ex], y as [sy|sy| |sy my ey];
    try reflexivity.
  - destruct sx, sy; reflexivity.
  - destruct sx, sy; reflexivity.
  - rewrite (Z.min_comm ey ex). cbv zeta.
    rewrite Z.add_comm. reflexivity.
Qed.

Lemma F64_mul_comm x y : mul x y = mul y x.
Proof.
  unfold mul, SFmul.
  destruct x as [sx|sx| |sx mx ex], y as [sy|sy| |sy my ey];
    try reflexivity; try (rewrite xorb_comm; reflexivity).
  rewrite xorb_comm, Pos.mul_comm, Z.add_comm. reflexivity.
Qed.

(** X17: [computeLocal] gives the same outcome for [a + b] and [b + a],
    and for [a * b] and [b * a]. *)
Theorem operand_order_X17 a b :
  computeLocal a b "+" = computeLocal b a "+"
  /\ computeLocal a b "*" = computeLocal b a "*".
Proof.
  unfold computeLocal. cbv zeta.
  rewrite (orb_comm (is_nan (parseFloat b))).
  rewrite (F64_add_comm (parseFloat b)), (F64_mul_comm (parseFloat b)).
  split; reflexivity.
Qed.

(** ** The shape of the input, with [Percent] *)

Lemma digit_digit_key s :
  Str.all is_digit s = true -> Str.all digit_key s = true.
Proof.
  apply all_impl. intros c H. unfold digit_key. rewrite H. reflexivity.
Qed.

Lemma valid_input_no_exponent s :
  valid_input s = true -> Str.includes "e" s = false.
Proof.
  unfold valid_input. intros H. apply andb_prop in H as [H _].
  assert (Hu : Str.includes "e" (unsigned_part s) = false).
  { apply count_includes. apply (all_count digit_key); [reflexivity|exact H]. }
  revert Hu. unfold unsigned_part. destruct s as [|c r]; [reflexivity|].
  cbn [Str.startsWith Str.slice1 Str.includes].
  destruct (Ascii.eqb_spec c "-") as [->|_]; [|intro Hu; exact Hu].
  intro Hu. rewrite Hu. reflexivity.
Qed.

Lemma valid_input_signed sg u :
  starts_with_digit u = true -> Str.all digit_key u = true ->
  (Str.count "." u <= 1)%nat ->
  valid_input (sign_prefix sg ++ u) = true.
Proof.
  intros Hs Hk Hn.
  assert (Hu : unsigned_part (sign_prefix sg ++ u) = u).
  { destruct sg; [reflexivity|]. cbn [sign_prefix append].
    unfold unsigned_part. rewrite starts_not_minus by exact Hs.
    reflexivity. }
  unfold valid_input. rewrite Hu, Hk. apply Nat.leb_le. exact Hn.
Qed.

Lemma valid_trim_shape sg L :
  decimal_shape L ->
  valid_input (trim_fraction (sign_prefix sg ++ L))
  = negb (Str.includes "e" (trim_fraction (sign_prefix sg ++ L))).
Proof.
  assert (Hexp : forall s, Str.includes "e" s = true ->
                           valid_input s = negb (Str.includes "e" s)).
  { intros s H. rewrite H. destruct (valid_input s) eqn:E; [|reflexivity].
    apply valid_input_no_exponent in E. congruence. }
  assert (Hfix : forall s, valid_input s = true ->
                           valid_input s = negb (Str.includes "e" s)).
  { intros s H. rewrite (valid_input_no_exponent s H). exact H. }
  intros [ip t Hne Hd Ht|ip fp t Hne Hd Hfe Hfd Ht].
  - assert (Hc : Str.count "." (sign_prefix sg ++ ip ++ t) = O).
    { rewrite <- append_assoc, count_append, count_sign_digits;
        [|reflexivity|discriminate|exact Hd].
      destruct Ht as [->|[ex ->]]; [reflexivity|apply count_exponent_suffix]. }
    rewrite trim_fraction_plain by exact Hc.
    destruct Ht as [->|[ex ->]].
    + apply Hfix. rewrite append_nil_r. apply valid_input_signed.
      * destruct ip as [|c r]; [congruence|].
        cbn [Str.all] in Hd. apply andb_prop in Hd as [Hd _]. exact Hd.
      * apply digit_digit_key, Hd.
      * rewrite (digits_no_dot ip Hd). lia.
    + apply Hexp. rewrite !includes_append, includes_exponent_suffix.
      rewrite !orb_true_r. reflexivity.
  - rewrite <- append_assoc.
    assert (Hp : Str.count "." (sign_prefix sg ++ ip) = O)
      by (apply count_sign_digits; [reflexivity|discriminate|exact Hd]).
    destruct Ht as [->|[ex ->]].
    + rewrite append_nil_r, trim_fraction_fixed by assumption.
      apply Hfix. rewrite append_assoc. apply valid_input_signed.
      * destruct ip as [|c r]; [congruence|].
        cbn [Str.all] in Hd. apply andb_prop in Hd as [Hd _]. exact Hd.
      * rewrite all_append, (digit_digit_key ip Hd).
        destruct (drop_trailing_zeros fp =? "")%string; [reflexivity|].
        cbn [Str.all andb].
        apply digit_digit_key, all_digit_drop_trailing_zeros, Hfd.
      * rewrite count_append, (digits_no_dot ip Hd).
        destruct (drop_trailing_zeros fp =? "")%string; [simpl; lia|].
        cbn [Str.count].
        rewrite (digits_no_dot _ (all_digit_drop_trailing_zeros fp Hfd)).
        simpl. lia.
    + rewrite trim_fraction_exponent by assumption.
      apply Hexp.
      change (String "." (fp ++ exponent_suffix ex))
        with (("." ++ fp) ++ exponent_suffix ex).
      rewrite !includes_append, includes_exponent_suffix.
      rewrite !orb_true_r. reflexivity.
Qed.

Lemma valid_formatNumber x :
  valid_input (formatNumber x)
  = is_finite x && negb (Str.includes "e" (formatNumber x)).
Proof.
  destruct x as [sg|sg| |sg m e]; try (destruct sg; reflexivity);
    try reflexivity.
  cbn [is_finite andb].
  rewrite formatNumber_finite. cbv zeta.
  rewrite toPrecision_finite, toString_finite.
  destruct (precision_digits 12 (num m e) (den e)) as [n e10].
  destruct (shortest_digits _ _ _ _ _ _) as [[s k] nn] eqn:Hsd.
  apply shortest_digits_length in Hsd.
  destruct (Str.includes "e" _); apply valid_trim_shape.
  - apply shape_to_string_layout. lia.
  - apply shape_precision_layout;
      [lia|apply length_render|apply all_digit_render].
Qed.

Lemma step_percent_shape st :
  valid_input (input st) = true ->
  valid_input (input (step st Percent)) = percent_keeps_shape st.
Proof.
  intros Hv. cbn [step]. unfold pressPercent, percent_keeps_shape.
  destruct (Str.truthy (input st)); cbn [andb].
  - destruct (is_nan (parseFloat (input st))); cbn [negb input];
      [exact Hv|]. apply valid_formatNumber.
  - destruct (stored st) as [s|]; [destruct (is_nan _)|]; exact Hv.
Qed.

Lemma run_percents_keep_shape evs : forall st,
  forallb public evs = true -> valid_input (input st) = true ->
  percents_keep_shape evs st = true ->
  valid_input (input (run evs st)) = true.
Proof.
  induction evs as [|ev evs IH]; intros st Hp Hv Hk; [exact Hv|].
  rewrite run_cons. cbn [forallb percents_keep_shape] in Hp, Hk.
  apply andb_prop in Hp as [Hp1 Hp2]. apply andb_prop in Hk as [Hk1 Hk2].
  apply IH; [exact Hp2| |exact Hk2].
  destruct (not_percent ev) eqn:Hn.
  - apply step_valid_input; assumption.
  - destruct ev; try discriminate Hn.
    rewrite step_percent_shape by exact Hv. exact Hk1.
Qed.

Lemma percents_keep_shape_none evs : forall st,
  forallb not_percent evs = true -> percents_keep_shape evs st = true.
Proof.
  induction evs as [|ev evs IH]; intros st H; [reflexivity|].
  cbn [forallb percents_keep_shape] in *.
  apply andb_prop in H as [H1 H2]. rewrite H1, IH by exact H2. reflexivity.
Qed.

(** C3, as amended: in every state reachable from the cleared state the
    input has at most one decimal point.  The input keeps its shape
    (digits and that point, after an optional leading minus sign) under
    every public event other than [Percent], from any state; under
    [Percent] it keeps it exactly when the input is left as it is or the
    quotient written to it is finite and is formatted without exponent,
    these being the numbers whose [formatNumber] text has that shape.
    Hence the input has that shape after any public events from the
    cleared state whose [Percent] events all do so, and in particular
    after events without [Percent]. *)
Theorem input_shape_C3 :
  (forall st, reachable st -> (Str.count "." (input st) <= 1)%nat)
  /\ (forall st ev,
        public ev = true -> not_percent ev = true ->
        valid_input (input st) = true ->
        valid_input (input (step st ev)) = true)
  /\ (forall st,
        valid_input (input st) = true ->
        valid_input (input (step st Percent)) = percent_keeps_shape st)
  /\ (forall x,
        valid_input (formatNumber x)
        = is_finite x && negb (Str.includes "e" (formatNumber x)))
  /\ (forall evs st,
        forallb public evs = true -> valid_input (input st) = true ->
        percents_keep_shape evs st = true ->
        valid_input (input (run evs st)) = true)
  /\ (forall evs,
        forallb public evs = true -> forallb not_percent evs = true ->
        valid_input (input (run evs cleared)) = true).
Proof.
  split; [|split; [|split; [|split; [|split]]]].
  - intros st Hr. induction Hr; [simpl; lia | apply step_one_dot; assumption].
  - apply step_valid_input.
  - apply step_percent_shape.
  - apply valid_formatNumber.
  - intros evs st. apply run_percents_keep_shape.
  - intros evs Hp Hn. apply run_percents_keep_shape;
      [exact Hp|reflexivity|apply percents_keep_shape_none, Hn].
Qed.

Lemma input_shape_C3_witness :
  valid_input
    (input (run [Digit "3"; Digit "."; Digit "5"; ToggleSign; Backspace;
                 Digit "."; Digit "7"] cleared)) = true
  /\ (Str.count "."
        (input (run [Digit "1"; Digit "."; Digit "5"; Percent; Digit "."]
                  cleared)) <= 1)%nat
  /\ valid_input
       (input (run [Digit "5"; Percent; Operator Add; Digit "3"; Percent;
                    Digit "1"] cleared)) = true
  /\ valid_input (input (step twenty Percent)) = true.
Proof.
  split; [|split; [|split]].
  - apply (proj2 (proj2 (proj2 (proj2 (proj2 input_shape_C3)))));
      reflexivity.
  - apply (proj1 input_shape_C3). apply reachable_run. reflexivity.
  - apply (proj1 (proj2 (proj2 (proj2 (proj2 input_shape_C3)))));
      reflexivity.
  - rewrite (proj1 (proj2 (proj2 input_shape_C3)) twenty); reflexivity.
Defined.

(** C3, as stated, fails: after [0 . 0 0 0 0 1] a [Percent] event leaves
    the output of [formatNumber] in the input, here in exponent
    notation. *)
Lemma input_shape_C3_counterexample :
  reachable tiny_percent
  /\ input tiny_percent = "1.0000000000000001e-7"
  /\ valid_input (input tiny_percent) = false.
Proof.
  split.
  - apply reachable_run. reflexivity.
  - vm_compute. auto.
Qed.
